(** * LinXup intelligent link checker: a shallow embedding and its properties

    The development follows [src/linxup-checker.ts] (the scan orchestrator,
    the context extractor, the archive lookup, the health score and the
    report renderer), the gateway of [persistence/database.ts] and the
    analyzer of [ai/gemini-analyzer.ts].

    JavaScript values are modelled as the code has them: a [number] is an
    IEEE 754 binary64 value (the executable specification of the Standard
    Library, [SpecFloat]), strings are byte strings, arrays are lists, and
    an [async] method that may throw is a computation in a state-and-error
    monad over the gateway's tables and an event trace. *)

From Stdlib Require Import ZArith Bool Ascii String List Lia.
From Stdlib Require Import Floats.SpecFloat.
From stdpp Require Import base option list gmap strings pretty sorting.

Local Open Scope Z_scope.

(* ===================================================================== *)
(** * JavaScript numbers *)
(* ===================================================================== *)

Module JSNumber.

(** binary64: 53 bits of precision, exponents below 1024. *)
Definition prec : Z := 53.
Definition emax : Z := 1024.

Definition number : Type := spec_float.

(** The number denoted by an integer literal or an array length. *)
Definition of_Z (n : Z) : number := binary_normalize prec emax n 0 false.

Definition sub : number -> number -> number := SFsub prec emax.
Definition mul : number -> number -> number := SFmul prec emax.
Definition div : number -> number -> number := SFdiv prec emax.

(** [x === y] on numbers. *)
Definition strict_eq (x y : number) : bool := SFeqb x y.

Definition is_neg_zero (x : number) : bool :=
  match x with S754_zero true => true | _ => false end.

(** [Math.round]: the integral number closest to [x], a tie going to
    the one closer to +infinity; a zero result keeps the sign of [x]. *)
Definition Math_round (x : number) : number :=
  match x with
  | S754_finite s m e =>
      if 0 <=? e then x
      else
        let d := Z.pow 2 (- e) in
        let n := if s then Z.neg m else Z.pos m in
        let r := (2 * n + d) / (2 * d) in
        if r =? 0 then S754_zero s else of_Z r
  | _ => x
  end.

(** [Math.min(x, y)] and [Math.max(x, y)]: NaN is contagious and
    -0 is below +0. *)
Definition Math_min (x y : number) : number :=
  match SFcompare x y with
  | None => S754_nan
  | Some Lt => x
  | Some Gt => y
  | Some Eq => if is_neg_zero x then x else y
  end.

Definition Math_max (x y : number) : number :=
  match SFcompare x y with
  | None => S754_nan
  | Some Lt => y
  | Some Gt => x
  | Some Eq => if is_neg_zero x then y else x
  end.

End JSNumber.

Import JSNumber.

(* ===================================================================== *)
(** * Health score ([calculateHealthScore]) *)
(* ===================================================================== *)

Definition calculateHealthScore (totalLinks brokenLinks : number) : number :=
  if strict_eq totalLinks (of_Z 0) then of_Z 100
  else
    let brokenRatio := div brokenLinks totalLinks in
    let score := Math_round (mul (sub (of_Z 1) brokenRatio) (of_Z 100)) in
    Math_max (of_Z 0) (Math_min (of_Z 100) score).

(** The specification's wording of the score: round((1 - broken/total) x 100)
    clamped to [0,100], and 100 when nothing was crawled. *)
Definition clamp (lo hi x : number) : number := Math_max lo (Math_min hi x).

Definition spec_healthScore (totalCount brokenCount : number) : number :=
  if strict_eq totalCount (of_Z 0) then of_Z 100
  else clamp (of_Z 0) (of_Z 100)
         (Math_round (mul (sub (of_Z 1) (div brokenCount totalCount)) (of_Z 100))).

(** The same score in exact integer arithmetic, for counts [0 <= b <= t]:
    the nearest integer to [100 (t - b) / t], halves rounded up. *)
Definition exact_healthScore (t b : Z) : Z :=
  if t =? 0 then 100
  else Z.max 0 (Z.min 100 ((200 * (t - b) + t) / (2 * t))).

Fixpoint agree_upto_row (t : Z) (n : nat) : bool :=
  match n with
  | O => true
  | S k =>
      let b := Z.of_nat k in
      agree_upto_row t k &&
      (if b <=? t
       then SFeqb (calculateHealthScore (of_Z t) (of_Z b))
                  (of_Z (exact_healthScore t b))
       else true)
  end.

Fixpoint agree_upto (n : nat) : bool :=
  match n with
  | O => true
  | S k => agree_upto k && agree_upto_row (Z.of_nat k) (S k)
  end.

(* ===================================================================== *)
(** * JavaScript strings *)
(* ===================================================================== *)

Module JSString.

Local Open Scope string_scope.

Fixpoint map_chars (f : ascii -> ascii) (s : string) : string :=
  match s with
  | EmptyString => EmptyString
  | String c s' => String (f c) (map_chars f s')
  end.

(** [s.split(sep)] for a one-character separator: never empty,
    [''.split('/')] is [['']]. *)
Fixpoint split (sep : ascii) (s : string) : list string :=
  match s with
  | EmptyString => [EmptyString]
  | String c s' =>
      if Ascii.eqb c sep then EmptyString :: split sep s'
      else match split sep s' with
           | [] => [String c EmptyString]
           | w :: ws => String c w :: ws
           end
  end.

(** [words.join(sep)]. *)
Fixpoint join (sep : string) (ws : list string) : string :=
  match ws with
  | [] => EmptyString
  | w :: rest =>
      match rest with
      | [] => w
      | _ :: _ => w +:+ sep +:+ join sep rest
      end
  end.

(** [c.toUpperCase()] on the ASCII range: a URL's pathname is
    percent-encoded, so ASCII is all there is. *)
Definition toUpperCase_char (c : ascii) : ascii :=
  let n := nat_of_ascii c in
  if (97 <=? n)%nat && (n <=? 122)%nat then ascii_of_nat (n - 32) else c.

Definition toUpperCase (s : string) : string := map_chars toUpperCase_char s.

(** [s.includes(t)]. *)
Fixpoint includes (t s : string) : bool :=
  if String.prefix t s then true
  else match s with
       | EmptyString => false
       | String _ s' => includes t s'
       end.

(** [Some p] when [s = p ++ suf]. *)
Fixpoint strip_suffix (suf s : string) : option string :=
  if String.eqb s suf then Some EmptyString
  else match s with
       | EmptyString => None
       | String c s' => option_map (String c) (strip_suffix suf s')
       end.

Fixpoint repeat (s : string) (n : nat) : string :=
  match n with
  | O => EmptyString
  | S k => s +:+ repeat s k
  end.

(** The line feed and the double quote. *)
Definition nl : string := String (ascii_of_nat 10) EmptyString.
Definition dquote : string := String (ascii_of_nat 34) EmptyString.

(** Truthiness of a string: [''] is falsy. *)
Definition truthy (s : string) : bool := negb (String.eqb s EmptyString).

(** [x || d] where [x] is a string or [undefined]. *)
Definition or_else (x : option string) (d : string) : string :=
  match x with
  | Some s => if truthy s then s else d
  | None => d
  end.

(** [x || null] on an optional string. *)
Definition or_null (x : option string) : option string :=
  match x with
  | Some s => if truthy s then Some s else None
  | None => None
  end.

End JSString.

(* ===================================================================== *)
(** * The platform: built-ins the code calls *)
(* ===================================================================== *)

(** [new URL(url).pathname] ([None] when the constructor throws),
    [String(n)] on a number and [n.toFixed(2)]. *)
Record Platform := {
  URL_pathname : string -> option string;
  Number_toString : number -> string;
  Number_toFixed2 : number -> string;
}.

(* ===================================================================== *)
(** * Context extractor ([extractLinkText]) *)
(* ===================================================================== *)

Section ContextExtractor.

Local Open Scope string_scope.
Context (P : Platform).

(** [.replace(/[-_]/g, ' ')] *)
Definition dash_to_space (c : ascii) : ascii :=
  if Ascii.eqb c "-" || Ascii.eqb c "_" then " "%char else c.

Definition replace_separators (s : string) : string :=
  JSString.map_chars dash_to_space s.

(** [.replace(/\.(html|htm|php)$/, '')] *)
Definition replace_extension (s : string) : string :=
  match JSString.strip_suffix ".html" s with
  | Some p => p
  | None =>
      match JSString.strip_suffix ".htm" s with
      | Some p => p
      | None =>
          match JSString.strip_suffix ".php" s with
          | Some p => p
          | None => s
          end
      end
  end.

(** [word.charAt(0).toUpperCase() + word.slice(1)] *)
Definition capitalize (word : string) : string :=
  match word with
  | EmptyString => EmptyString
  | String c rest => String (JSString.toUpperCase_char c) rest
  end.

Definition extractLinkText (url : string) : string :=
  match URL_pathname P url with
  | None => "Link"
  | Some pathname =>
      let segments :=
        List.filter JSString.truthy (JSString.split "/" pathname) in
      let lastSegment := JSString.or_else (last segments) "Home" in
      JSString.join " "
        (List.map capitalize
           (JSString.split " "
              (replace_extension (replace_separators lastSegment))))
  end.



Definition spec_title_case (s : string) : string :=
  JSString.join " " (List.map capitalize (JSString.split " " s)).



End ContextExtractor.

(* ===================================================================== *)
(** * Data model *)
(* ===================================================================== *)

(** A thrown [Error]; the orchestrator reads its [message]. *)
Record Error := { message : string }.

(** The crawl collaborator's types (Linkinator). *)
Inductive LinkState := OK | BROKEN | SKIPPED.

Record LinkResult := {
  link_url : string;
  link_status : option Z;
  link_state : LinkState;
  link_parent : option string;
}.

Record CheckOptions := {
  path : string;
  recurse : bool;
  timeout : option Z;
}.

Record CrawlResult := {
  passed : bool;
  links : list LinkResult;
}.

(** The analyzer's types ([ai/gemini-analyzer.ts]). *)
Inductive ImportanceLevel := critical | high | medium | low.

Record LinkAnalysisResult := {
  intendedDestination : string;
  linkPurpose : string;
  importance : ImportanceLevel;
  businessImpact : string;
  suggestedFixes : list string;
  reasoning : string;
  priorityScore : Z;
}.

Record BrokenLinkInput := {
  brokenUrl : string;
  in_statusCode : option Z;
  foundOnUrl : string;
  in_linkText : option string;
  in_htmlContext : option string;
  surroundingText : option string;
}.

(** The gateway's types ([persistence/database.ts], [schema.sql]);
    timestamps are left out. *)
Inductive ScanType := scheduled | manual.
Inductive ScanStatus := running | completed | failed | cancelled.

Record ScanResult := {
  sr_id : Z;
  sr_website_id : Z;
  sr_scan_type : ScanType;
  sr_triggered_by : option Z;
  sr_total_links : Z;
  sr_broken_links : Z;
  sr_status : ScanStatus;
  sr_health_score : option number;
  sr_error_message : option string;
}.

Record AIAnalysis := {
  ai_intendedDestination : string;
  ai_linkPurpose : string;
  ai_importance : ImportanceLevel;
  ai_businessImpact : string;
  ai_reasoning : string;
}.

Inductive FixSource := wayback | gpt4 | similar_page.

Record SuggestedFix := {
  fix_url : string;
  fix_source : FixSource;
  fix_confidence : number;
}.

Record BrokenLink := {
  bl_id : Z;
  bl_scan_id : Z;
  bl_url : string;
  bl_status_code : option Z;
  bl_found_on : string;
  bl_link_text : option string;
  bl_html_context : option string;
  bl_ai_analysis : option AIAnalysis;
  bl_suggested_fixes : option (list SuggestedFix);
  bl_priority_score : option Z;
  bl_is_critical : bool;
}.

(** The orchestrator's types. *)
Record BrokenLinkWithAI := {
  url : string;
  statusCode : option Z;
  foundOn : string;
  linkText : option string;
  htmlContext : option string;
  aiAnalysis : LinkAnalysisResult;
  dbId : Z;
}.

(** [brokenLinksWithAI] is an array: a list where the result is a value,
    a heap location where the array's identity matters. *)
Record IntelligentScanResult (Arr : Type) := {
  crawl_links : list LinkResult;
  crawl_passed : bool;
  scanId : Z;
  res_websiteId : Z;
  totalLinks : Z;
  brokenLinksCount : Z;
  healthScore : number;
  brokenLinksWithAI : Arr;
  scanDuration : Z;
}.

Arguments crawl_links {Arr} _.
Arguments crawl_passed {Arr} _.
Arguments scanId {Arr} _.
Arguments res_websiteId {Arr} _.
Arguments totalLinks {Arr} _.
Arguments brokenLinksCount {Arr} _.
Arguments healthScore {Arr} _.
Arguments brokenLinksWithAI {Arr} _.
Arguments scanDuration {Arr} _.

(** The archive service's answer to [fetch]. *)
Record Closest := {
  closest_url : option string;
  closest_available : option bool;
}.

(** [archived_snapshots] may be missing, and so may its [closest]. *)
Record WaybackData := {
  archived_snapshots : option (option Closest);
}.

Inductive JsonBody :=
| BodyInvalid (e : Error)
| BodyNull
| BodyObject (data : WaybackData).

Inductive FetchOutcome :=
| FetchRejected (e : Error)
| FetchResponse (ok : bool) (body : JsonBody).

(* ===================================================================== *)
(** * Persistence gateway ([Database]) *)
(* ===================================================================== *)

(** The statements the orchestrator sends through the gateway. *)
Inductive Query :=
| QInsertScan (websiteId : Z) (scanType : ScanType) (triggeredBy : option Z)
| QCompleteScan (scanId totalLinks brokenLinks : Z) (healthScore : number)
| QFailScan (scanId : Z) (errorMessage : string)
| QInsertBrokenLink (scanId : Z) (url : string) (statusCode : option Z)
    (foundOn : string) (linkText htmlContext : option string)
| QUpdateBrokenLinkAI (linkId : Z) (analysis : AIAnalysis)
    (fixes : list SuggestedFix) (priorityScore : Z) (isCritical : bool).

Inductive Row :=
| RowScan (r : ScanResult)
| RowLink (r : BrokenLink).

Record Tables := {
  scan_results : gmap Z ScanResult;
  broken_links : gmap Z BrokenLink;
  scan_results_id_seq : Z;
  broken_links_id_seq : Z;
}.

Definition empty_tables : Tables :=
  {| scan_results := ∅; broken_links := ∅;
     scan_results_id_seq := 1; broken_links_id_seq := 1 |}.

Definition set_completed (total broken : Z) (score : number) (r : ScanResult)
  : ScanResult :=
  {| sr_id := sr_id r; sr_website_id := sr_website_id r;
     sr_scan_type := sr_scan_type r; sr_triggered_by := sr_triggered_by r;
     sr_total_links := total; sr_broken_links := broken;
     sr_status := completed; sr_health_score := Some score;
     sr_error_message := sr_error_message r |}.

Definition set_failed (msg : string) (r : ScanResult) : ScanResult :=
  {| sr_id := sr_id r; sr_website_id := sr_website_id r;
     sr_scan_type := sr_scan_type r; sr_triggered_by := sr_triggered_by r;
     sr_total_links := sr_total_links r; sr_broken_links := sr_broken_links r;
     sr_status := failed; sr_health_score := sr_health_score r;
     sr_error_message := Some msg |}.

Definition set_analysis (a : AIAnalysis) (fixes : list SuggestedFix)
    (score : Z) (crit : bool) (r : BrokenLink) : BrokenLink :=
  {| bl_id := bl_id r; bl_scan_id := bl_scan_id r; bl_url := bl_url r;
     bl_status_code := bl_status_code r; bl_found_on := bl_found_on r;
     bl_link_text := bl_link_text r; bl_html_context := bl_html_context r;
     bl_ai_analysis := Some a; bl_suggested_fixes := Some fixes;
     bl_priority_score := Some score; bl_is_critical := crit |}.

(** What a statement does to the tables, and the rows it returns
    ([RETURNING *]). *)
Definition run_query (q : Query) (t : Tables) : Tables * list Row :=
  match q with
  | QInsertScan websiteId scanType triggeredBy =>
      let r := {| sr_id := scan_results_id_seq t; sr_website_id := websiteId;
                  sr_scan_type := scanType; sr_triggered_by := triggeredBy;
                  sr_total_links := 0; sr_broken_links := 0;
                  sr_status := running; sr_health_score := None;
                  sr_error_message := None |} in
      ({| scan_results := <[sr_id r := r]> (scan_results t);
          broken_links := broken_links t;
          scan_results_id_seq := scan_results_id_seq t + 1;
          broken_links_id_seq := broken_links_id_seq t |}, [RowScan r])
  | QCompleteScan scanId total broken score =>
      ({| scan_results := alter (set_completed total broken score) scanId
                            (scan_results t);
          broken_links := broken_links t;
          scan_results_id_seq := scan_results_id_seq t;
          broken_links_id_seq := broken_links_id_seq t |},
       match scan_results t !! scanId with
       | Some r => [RowScan (set_completed total broken score r)]
       | None => []
       end)
  | QFailScan scanId msg =>
      ({| scan_results := alter (set_failed msg) scanId (scan_results t);
          broken_links := broken_links t;
          scan_results_id_seq := scan_results_id_seq t;
          broken_links_id_seq := broken_links_id_seq t |}, [])
  | QInsertBrokenLink scanId u statusCode foundOn linkText htmlContext =>
      let r := {| bl_id := broken_links_id_seq t; bl_scan_id := scanId;
                  bl_url := u; bl_status_code := statusCode;
                  bl_found_on := foundOn; bl_link_text := linkText;
                  bl_html_context := htmlContext; bl_ai_analysis := None;
                  bl_suggested_fixes := None; bl_priority_score := None;
                  bl_is_critical := false |} in
      ({| scan_results := scan_results t;
          broken_links := <[bl_id r := r]> (broken_links t);
          scan_results_id_seq := scan_results_id_seq t;
          broken_links_id_seq := broken_links_id_seq t + 1 |}, [RowLink r])
  | QUpdateBrokenLinkAI linkId a fixes score crit =>
      ({| scan_results := scan_results t;
          broken_links := alter (set_analysis a fixes score crit) linkId
                            (broken_links t);
          scan_results_id_seq := scan_results_id_seq t;
          broken_links_id_seq := broken_links_id_seq t |},
       match broken_links t !! linkId with
       | Some r => [RowLink (set_analysis a fixes score crit r)]
       | None => []
       end)
  end.

(* ===================================================================== *)
(** * Effects: the environment, the state and the monad *)
(* ===================================================================== *)

Inductive Event :=
| EvQuery (q : Query) (rejected : option Error)
| EvCheck (options : CheckOptions)
| EvAnalyze (input : BrokenLinkInput)
| EvFetch (target : string)
| EvDelay (ms : Z).

(** What the outside world answers, given everything that happened so
    far: whether the pool rejects a statement, what the crawl returns,
    what the analyzer returns, what the archive service answers, and the
    clock. *)
Record Env := {
  pool_rejects : list Event -> Query -> option Error;
  linkinator_check : list Event -> CheckOptions -> Error + CrawlResult;
  analyzeContext : list Event -> BrokenLinkInput -> Error + LinkAnalysisResult;
  fetch : list Event -> string -> FetchOutcome;
  Date_now : list Event -> Z;
}.

(** The tables, the events so far (oldest first) and the orchestrator's
    local array [brokenLinksWithAI]. *)
Record State := {
  tables : Tables;
  trace : list Event;
  findings : list BrokenLinkWithAI;
}.

Definition M (A : Type) : Type := State -> State * (Error + A).

Definition ret {A} (a : A) : M A := fun s => (s, inr a).

Definition throw {A} (e : Error) : M A := fun s => (s, inl e).

Definition bind {A B} (m : M A) (k : A -> M B) : M B :=
  fun s =>
    match m s with
    | (s', inl e) => (s', inl e)
    | (s', inr a) => k a s'
    end.

(** [try { m } catch (error) { h error }]: the effects of [m] up to the
    throw stay. *)
Definition try_catch {A} (m : M A) (h : Error -> M A) : M A :=
  fun s =>
    match m s with
    | (s', inl e) => h e s'
    | (s', inr a) => (s', inr a)
    end.

Declare Scope monad_scope.
Delimit Scope monad_scope with monad.
Notation "'let*' x ':=' m 'in' k" := (bind m (fun x => k))
  (at level 10, x pattern, m at level 100, k at level 200) : monad_scope.
Notation "'do' m 'then' k" := (bind m (fun _ => k))
  (at level 10, m at level 100, k at level 200) : monad_scope.

Definition emit (ev : Event) : M unit :=
  fun s => ({| tables := tables s; trace := trace s ++ [ev];
               findings := findings s |}, inr tt).

Definition get_trace : M (list Event) := fun s => (s, inr (trace s)).

Definition set_findings (l : list BrokenLinkWithAI) : M unit :=
  fun s => ({| tables := tables s; trace := trace s; findings := l |}, inr tt).

Definition get_findings : M (list BrokenLinkWithAI) :=
  fun s => (s, inr (findings s)).

(** [brokenLinksWithAI.push(f)] *)
Definition push_finding (f : BrokenLinkWithAI) : M unit :=
  fun s => ({| tables := tables s; trace := trace s;
               findings := findings s ++ [f] |}, inr tt).

Local Open Scope monad_scope.

(** Falsy numbers: [n || null] drops [0]. *)
Definition or_null_Z (x : option Z) : option Z :=
  match x with
  | Some n => if n =? 0 then None else Some n
  | None => None
  end.

Definition truthy_Z (x : option Z) : bool :=
  match or_null_Z x with Some _ => true | None => false end.

(** Reading a property of [undefined]. *)
Definition TypeError : Error :=
  {| message := "Cannot read properties of undefined" |}.

Section Gateway.

Context (env : Env).

(** [Database.query]: the pool either rejects the statement, and the
    tables stay as they are, or runs it. *)
Definition db_query (q : Query) : M (list Row) :=
  fun s =>
    match pool_rejects env (trace s) q with
    | Some e =>
        ({| tables := tables s; trace := trace s ++ [EvQuery q (Some e)];
            findings := findings s |}, inl e)
    | None =>
        let (t', rows) := run_query q (tables s) in
        ({| tables := t'; trace := trace s ++ [EvQuery q None];
            findings := findings s |}, inr rows)
    end.

(** [result.rows[0]] *)
Definition first_scan (rows : list Row) : option ScanResult :=
  match rows with
  | RowScan r :: _ => Some r
  | _ => None
  end.

Definition first_link (rows : list Row) : option BrokenLink :=
  match rows with
  | RowLink r :: _ => Some r
  | _ => None
  end.

Definition createScanResult (websiteId : Z) (scanType : ScanType)
    (triggeredBy : option Z) : M (option ScanResult) :=
  let* rows := db_query (QInsertScan websiteId scanType (or_null_Z triggeredBy)) in
  ret (first_scan rows).

Definition completeScanResult (scanId totalLinks brokenLinks : Z)
    (healthScore : number) : M (option ScanResult) :=
  let* rows := db_query (QCompleteScan scanId totalLinks brokenLinks healthScore) in
  ret (first_scan rows).

Definition createBrokenLink (scanId : Z) (u : string) (statusCode : option Z)
    (foundOn : string) (linkText htmlContext : option string)
  : M (option BrokenLink) :=
  let* rows := db_query (QInsertBrokenLink scanId u statusCode foundOn
                          (JSString.or_null linkText)
                          (JSString.or_null htmlContext)) in
  ret (first_link rows).

Definition updateBrokenLinkWithAI (linkId : Z) (a : AIAnalysis)
    (fixes : list SuggestedFix) (priorityScore : Z) (isCritical : bool)
  : M (option BrokenLink) :=
  let* rows := db_query (QUpdateBrokenLinkAI linkId a fixes priorityScore
                          isCritical) in
  ret (first_link rows).

End Gateway.

(* ===================================================================== *)
(** * Archive lookup ([checkWaybackMachine]) *)
(* ===================================================================== *)

Section ArchiveLookup.

Context (env : Env).

(** [await fetch(waybackApiUrl)] *)
Definition fetch_available (target : string) : M (bool * JsonBody) :=
  let* tr := get_trace in
  do emit (EvFetch target) then
  match fetch env tr target with
  | FetchRejected e => throw e
  | FetchResponse ok body => ret (ok, body)
  end.

(** [await response.json()]; [None] is the JSON value [null]. *)
Definition response_json (body : JsonBody) : M (option WaybackData) :=
  match body with
  | BodyInvalid e => throw e
  | BodyNull => ret None
  | BodyObject data => ret (Some data)
  end.

(** The request is keyed by the address looked up, which the code
    passes through [encodeURIComponent] into the query string. *)
Definition checkWaybackMachine (target : string) : M (option string) :=
  try_catch
    (let* response := fetch_available target in
     if negb (fst response) then ret None
     else
       let* data := response_json (snd response) in
       match data with
       | None => throw TypeError
       | Some d =>
           match archived_snapshots d with
           | Some (Some c) =>
               match closest_available c with
               | Some true => ret (JSString.or_null (closest_url c))
               | _ => ret None
               end
           | _ => ret None
           end
       end)
    (fun _ => ret None).

End ArchiveLookup.

(* ===================================================================== *)
(** * Scan orchestrator ([LinXupChecker.checkWithIntelligence]) *)
(* ===================================================================== *)

Record LinXupChecker := {
  websiteId : Z;
  userId : option Z;
  includeWayback : bool;
}.

Record LinkContext := {
  ctx_linkText : option string;
  ctx_htmlContext : option string;
  ctx_surroundingText : option string;
}.

Inductive Outcome (A : Type) :=
| Returned (a : A)
| Thrown (e : Error).

Arguments Returned {A} _.
Arguments Thrown {A} _.

Section Orchestrator.

Local Open Scope string_scope.
Context (P : Platform) (env : Env) (self : LinXupChecker).

Definition extractContext (link : LinkResult) (options : CheckOptions)
  : M LinkContext :=
  ret {| ctx_linkText := Some (extractLinkText P (link_url link));
         ctx_htmlContext :=
           Some ("<a href=" +:+ JSString.dquote +:+ link_url link
                 +:+ JSString.dquote +:+ ">Link</a>");
         ctx_surroundingText := None |}.

(** [LinkChecker.check], inherited from the crawl collaborator. *)
Definition check (options : CheckOptions) : M CrawlResult :=
  let* tr := get_trace in
  do emit (EvCheck options) then
  match linkinator_check env tr options with
  | inl e => throw e
  | inr r => ret r
  end.

(** [this.aiAnalyzer.analyzeContext(aiInput)] *)
Definition analyze (input : BrokenLinkInput) : M LinkAnalysisResult :=
  let* tr := get_trace in
  do emit (EvAnalyze input) then
  match analyzeContext env tr input with
  | inl e => throw e
  | inr r => ret r
  end.

(** [await new Promise((resolve) => setTimeout(resolve, ms))] *)
Definition delay (ms : Z) : M unit := emit (EvDelay ms).

(** [aiAnalysis.suggestedFixes.unshift(u)] *)
Definition unshift_fix (u : string) (a : LinkAnalysisResult)
  : LinkAnalysisResult :=
  {| intendedDestination := intendedDestination a;
     linkPurpose := linkPurpose a;
     importance := importance a;
     businessImpact := businessImpact a;
     suggestedFixes := u :: suggestedFixes a;
     reasoning := reasoning a;
     priorityScore := priorityScore a |}.

Definition is_critical (i : ImportanceLevel) : bool :=
  match i with critical => true | _ => false end.

Definition is_broken (link : LinkResult) : bool :=
  match link_state link with BROKEN => true | _ => false end.

Definition fix_for_db (u : string) : SuggestedFix :=
  {| fix_url := u;
     fix_source := if JSString.includes "web.archive.org" u
                   then wayback else gpt4;
     fix_confidence := div (of_Z 8) (of_Z 10) |}.

(** The body of the [try] block of one iteration of the loop over
    [brokenLinks]: [i] is the index and [n] is [brokenLinks.length]. *)
Definition processLink (scan_id : Z) (options : CheckOptions)
    (n i : nat) (link : LinkResult) : M unit :=
  let* context := extractContext link options in
  let aiInput :=
    {| brokenUrl := link_url link;
       in_statusCode := or_null_Z (link_status link);
       foundOnUrl := JSString.or_else (link_parent link) (path options);
       in_linkText := ctx_linkText context;
       in_htmlContext := ctx_htmlContext context;
       surroundingText := ctx_surroundingText context |} in
  let* analysis := analyze aiInput in
  let* aiAnalysis :=
    (if includeWayback self then
       let* waybackUrl := checkWaybackMachine env (link_url link) in
       match JSString.or_null waybackUrl with
       | Some w => ret (unshift_fix w analysis)
       | None => ret analysis
       end
     else ret analysis) in
  let* created :=
    createBrokenLink env scan_id (link_url link)
      (or_null_Z (link_status link))
      (JSString.or_else (link_parent link) (path options))
      (ctx_linkText context) (ctx_htmlContext context) in
  match created with
  | None => throw TypeError
  | Some brokenLinkRecord =>
      let aiAnalysisForDb :=
        {| ai_intendedDestination := intendedDestination aiAnalysis;
           ai_linkPurpose := linkPurpose aiAnalysis;
           ai_importance := importance aiAnalysis;
           ai_businessImpact := businessImpact aiAnalysis;
           ai_reasoning := reasoning aiAnalysis |} in
      let suggestedFixesForDb :=
        List.map fix_for_db (suggestedFixes aiAnalysis) in
      do updateBrokenLinkWithAI env (bl_id brokenLinkRecord)
           aiAnalysisForDb suggestedFixesForDb (priorityScore aiAnalysis)
           (is_critical (importance aiAnalysis)) then
      do push_finding
           {| url := link_url link;
              statusCode := or_null_Z (link_status link);
              foundOn := JSString.or_else (link_parent link) (path options);
              linkText := ctx_linkText context;
              htmlContext := ctx_htmlContext context;
              aiAnalysis := aiAnalysis;
              dbId := bl_id brokenLinkRecord |} then
      if (S i <? n)%nat then delay 1000 else ret tt
  end.

(** [for (let i = ...; i < brokenLinks.length; i++) { try {...} catch {...} }]
    from index [i] on, [rest] being the links not yet visited. *)
Fixpoint analyzeLoop (scan_id : Z) (options : CheckOptions)
    (n i : nat) (rest : list LinkResult) : M unit :=
  match rest with
  | [] => ret tt
  | link :: rest' =>
      do try_catch (processLink scan_id options n i link)
           (fun _ => ret tt) then
      analyzeLoop scan_id options n (S i) rest'
  end.

Definition checkWithIntelligence (options : CheckOptions)
  : M (IntelligentScanResult (list BrokenLinkWithAI)) :=
  let* tr0 := get_trace in
  let startTime := Date_now env tr0 in
  let* created :=
    createScanResult env (websiteId self)
      (if truthy_Z (userId self) then manual else scheduled)
      (userId self) in
  match created with
  | None => throw TypeError
  | Some scanResult =>
      try_catch
        (let* crawlResult := check options in
         let brokenLinks := List.filter is_broken (links crawlResult) in
         do set_findings [] then
         do (if (0 <? length brokenLinks)%nat
             then analyzeLoop (sr_id scanResult) options
                    (length brokenLinks) 0 brokenLinks
             else ret tt) then
         let healthScore :=
           calculateHealthScore
             (of_Z (Z.of_nat (length (links crawlResult))))
             (of_Z (Z.of_nat (length brokenLinks))) in
         do completeScanResult env (sr_id scanResult)
              (Z.of_nat (length (links crawlResult)))
              (Z.of_nat (length brokenLinks)) healthScore then
         let* tr1 := get_trace in
         let scanDuration := Date_now env tr1 - startTime in
         let* brokenLinksWithAI := get_findings in
         ret {| crawl_links := links crawlResult;
                crawl_passed := passed crawlResult;
                scanId := sr_id scanResult;
                res_websiteId := websiteId self;
                totalLinks := Z.of_nat (length (links crawlResult));
                brokenLinksCount := Z.of_nat (length brokenLinks);
                healthScore := healthScore;
                brokenLinksWithAI := brokenLinksWithAI;
                scanDuration := scanDuration |})
        (fun error =>
           do db_query env (QFailScan (sr_id scanResult) (message error)) then
           throw error)
  end.

(** A run from given tables: the final state and what the caller sees. *)
Definition initial (t : Tables) : State :=
  {| tables := t; trace := []; findings := [] |}.

Definition run_scan (t : Tables) (options : CheckOptions)
  : State * Outcome (IntelligentScanResult (list BrokenLinkWithAI)) :=
  match checkWithIntelligence options (initial t) with
  | (s, inl e) => (s, Thrown e)
  | (s, inr r) => (s, Returned r)
  end.

End Orchestrator.

(* ===================================================================== *)
(** * Report renderer ([generateReport]) *)
(* ===================================================================== *)

(** [Array.prototype.sort(cmp)] is stable (ECMAScript 2019): with a
    consistent comparator its result is the one of insertion sort, where
    an element moves only past those that [cmp] puts strictly before it. *)
Section Sort.

Context {A : Type} (cmp : A -> A -> Z).

Fixpoint insert_sorted (x : A) (l : list A) : list A :=
  match l with
  | [] => [x]
  | y :: l' => if 0 <? cmp x y then y :: insert_sorted x l' else x :: l
  end.

Fixpoint Array_sort (l : list A) : list A :=
  match l with
  | [] => []
  | x :: l' => insert_sorted x (Array_sort l')
  end.

End Sort.

(** Arrays live on a heap: [generateReport] receives a reference. *)
Abbreviation loc := positive (only parsing).
Abbreviation Heap := (gmap positive (list BrokenLinkWithAI)) (only parsing).

Definition array_read (h : Heap) (l : loc) : list BrokenLinkWithAI :=
  default [] (h !! l).

(** [[...arr]]: a new array with the elements of [arr]. *)
Definition array_spread (h : Heap) (l : loc) : Heap * loc :=
  let l' := fresh (dom h) in
  (<[l' := array_read h l]> h, l').

(** [arr.sort(cmp)]: sorts [arr] in place and returns it. *)
Definition array_sort (cmp : BrokenLinkWithAI -> BrokenLinkWithAI -> Z)
    (h : Heap) (l : loc) : Heap * loc :=
  (alter (Array_sort cmp) l h, l).

Section Report.

Local Open Scope string_scope.
Context (P : Platform).

Definition getHealthEmoji (score : number) : string :=
  if SFleb (of_Z 95) score then "🟢"
  else if SFleb (of_Z 80) score then "🟡"
  else if SFleb (of_Z 60) score then "🟠"
  else "🔴".

Definition importance_string (i : ImportanceLevel) : string :=
  match i with
  | critical => "critical"
  | high => "high"
  | medium => "medium"
  | low => "low"
  end.

(** [(a, b) => b.aiAnalysis.priorityScore - a.aiAnalysis.priorityScore] *)
Definition by_priority_desc (a b : BrokenLinkWithAI) : Z :=
  priorityScore (aiAnalysis b) - priorityScore (aiAnalysis a).

Definition nl := JSString.nl.

(** Everything up to the broken-links section. *)
Definition report_summary {Arr} (result : IntelligentScanResult Arr) : string :=
  let report := nl in
  let report := report +:+ "╔═══════════════════════════════════════════════════════════════════════════════╗" +:+ nl in
  let report := report +:+ "║                        LinXup Intelligent Scan Report                         ║" +:+ nl in
  let report := report +:+ "╚═══════════════════════════════════════════════════════════════════════════════╝" +:+ nl in
  let report := report +:+ nl in
  let report := report +:+ "📊 SCAN SUMMARY" +:+ nl in
  let report := report +:+ JSString.repeat "─" 80 +:+ nl in
  let report := report +:+ "Total Links Checked:    " +:+ pretty (totalLinks result) +:+ nl in
  let report := report +:+ "Broken Links Found:     " +:+ pretty (brokenLinksCount result) +:+ nl in
  let report := report +:+ "Health Score:           "
                  +:+ Number_toString P (healthScore result) +:+ "/100 "
                  +:+ getHealthEmoji (healthScore result) +:+ nl in
  let report := report +:+ "Scan Duration:          "
                  +:+ Number_toFixed2 P (div (of_Z (scanDuration result)) (of_Z 1000))
                  +:+ "s" +:+ nl in
  let report := report +:+ "Database Scan ID:       " +:+ pretty (scanId result) +:+ nl in
  report +:+ nl.

(** What one iteration of the loop over [sortedLinks] appends. *)
Definition report_block (i : nat) (link : BrokenLinkWithAI) : string :=
  let analysis := aiAnalysis link in
  let report := "" in
  let report := report +:+ "[" +:+ pretty (Z.of_nat i + 1) +:+ "] " +:+ url link +:+ nl in
  let report := report +:+ "    Status: "
                  +:+ match or_null_Z (statusCode link) with
                      | Some c => pretty c
                      | None => "Unknown"
                      end
                  +:+ " | Priority: " +:+ pretty (priorityScore analysis)
                  +:+ "/100 | Importance: "
                  +:+ JSString.toUpperCase (importance_string (importance analysis))
                  +:+ nl in
  let report := report +:+ "    Found On: " +:+ foundOn link +:+ nl in
  let report :=
    match JSString.or_null (linkText link) with
    | Some t => report +:+ "    Link Text: " +:+ JSString.dquote +:+ t
                  +:+ JSString.dquote +:+ nl
    | None => report
    end in
  let report := report +:+ nl in
  let report := report +:+ "    📍 Intended: " +:+ intendedDestination analysis +:+ nl in
  let report := report +:+ "    🎯 Purpose: " +:+ linkPurpose analysis +:+ nl in
  let report := report +:+ "    💼 Business Impact: " +:+ businessImpact analysis +:+ nl in
  let report := report +:+ "    💡 Reasoning: " +:+ reasoning analysis +:+ nl in
  let report :=
    if (0 <? length (suggestedFixes analysis))%nat then
      fold_left (fun report fx => report +:+ "       • " +:+ fx +:+ nl)
        (suggestedFixes analysis)
        (report +:+ nl +:+ "    🔧 Suggested Fixes:" +:+ nl)
    else report in
  report +:+ nl.

(** The loop [for (let i = ...; i < sortedLinks.length; i++)] from
    index [i] on. *)
Fixpoint report_links (i : nat) (sortedLinks : list BrokenLinkWithAI)
    (report : string) : string :=
  match sortedLinks with
  | [] => report
  | link :: rest => report_links (S i) rest (report +:+ report_block i link)
  end.

Definition report_footer : string :=
  JSString.repeat "═" 80 +:+ nl
    +:+ "Powered by LinXup - AI-Powered Link Monitoring" +:+ nl
    +:+ JSString.repeat "═" 80 +:+ nl.

Definition generateReport (h : Heap) (result : IntelligentScanResult loc)
  : Heap * string :=
  let report := report_summary result in
  let '(h, report) :=
    if (0 <? length (array_read h (brokenLinksWithAI result)))%nat then
      let report := report +:+ "🔴 BROKEN LINKS WITH AI ANALYSIS" +:+ nl in
      let report := report +:+ JSString.repeat "─" 80 +:+ nl +:+ nl in
      let '(h, copy) := array_spread h (brokenLinksWithAI result) in
      let '(h, sortedLinks) := array_sort by_priority_desc h copy in
      (h, report_links 0 (array_read h sortedLinks) report)
    else
      let report := report +:+ "✅ NO BROKEN LINKS FOUND!" +:+ nl in
      (h, report +:+ "All " +:+ pretty (totalLinks result)
            +:+ " links are working perfectly." +:+ nl +:+ nl) in
  (h, report +:+ report_footer).

(** The report's broken-links section for findings listed in the given
    order. *)
Fixpoint concat_blocks (i : nat) (ls : list BrokenLinkWithAI) : string :=
  match ls with
  | [] => ""
  | link :: rest => report_block i link +:+ concat_blocks (S i) rest
  end.

Definition links_header : string :=
  "🔴 BROKEN LINKS WITH AI ANALYSIS" +:+ nl
    +:+ JSString.repeat "─" 80 +:+ nl +:+ nl.

End Report.

(* ===================================================================== *)
(** * Observations on a run *)
(* ===================================================================== *)

Section Observations.

Context (P : Platform) (env : Env) (self : LinXupChecker).

(** The links whose [try] block ran to its end, for the loop started at
    index [i] in state [s]. *)
Fixpoint survivors (scan_id : Z) (options : CheckOptions) (n i : nat)
    (rest : list LinkResult) (s : State) : list LinkResult :=
  match rest with
  | [] => []
  | link :: rest' =>
      match processLink P env self scan_id options n i link s with
      | (s1, inl _) => survivors scan_id options n (S i) rest' s1
      | (s1, inr _) => link :: survivors scan_id options n (S i) rest' s1
      end
  end.

(** The finding the orchestrator builds for a link carries the link's
    own data. *)
Definition finding_of (options : CheckOptions) (link : LinkResult)
    (f : BrokenLinkWithAI) : Prop :=
  url f = link_url link /\
  statusCode f = or_null_Z (link_status link) /\
  foundOn f = JSString.or_else (link_parent link) (path options) /\
  linkText f = Some (extractLinkText P (link_url link)).

End Observations.

(** Terminal mutations of scan record [sid] in a trace. *)
Definition is_completed_write (sid : Z) (ev : Event) : bool :=
  match ev with
  | EvQuery (QCompleteScan sid' _ _ _) None => sid' =? sid
  | _ => false
  end.

Definition is_failed_write (sid : Z) (ev : Event) : bool :=
  match ev with
  | EvQuery (QFailScan sid' _) None => sid' =? sid
  | _ => false
  end.

(** A [failed] statement sent for [sid], applied or rejected. *)
Definition is_failed_attempt (sid : Z) (ev : Event) : bool :=
  match ev with
  | EvQuery (QFailScan sid' _) _ => sid' =? sid
  | _ => false
  end.

Definition is_terminal_write (sid : Z) (ev : Event) : bool :=
  is_completed_write sid ev || is_failed_write sid ev.

(** Any statement on the [scan_results] table that sets a terminal state. *)
Definition is_terminal_statement (ev : Event) : bool :=
  match ev with
  | EvQuery (QCompleteScan _ _ _ _) _ => true
  | EvQuery (QFailScan _ _) _ => true
  | _ => false
  end.

Definition count_events (p : Event -> bool) (tr : list Event) : nat :=
  length (List.filter p tr).

Definition scan_status (t : Tables) (sid : Z) : option ScanStatus :=
  sr_status <$> scan_results t !! sid.

Definition scan_error (t : Tables) (sid : Z) : option (option string) :=
  sr_error_message <$> scan_results t !! sid.

(** The id the gateway gives to the scan record of a run from tables [t]. *)
Definition new_scan_id (t : Tables) : Z := scan_results_id_seq t.

Definition insert_scan_of (self : LinXupChecker) : Query :=
  QInsertScan (websiteId self)
    (if truthy_Z (userId self) then manual else scheduled)
    (or_null_Z (userId self)).

(** The state right after the scan record was created. *)
Definition after_create (self : LinXupChecker) (t : Tables) : State :=
  {| tables := fst (run_query (insert_scan_of self) t);
     trace := [EvQuery (insert_scan_of self) None];
     findings := [] |}.

Definition is_delay (ev : Event) : bool :=
  match ev with EvDelay _ => true | _ => false end.

Definition is_analyze (ev : Event) : bool :=
  match ev with EvAnalyze _ => true | _ => false end.

(** The fixes lists written through [updateBrokenLinkWithAI]. *)
Definition persisted_fixes (ev : Event) : option (list SuggestedFix) :=
  match ev with
  | EvQuery (QUpdateBrokenLinkAI _ _ fixes _ _) None => Some fixes
  | _ => None
  end.

(** The analyzer's contract on the length of [suggestedFixes]
    ([validateAnalysis] keeps [slice(0, 3)], the fallback returns two). *)
Definition analyzer_contract (env : Env) : Prop :=
  forall tr input a,
    analyzeContext env tr input = inr a -> (length (suggestedFixes a) <= 3)%nat.

(** The archive answer that marks a snapshot with address [u] available. *)
Definition snapshot_available (out : FetchOutcome) (u : string) : Prop :=
  exists d c,
    out = FetchResponse true (BodyObject d) /\
    archived_snapshots d = Some (Some c) /\
    closest_available c = Some true /\
    closest_url c = Some u.

(* ===================================================================== *)
(** * Sample collaborators for the examples *)
(* ===================================================================== *)

Module Sample.

Local Open Scope string_scope.
Local Open Scope Z_scope.

Fixpoint drop_prefix (p s : string) : option string :=
  match p with
  | EmptyString => Some s
  | String a p' =>
      match s with
      | EmptyString => None
      | String b s' => if Ascii.eqb a b then drop_prefix p' s' else None
      end
  end.

Fixpoint take_until (stop : ascii -> bool) (s : string) : string :=
  match s with
  | EmptyString => EmptyString
  | String c s' => if stop c then EmptyString else String c (take_until stop s')
  end.

Fixpoint drop_until (stop : ascii -> bool) (s : string) : string :=
  match s with
  | EmptyString => EmptyString
  | String c s' => if stop c then s else drop_until stop s'
  end.

Definition ends_authority (c : ascii) : bool :=
  Ascii.eqb c "/" || Ascii.eqb c "?" || Ascii.eqb c "#".

Definition ends_path (c : ascii) : bool :=
  Ascii.eqb c "?" || Ascii.eqb c "#".

(** The pathname of a plain [http(s)://host/path?query#fragment]
    address; anything else is refused, as a relative address is by
    [new URL]. *)
Definition pathname (u : string) : option string :=
  let after_scheme :=
    match drop_prefix "https://" u with
    | Some r => Some r
    | None => drop_prefix "http://" u
    end in
  match after_scheme with
  | None => None
  | Some r =>
      let p := take_until ends_path (drop_until ends_authority r) in
      Some (if String.eqb p "" then "/" else p)
  end.

(** The value of an integral number. *)
Definition integral_value (x : number) : option Z :=
  match x with
  | S754_zero _ => Some 0
  | S754_finite s m e =>
      let n := if s then Z.neg m else Z.pos m in
      if 0 <=? e then Some (n * 2 ^ e)
      else if n mod 2 ^ (- e) =? 0 then Some (n / 2 ^ (- e)) else None
  | _ => None
  end.

Definition toString (x : number) : string :=
  match integral_value x with
  | Some n => pretty n
  | None => "NaN"
  end.

(** [x.toFixed(2)] for a number that is not negative: the hundredths
    nearest to the exact value, the larger on a tie. *)
Definition toFixed2 (x : number) : string :=
  match x with
  | S754_zero _ => "0.00"
  | S754_finite false m e =>
      let h := if 0 <=? e then Z.pos m * 2 ^ e * 100
               else (2 * (Z.pos m * 100) + 2 ^ (- e)) / (2 * 2 ^ (- e)) in
      pretty (h / 100) +:+ "." +:+ pretty (h mod 100 / 10) +:+ pretty (h mod 10)
  | _ => "NaN"
  end.

Definition platform : Platform :=
  {| URL_pathname := pathname;
     Number_toString := toString;
     Number_toFixed2 := toFixed2 |}.

(** An environment that answers by the request alone; the clock
    advances one second per event. *)
Definition scripted (rejects : Query -> option Error)
    (crawl : Error + CrawlResult)
    (analysis : BrokenLinkInput -> Error + LinkAnalysisResult)
    (archive : string -> FetchOutcome) : Env :=
  {| pool_rejects := fun _ q => rejects q;
     linkinator_check := fun _ _ => crawl;
     analyzeContext := fun _ input => analysis input;
     fetch := fun _ target => archive target;
     Date_now := fun tr => 1000 * Z.of_nat (length tr) |}.

Definition broken (u : string) : LinkResult :=
  {| link_url := u; link_status := Some 404; link_state := BROKEN;
     link_parent := Some "https://example.org/index.html" |}.

Definition working (u : string) : LinkResult :=
  {| link_url := u; link_status := Some 200; link_state := OK;
     link_parent := Some "https://example.org/index.html" |}.

Definition options : CheckOptions :=
  {| path := "https://example.org"; recurse := true; timeout := Some 30000 |}.

Definition checker (archive : bool) : LinXupChecker :=
  {| websiteId := 1; userId := Some 7; includeWayback := archive |}.

(** An analysis with [k] suggested fixes. *)
Definition analysis_with (k : nat) (score : Z) (input : BrokenLinkInput)
  : LinkAnalysisResult :=
  {| intendedDestination := "Unknown destination";
     linkPurpose := "Unknown purpose";
     importance := medium;
     businessImpact := "Impact unclear";
     suggestedFixes := List.repeat (brokenUrl input) k;
     reasoning := "No reasoning available";
     priorityScore := score |}.

Definition snapshot (u : string) : FetchOutcome :=
  FetchResponse true
    (BodyObject {| archived_snapshots :=
                     Some (Some {| closest_url := Some u;
                                   closest_available := Some true |}) |}).

(** The pool refuses to insert the broken link with address [u]. *)
Definition refuse_link (u : string) (q : Query) : option Error :=
  match q with
  | QInsertBrokenLink _ u' _ _ _ _ =>
      if String.eqb u u' then Some {| message := "connection terminated" |}
      else None
  | _ => None
  end.

(** The pool refuses the statement that marks a scan failed. *)
Definition refuse_fail (q : Query) : option Error :=
  match q with
  | QFailScan _ _ => Some {| message := "connection terminated" |}
  | _ => None
  end.

Definition three_links : CrawlResult :=
  {| passed := false;
     links := [broken "https://example.org/a.html";
               working "https://example.org/";
               broken "https://example.org/b.html";
               broken "https://example.org/c.html"] |}.

Definition two_links : CrawlResult :=
  {| passed := false;
     links := [broken "https://example.org/a.html";
               broken "https://example.org/b.html"] |}.

Definition finding (u : string) (score : Z) : BrokenLinkWithAI :=
  {| url := u; statusCode := Some 404;
     foundOn := "https://example.org/index.html";
     linkText := Some "Page"; htmlContext := None;
     aiAnalysis :=
       {| intendedDestination := "Unknown destination";
          linkPurpose := "Unknown purpose";
          importance := medium;
          businessImpact := "Impact unclear";
          suggestedFixes := [];
          reasoning := "No reasoning available";
          priorityScore := score |};
     dbId := 1 |}.

End Sample.

(* ===================================================================== *)
(** * Claims that the code does not satisfy as they are worded *)
(* ===================================================================== *)

(** What [checkWaybackMachine] hands back to its caller. *)
Definition archive_returns (env : Env) (s : State) (target : string)
  : Error + option string :=
  snd (checkWaybackMachine env target s).

(** "The Wayback check returns the closest snapshot's URL exactly when
    the response is successful, the available flag is true and a url
    field is present." *)
Definition archive_claim : Prop :=
  forall env s target u,
    archive_returns env s target = inr (Some u)
    <-> snapshot_available (fetch env (trace s) target) u.

(* ===================================================================== *)
(** * Invariants of the per-link loop *)
(* ===================================================================== *)

(** What the archive lookup answers in state [s] (it never throws). *)
Definition archive_result (env : Env) (s : State) (target : string)
  : option string :=
  match archive_returns env s target with
  | inr r => r
  | inl _ => None
  end.

(** The most fixes a finding carries: the analyzer's three, and the
    archived copy when the lookup is enabled. *)
Definition fix_bound (self : LinXupChecker) : nat :=
  if includeWayback self then 4%nat else 3%nat.

Definition fixes_within (bound : nat) (ev : Event) : Prop :=
  match persisted_fixes ev with
  | Some fixes => (length fixes <= bound)%nat
  | None => True
  end.

(** The loop leaves the [scan_results] table alone and sends no
    statement that sets a terminal state. *)
Definition loop_frame (s s' : State) : Prop :=
  scan_results (tables s') = scan_results (tables s) /\
  scan_results_id_seq (tables s') = scan_results_id_seq (tables s) /\
  exists evs,
    trace s' = trace s ++ evs /\
    Forall (fun ev => is_terminal_statement ev = false) evs.

(* ===================================================================== *)
(** * Stages of a scan *)
(* ===================================================================== *)

(** The state in which the loop over the broken links starts: the scan
    record exists and the crawl has returned. *)
Definition loop_start (self : LinXupChecker) (t : Tables)
    (options : CheckOptions) : State :=
  {| tables := tables (after_create self t);
     trace := trace (after_create self t) ++ [EvCheck options];
     findings := [] |}.

Definition broken_of (crawl : CrawlResult) : list LinkResult :=
  List.filter is_broken (links crawl).

(** The state in which the loop ends. *)
Definition after_loop (P : Platform) (env : Env) (self : LinXupChecker)
    (t : Tables) (options : CheckOptions) (crawl : CrawlResult) : State :=
  fst (analyzeLoop P env self (new_scan_id t) options
         (length (broken_of crawl)) 0 (broken_of crawl)
         (loop_start self t options)).

(** The broken links that made it into the result. *)
Definition kept_links (P : Platform) (env : Env) (self : LinXupChecker)
    (t : Tables) (options : CheckOptions) (crawl : CrawlResult)
  : list LinkResult :=
  survivors P env self (new_scan_id t) options
    (length (broken_of crawl)) 0 (broken_of crawl) (loop_start self t options).

Definition complete_of (t : Tables) (crawl : CrawlResult) : Query :=
  QCompleteScan (new_scan_id t)
    (Z.of_nat (length (links crawl)))
    (Z.of_nat (length (broken_of crawl)))
    (calculateHealthScore
       (of_Z (Z.of_nat (length (links crawl))))
       (of_Z (Z.of_nat (length (broken_of crawl))))).

(** Sending statement [q] in state [s]: applied, or rejected. *)
Definition applied (q : Query) (s : State) : State :=
  {| tables := fst (run_query q (tables s));
     trace := trace s ++ [EvQuery q None];
     findings := findings s |}.

Definition rejected (q : Query) (e : Error) (s : State) : State :=
  {| tables := tables s;
     trace := trace s ++ [EvQuery q (Some e)];
     findings := findings s |}.

(** The fatal handler: [catch (error) { mark failed; throw error }]. *)
Definition fatal {A} (env : Env) (sid : Z) (error : Error) (s : State)
  : State * Outcome A :=
  match pool_rejects env (trace s) (QFailScan sid (message error)) with
  | None => (applied (QFailScan sid (message error)) s, Thrown error)
  | Some e2 => (rejected (QFailScan sid (message error)) e2 s, Thrown e2)
  end.

Definition result_of (P : Platform) (env : Env) (self : LinXupChecker)
    (t : Tables) (options : CheckOptions) (crawl : CrawlResult)
  : IntelligentScanResult (list BrokenLinkWithAI) :=
  let s2 := after_loop P env self t options crawl in
  {| crawl_links := links crawl;
     crawl_passed := passed crawl;
     scanId := new_scan_id t;
     res_websiteId := websiteId self;
     totalLinks := Z.of_nat (length (links crawl));
     brokenLinksCount := Z.of_nat (length (broken_of crawl));
     healthScore :=
       calculateHealthScore
         (of_Z (Z.of_nat (length (links crawl))))
         (of_Z (Z.of_nat (length (broken_of crawl))));
     brokenLinksWithAI := findings s2;
     scanDuration :=
       Date_now env (trace s2 ++ [EvQuery (complete_of t crawl) None])
       - Date_now env [] |}.

(** The whole run, stage by stage. *)
Definition scan_stages (P : Platform) (env : Env) (self : LinXupChecker)
    (t : Tables) (options : CheckOptions)
  : State * Outcome (IntelligentScanResult (list BrokenLinkWithAI)) :=
  match pool_rejects env [] (insert_scan_of self) with
  | Some e => (rejected (insert_scan_of self) e (initial t), Thrown e)
  | None =>
      match linkinator_check env (trace (after_create self t)) options with
      | inl e => fatal env (new_scan_id t) e (loop_start self t options)
      | inr crawl =>
          let s2 := after_loop P env self t options crawl in
          match pool_rejects env (trace s2) (complete_of t crawl) with
          | None => (applied (complete_of t crawl) s2,
                     Returned (result_of P env self t options crawl))
          | Some e =>
              fatal env (new_scan_id t) e (rejected (complete_of t crawl) e s2)
          end
      end
  end.

(** Persisting the link with address [bad] throws (its record cannot be
    inserted) and nothing else in the loop does. *)
Definition only_link_refused (env : Env) (bad : string) : Prop :=
  (forall tr input, exists a, analyzeContext env tr input = inr a) /\
  (forall tr sid u st fo lt hc,
     pool_rejects env tr (QInsertBrokenLink sid u st fo lt hc) <> None
     <-> u = bad) /\
  (forall tr lid a fixes score crit,
     pool_rejects env tr (QUpdateBrokenLinkAI lid a fixes score crit) = None).

Definition other_than (bad : string) (link : LinkResult) : bool :=
  negb (String.eqb (link_url link) bad).

(** "When the crawl throws after the scan record was created, the
    orchestrator marks the record FAILED with the error's message and
    re-raises the same error." *)
Definition crawl_failure_claim : Prop :=
  forall P env self t options e,
    pool_rejects env [] (insert_scan_of self) = None ->
    linkinator_check env (trace (after_create self t)) options = inl e ->
    exists s,
      run_scan P env self t options = (s, Thrown e) /\
      scan_status (tables s) (new_scan_id t) = Some failed /\
      scan_error (tables s) (new_scan_id t) = Some (Some (message e)).

(** "Every analysis returned and persisted has at most 3 suggested
    fixes, the archive snapshot included, when the analyzer keeps its
    contract." *)
Definition fixes_claim : Prop :=
  forall P env self t options s r,
    analyzer_contract env ->
    run_scan P env self t options = (s, Returned r) ->
    Forall (fun f => (length (suggestedFixes (aiAnalysis f)) <= 3)%nat)
      (brokenLinksWithAI r) /\
    Forall (fixes_within 3) (trace s).

(** "Every iteration of the per-link loop but the last is followed by
    the delay, before the next link starts": every call of the analyzer
    but the first comes after a delay made since the call before it.
    [seen] tells whether a delay was made since the last call. *)
Fixpoint delayed_analyses (seen : bool) (tr : list Event) : bool :=
  match tr with
  | [] => true
  | EvAnalyze _ :: rest => seen && delayed_analyses false rest
  | EvDelay _ :: rest => delayed_analyses true rest
  | _ :: rest => delayed_analyses seen rest
  end.

(** Scenarios for the examples. *)
Module Scenario.

Local Open Scope string_scope.

Definition archived (u : string) : FetchOutcome :=
  Sample.snapshot ("http://web.archive.org/web/2020/" +:+ u).

Definition accept_all (q : Query) : option Error := None.

(** Three broken links; the second one cannot be persisted. *)
Definition second_refused : Env :=
  Sample.scripted (Sample.refuse_link "https://example.org/b.html")
    (inr Sample.three_links)
    (fun i => inr (Sample.analysis_with 2 50 i)) archived.

(** Two broken links; the first one cannot be persisted. *)
Definition first_refused : Env :=
  Sample.scripted (Sample.refuse_link "https://example.org/a.html")
    (inr Sample.two_links)
    (fun i => inr (Sample.analysis_with 2 50 i)) archived.

(** Everything works; the analyzer suggests three fixes and the archive
    has a snapshot. *)
Definition all_well : Env :=
  Sample.scripted accept_all (inr Sample.two_links)
    (fun i => inr (Sample.analysis_with 3 50 i)) archived.

Definition crawl_error : Error :=
  {| message := "getaddrinfo ENOTFOUND example.org" |}.

(** The crawl throws. *)
Definition crawl_throws : Env :=
  Sample.scripted accept_all (inl crawl_error)
    (fun i => inr (Sample.analysis_with 2 50 i)) archived.

(** The crawl throws and the pool then refuses the statement that
    marks the scan failed. *)
Definition crawl_throws_pool_down : Env :=
  Sample.scripted Sample.refuse_fail (inl crawl_error)
    (fun i => inr (Sample.analysis_with 2 50 i)) archived.

(** The scan record cannot be created. *)
Definition refuse_scan (q : Query) : option Error :=
  match q with
  | QInsertScan _ _ _ => Some {| message := "connection refused" |}
  | _ => None
  end.

Definition no_database : Env :=
  Sample.scripted refuse_scan (inr Sample.two_links)
    (fun i => inr (Sample.analysis_with 2 50 i)) archived.

(** The pool refuses the statement that completes the scan. *)
Definition refuse_complete (q : Query) : option Error :=
  match q with
  | QCompleteScan _ _ _ _ => Some {| message := "deadlock detected" |}
  | _ => None
  end.

Definition completion_refused : Env :=
  Sample.scripted refuse_complete (inr Sample.two_links)
    (fun i => inr (Sample.analysis_with 2 50 i)) archived.

End Scenario.

(* ===================================================================== *)
(** * The layout of a report *)
(* ===================================================================== *)

(** The section of a report without broken links. *)
Definition report_no_links {Arr} (result : IntelligentScanResult Arr) : string :=
  ("✅ NO BROKEN LINKS FOUND!" +:+ nl
     +:+ "All " +:+ pretty (totalLinks result)
     +:+ " links are working perfectly." +:+ nl +:+ nl)%string.

(** The section that lists [sorted], in that order. *)
Definition report_section {Arr} (result : IntelligentScanResult Arr)
    (sorted : list BrokenLinkWithAI) : string :=
  if (0 <? length sorted)%nat
  then links_header +:+ concat_blocks 0 sorted
  else report_no_links result.



(** A renderer that sorts the caller's array itself, without the copy. *)
Definition sort_in_place (h : Heap) (result : IntelligentScanResult loc) : Heap :=
  fst (array_sort by_priority_desc h (brokenLinksWithAI result)).

(** A result with three findings, of priorities 50, 95 and 50. *)
Module ReportScenario.

Local Open Scope string_scope.

Definition unsorted : list BrokenLinkWithAI :=
  [Sample.finding "https://example.org/a.html" 50;
   Sample.finding "https://example.org/b.html" 95;
   Sample.finding "https://example.org/c.html" 50].

Definition heap : Heap := {[ 1%positive := unsorted ]}.

Definition result : IntelligentScanResult loc :=
  {| crawl_links := []; crawl_passed := false;
     scanId := 1; res_websiteId := 1;
     totalLinks := 10; brokenLinksCount := 3;
     healthScore := of_Z 70;
     brokenLinksWithAI := 1%positive;
     scanDuration := 4200 |}.

End ReportScenario.

(* ===================================================================== *)
(** * Stages of one link *)
(* ===================================================================== *)

Definition emitted (ev : Event) (s : State) : State :=
  {| tables := tables s; trace := trace s ++ [ev]; findings := findings s |}.

Definition pushed (f : BrokenLinkWithAI) (s : State) : State :=
  {| tables := tables s; trace := trace s; findings := findings s ++ [f] |}.

(** What the orchestrator hands to the analyzer for a link. *)
Definition ai_input_of (P : Platform) (options : CheckOptions)
    (link : LinkResult) : BrokenLinkInput :=
  {| brokenUrl := link_url link;
     in_statusCode := or_null_Z (link_status link);
     foundOnUrl := JSString.or_else (link_parent link) (path options);
     in_linkText := Some (extractLinkText P (link_url link));
     in_htmlContext :=
       Some ("<a href=" +:+ JSString.dquote +:+ link_url link
             +:+ JSString.dquote +:+ ">Link</a>")%string;
     surroundingText := None |}.

(** The statement that inserts the link's record. *)
Definition insert_link_of (P : Platform) (scan_id : Z)
    (options : CheckOptions) (link : LinkResult) : Query :=
  QInsertBrokenLink scan_id (link_url link) (or_null_Z (link_status link))
    (JSString.or_else (link_parent link) (path options))
    (JSString.or_null (in_linkText (ai_input_of P options link)))
    (JSString.or_null (in_htmlContext (ai_input_of P options link))).

Definition analysis_for_db (a : LinkAnalysisResult) : AIAnalysis :=
  {| ai_intendedDestination := intendedDestination a;
     ai_linkPurpose := linkPurpose a;
     ai_importance := importance a;
     ai_businessImpact := businessImpact a;
     ai_reasoning := reasoning a |}.

(** The statement that stores an analysis in record [lid]. *)
Definition update_link_of (lid : Z) (a : LinkAnalysisResult) : Query :=
  QUpdateBrokenLinkAI lid (analysis_for_db a)
    (List.map fix_for_db (suggestedFixes a)) (priorityScore a)
    (is_critical (importance a)).

(** The finding pushed for a link analysed as [a] and stored as [lid]. *)
Definition finding_for (P : Platform) (options : CheckOptions)
    (link : LinkResult) (a : LinkAnalysisResult) (lid : Z) : BrokenLinkWithAI :=
  {| url := link_url link;
     statusCode := or_null_Z (link_status link);
     foundOn := JSString.or_else (link_parent link) (path options);
     linkText := in_linkText (ai_input_of P options link);
     htmlContext := in_htmlContext (ai_input_of P options link);
     aiAnalysis := a;
     dbId := lid |}.

(** The analysis after the archive step, in the state [s] reached when
    the analyzer has answered [a]. *)
Definition with_archive (env : Env) (self : LinXupChecker) (s : State)
    (link : LinkResult) (a : LinkAnalysisResult) : LinkAnalysisResult :=
  if includeWayback self then
    match JSString.or_null (archive_result env s (link_url link)) with
    | Some w => unshift_fix w a
    | None => a
    end
  else a.

(** One pass through the [try] block, stage by stage. *)
Definition link_stages (P : Platform) (env : Env) (self : LinXupChecker)
    (scan_id : Z) (options : CheckOptions) (n i : nat) (link : LinkResult)
    (s : State) : State * (Error + unit) :=
  let s1 := emitted (EvAnalyze (ai_input_of P options link)) s in
  match analyzeContext env (trace s) (ai_input_of P options link) with
  | inl e => (s1, inl e)
  | inr a0 =>
      let s2 := if includeWayback self
                then emitted (EvFetch (link_url link)) s1 else s1 in
      let a := with_archive env self s1 link a0 in
      match pool_rejects env (trace s2) (insert_link_of P scan_id options link) with
      | Some e => (rejected (insert_link_of P scan_id options link) e s2, inl e)
      | None =>
          let s3 := applied (insert_link_of P scan_id options link) s2 in
          let lid := broken_links_id_seq (tables s2) in
          match pool_rejects env (trace s3) (update_link_of lid a) with
          | Some e => (rejected (update_link_of lid a) e s3, inl e)
          | None =>
              let s4 := pushed (finding_for P options link a lid)
                          (applied (update_link_of lid a) s3) in
              (if (S i <? n)%nat then emitted (EvDelay 1000) s4 else s4,
               inr tt)
          end
      end
  end.

(** The record a finding stands for in the [broken_links] table. *)
Definition row_of (scan_id : Z) (f : BrokenLinkWithAI) : BrokenLink :=
  {| bl_id := dbId f; bl_scan_id := scan_id; bl_url := url f;
     bl_status_code := statusCode f; bl_found_on := foundOn f;
     bl_link_text := JSString.or_null (linkText f);
     bl_html_context := JSString.or_null (htmlContext f);
     bl_ai_analysis := Some (analysis_for_db (aiAnalysis f));
     bl_suggested_fixes :=
       Some (List.map fix_for_db (suggestedFixes (aiAnalysis f)));
     bl_priority_score := Some (priorityScore (aiAnalysis f));
     bl_is_critical := is_critical (importance (aiAnalysis f)) |}.

(** The addresses handed to the analyzer and to the archive, in order. *)
Definition analyzed_url (ev : Event) : option string :=
  match ev with EvAnalyze input => Some (brokenUrl input) | _ => None end.

Definition fetched_url (ev : Event) : option string :=
  match ev with EvFetch target => Some target | _ => None end.

Definition analyzed_urls (tr : list Event) : list string :=
  omap analyzed_url tr.

Definition fetched_urls (tr : list Event) : list string :=
  omap fetched_url tr.

(** A delay of another length than one second. *)
Definition is_other_delay (ev : Event) : bool :=
  match ev with EvDelay ms => negb (ms =? 1000) | _ => false end.

(** The records inserted, whether or not an analysis followed. *)
Definition inserted_link (ev : Event) : option string :=
  match ev with
  | EvQuery (QInsertBrokenLink _ u _ _ _ _) None => Some u
  | _ => None
  end.

Definition inserted_urls (tr : list Event) : list string :=
  omap inserted_link tr.

(** The findings gathered so far are in the [broken_links] table, each
    under an id of its own handed out before the next one. *)
Definition persisted (scan_id : Z) (s : State) : Prop :=
  Forall (fun f =>
            dbId f < broken_links_id_seq (tables s) /\
            broken_links (tables s) !! dbId f = Some (row_of scan_id f))
    (findings s) /\
  StronglySorted Z.lt (List.map dbId (findings s)).

(** A returned result seen as the object the caller holds: its array of
    findings stored at [l]. *)
Definition held_at (l : loc) (r : IntelligentScanResult (list BrokenLinkWithAI))
  : Heap * IntelligentScanResult loc :=
  ({[ l := brokenLinksWithAI r ]},
   {| crawl_links := crawl_links r;
      crawl_passed := crawl_passed r;
      scanId := scanId r;
      res_websiteId := res_websiteId r;
      totalLinks := totalLinks r;
      brokenLinksCount := brokenLinksCount r;
      healthScore := healthScore r;
      brokenLinksWithAI := l;
      scanDuration := scanDuration r |}).

(** The pool refuses every record of a broken link. *)
Definition refuse_links (q : Query) : option Error :=
  match q with
  | QInsertBrokenLink _ _ _ _ _ _ =>
      Some {| message := "connection terminated" |}
  | _ => None
  end.

Definition no_link_stored : Env :=
  Sample.scripted refuse_links (inr Sample.two_links)
    (fun i => inr (Sample.analysis_with 2 50 i)) Scenario.archived.

(** The gateway stores no record of a broken link. *)
Definition links_never_stored (env : Env) : Prop :=
  forall tr sid u st fo lt hc,
    pool_rejects env tr (QInsertBrokenLink sid u st fo lt hc) <> None.

(* ===================================================================== *)
(** * The gateway's instance ([Database.getInstance], [createDatabase]) *)
(* ===================================================================== *)

(** Truthiness of a number: 0, -0 and NaN are falsy. *)
Definition number_truthy (x : number) : bool :=
  match x with
  | S754_zero _ => false
  | S754_nan => false
  | _ => true
  end.

(** [x || d] where [x] is a number or [undefined]. *)
Definition number_or (x : option number) (d : number) : number :=
  match x with
  | Some n => if number_truthy n then n else d
  | None => d
  end.

Record DatabaseConfig := {
  cfg_host : string;
  cfg_port : number;
  cfg_database : string;
  cfg_user : string;
  cfg_password : string;
  cfg_max : option number;
  cfg_idleTimeoutMillis : option number;
  cfg_connectionTimeoutMillis : option number;
}.

(** The options the constructor passes to [new Pool]. *)
Record PoolOptions := {
  pool_host : string;
  pool_port : number;
  pool_database : string;
  pool_user : string;
  pool_password : string;
  pool_max : number;
  pool_idleTimeoutMillis : number;
  pool_connectionTimeoutMillis : number;
}.

Record Database := { pool : PoolOptions }.

(** [new Database(config)] *)
Definition new_Database (config : DatabaseConfig) : Database :=
  {| pool :=
       {| pool_host := cfg_host config;
          pool_port := cfg_port config;
          pool_database := cfg_database config;
          pool_user := cfg_user config;
          pool_password := cfg_password config;
          pool_max := number_or (cfg_max config) (of_Z 20);
          pool_idleTimeoutMillis :=
            number_or (cfg_idleTimeoutMillis config) (of_Z 30000);
          pool_connectionTimeoutMillis :=
            number_or (cfg_connectionTimeoutMillis config) (of_Z 2000) |} |}.

Definition configuration_required : Error :=
  {| message := "Database configuration required for first initialization" |}.

(** [Database.getInstance(config?)], the static field [Database.instance]
    being the state. *)
Definition getInstance (config : option DatabaseConfig)
    (instance : option Database) : option Database * (Error + Database) :=
  match instance with
  | Some d => (instance, inr d)
  | None =>
      match config with
      | None => (None, inl configuration_required)
      | Some c => (Some (new_Database c), inr (new_Database c))
      end
  end.

(** The process environment and [parseInt]. *)
Record ProcessEnv := {
  getenv : string -> option string;
  parseInt : string -> number;
}.

(** The configuration [createDatabase] reads from the environment. *)
Definition env_config (E : ProcessEnv) : DatabaseConfig :=
  {| cfg_host := JSString.or_else (getenv E "DB_HOST") "localhost";
     cfg_port := parseInt E (JSString.or_else (getenv E "DB_PORT") "5432");
     cfg_database := JSString.or_else (getenv E "DB_NAME") "linxup_dev";
     cfg_user := JSString.or_else (getenv E "DB_USER") "postgres";
     cfg_password := JSString.or_else (getenv E "DB_PASSWORD") "";
     cfg_max :=
       Some (parseInt E (JSString.or_else (getenv E "DB_POOL_MAX") "20"));
     cfg_idleTimeoutMillis := None;
     cfg_connectionTimeoutMillis := None |}.

Definition createDatabase (E : ProcessEnv) (config : option DatabaseConfig)
    (instance : option Database) : option Database * (Error + Database) :=
  getInstance
    (Some match config with Some c => c | None => env_config E end)
    instance.

(** A process environment without settings; [parseInt] knows the two
    defaults. *)
Definition bare_env : ProcessEnv :=
  {| getenv := fun _ => None;
     parseInt := fun s => if String.eqb s "5432" then of_Z 5432
                          else if String.eqb s "20" then of_Z 20
                          else S754_nan |}.

Definition other_config : DatabaseConfig :=
  {| cfg_host := "db.example.org"; cfg_port := of_Z 6543;
     cfg_database := "linxup"; cfg_user := "linxup"; cfg_password := "s3cret";
     cfg_max := Some (of_Z 0); cfg_idleTimeoutMillis := None;
     cfg_connectionTimeoutMillis := Some (of_Z 500) |}.

(* ===================================================================== *)
(** * The analyzer ([ai/gemini-analyzer.ts]) *)
(* ===================================================================== *)

Module Gemini.

Local Open Scope string_scope.
Local Open Scope list_scope.

(** What [JSON.parse] returns and what the untyped fields of an analysis
    hold at run time.  An object lists each key once. *)
Inductive JSValue :=
| VUndefined
| VNull
| VBool (b : bool)
| VNumber (x : number)
| VString (s : string)
| VArray (items : list JSValue)
| VObject (fields : list (string * JSValue)).

(** Truthiness: [undefined], [null], [false], [0], [-0], [NaN] and ['']
    are falsy, every array and object is truthy. *)
Definition value_truthy (v : JSValue) : bool :=
  match v with
  | VUndefined => false
  | VNull => false
  | VBool b => b
  | VNumber x => number_truthy x
  | VString s => JSString.truthy s
  | VArray _ => true
  | VObject _ => true
  end.

(** [v || d] *)
Definition value_or (v d : JSValue) : JSValue :=
  if value_truthy v then v else d.

Fixpoint field (k : string) (fields : list (string * JSValue)) : JSValue :=
  match fields with
  | [] => VUndefined
  | (k', v) :: rest => if String.eqb k' k then v else field k rest
  end.

(** [parsed.k] for a key that no prototype defines: a [TypeError] on
    [null] and [undefined], [undefined] on a primitive, an array or an
    object without the key. *)
Definition property (parsed : JSValue) (k : string) : Error + JSValue :=
  match parsed with
  | VUndefined => inl TypeError
  | VNull => inl TypeError
  | VObject fields => inr (field k fields)
  | _ => inr VUndefined
  end.

(** [Number.isNaN(x)], [x < y] and [x > y] on numbers. *)
Definition Number_isNaN (x : number) : bool :=
  match x with S754_nan => true | _ => false end.

Definition lt (x y : number) : bool := SFltb x y.
Definition gt (x y : number) : bool := SFltb y x.

(** The built-ins the analyzer calls: [JSON.parse] (the value, or the
    [SyntaxError] it throws), [Number(v)] on a string, an array or an
    object, and [s.trim()]. *)
Record AnalyzerPlatform := {
  JSON_parse : string -> Error + JSValue;
  Number_of_other : JSValue -> number;
  String_trim : string -> string;
}.

(** [c.toLowerCase()] on the ASCII range. *)
Definition toLowerCase_char (c : ascii) : ascii :=
  let n := nat_of_ascii c in
  if (65 <=? n)%nat && (n <=? 90)%nat then ascii_of_nat (n + 32) else c.

Definition toLowerCase (s : string) : string :=
  JSString.map_chars toLowerCase_char s.

(** [s.startsWith(t)] *)
Definition startsWith (t s : string) : bool := String.prefix t s.

(** [s.replace(/<fence>\n?/g, '')] for a fence without line feed.  The
    scan either copies ([None]), is inside a fence with [k] more of its
    characters to drop ([Some (S k)]), or has just left one and drops a
    line feed if that comes next ([Some 0]). *)
Fixpoint remove_fence (fence : string) (st : option nat) (s : string) : string :=
  match s with
  | EmptyString => EmptyString
  | String c s' =>
      match st with
      | Some (S k) => remove_fence fence (Some k) s'
      | Some O =>
          if Ascii.eqb c (ascii_of_nat 10) then remove_fence fence None s'
          else if String.prefix fence s
               then remove_fence fence (Some (String.length fence - 1)%nat) s'
               else String c (remove_fence fence None s')
      | None =>
          if String.prefix fence s
          then remove_fence fence (Some (String.length fence - 1)%nat) s'
          else String c (remove_fence fence None s')
      end
  end.

Definition fence : string := "```".
Definition json_fence : string := "```json".

(** [s.replace(/\/[^/]*$/, '')]: the last slash and what follows it go.
    [before_last_slash s] is [Some p] when [s] is [p], a slash and a
    rest without slash. *)
Fixpoint before_last_slash (s : string) : option string :=
  match s with
  | EmptyString => None
  | String c s' =>
      match before_last_slash s' with
      | Some p => Some (String c p)
      | None => if Ascii.eqb c "/" then Some EmptyString else None
      end
  end.

Definition remove_last_segment (s : string) : string :=
  match before_last_slash s with
  | Some p => p
  | None => s
  end.

(** [s.replace(/\/$/, '')] *)
Definition remove_trailing_slash (s : string) : string :=
  match JSString.strip_suffix "/" s with
  | Some p => p
  | None => s
  end.

(** [BrokenLinkInput] with the optional [foundOnTitle]. *)
Record Input := {
  link : BrokenLinkInput;
  foundOnTitle : option string;
}.

(** A [LinkAnalysisResult] as it is at run time: the compiler checks
    nothing of what [JSON.parse] returned. *)
Record Analysis := {
  intendedDestination : JSValue;
  linkPurpose : JSValue;
  importance : JSValue;
  businessImpact : JSValue;
  suggestedFixes : JSValue;
  reasoning : JSValue;
  priorityScore : JSValue;
}.

Section Analyzer.

Context (A : AnalyzerPlatform).

(** [Number(v)] *)
Definition Number_of (v : JSValue) : number :=
  match v with
  | VUndefined => S754_nan
  | VNull => of_Z 0
  | VBool b => of_Z (if b then 1 else 0)
  | VNumber x => x
  | _ => Number_of_other A v
  end.

Definition optional_line (label : string) (x : option string) : string :=
  match JSString.or_null x with
  | Some s => label +:+ s
  | None => ""
  end.

Definition quoted_line (label : string) (x : option string) : string :=
  match JSString.or_null x with
  | Some s => label +:+ JSString.dquote +:+ s +:+ JSString.dquote
  | None => ""
  end.

Definition json_member (k v : string) : string :=
  "  " +:+ JSString.dquote +:+ k +:+ JSString.dquote +:+ ": " +:+ v.

Definition json_text (s : string) : string :=
  JSString.dquote +:+ s +:+ JSString.dquote.

Definition buildAnalysisPrompt (input : Input) : string :=
  JSString.join JSString.nl
    [ "You are an expert web analyst helping identify broken links on a nonprofit website.";
      "";
      "BROKEN LINK DETAILS:";
      "- Broken URL: " +:+ brokenUrl (link input);
      "- HTTP Status Code: "
        +:+ match or_null_Z (in_statusCode (link input)) with
            | Some n => pretty n
            | None => "unknown"
            end;
      "- Found on page: " +:+ foundOnUrl (link input);
      optional_line "- Page title: " (foundOnTitle input);
      quoted_line "- Link text: " (in_linkText (link input));
      optional_line "- HTML context: " (in_htmlContext (link input));
      optional_line "- Surrounding text: " (surroundingText (link input));
      "";
      "TASK:";
      "Analyze this broken link and provide insights in JSON format. Consider:";
      "";
      "1. **Intended Destination**: What was this link supposed to point to?";
      "2. **Link Purpose**: Why did the user put this link here?";
      "3. **Importance**: How critical is this link? (critical/high/medium/low)";
      "   - critical: Donation buttons, contact forms, main navigation";
      "   - high: Important resources, program information";
      "   - medium: Supporting content, related articles";
      "   - low: Archived content, optional references";
      "4. **Business Impact**: How does this broken link affect the nonprofit's mission?";
      "5. **Suggested Fixes**: Provide 1-3 specific URL suggestions that might work";
      "6. **Reasoning**: Explain your analysis";
      "7. **Priority Score**: Rate urgency 0-100 (100 = most urgent)";
      "";
      "Return ONLY valid JSON in this exact format:";
      "{";
      json_member "intendedDestination" (json_text "string") +:+ ",";
      json_member "linkPurpose" (json_text "string") +:+ ",";
      json_member "importance" (json_text "critical|high|medium|low") +:+ ",";
      json_member "businessImpact" (json_text "string") +:+ ",";
      json_member "suggestedFixes"
        ("[" +:+ json_text "url1" +:+ ", " +:+ json_text "url2" +:+ ", "
         +:+ json_text "url3" +:+ "]") +:+ ",";
      json_member "reasoning" (json_text "string") +:+ ",";
      json_member "priorityScore" "number";
      "}" ].

(** [validLevels.includes(importance)] compares with [SameValueZero]:
    only the four strings pass. *)
Definition validLevels : list string := ["critical"; "high"; "medium"; "low"].

Definition validateImportance (importance : JSValue) : JSValue :=
  match importance with
  | VString s =>
      if existsb (String.eqb s) validLevels then importance
      else VString "medium"
  | _ => VString "medium"
  end.

Definition validatePriorityScore (score : JSValue) : number :=
  let numScore := Number_of score in
  if Number_isNaN numScore then of_Z 50
  else if lt numScore (of_Z 0) then of_Z 0
  else if gt numScore (of_Z 100) then of_Z 100
  else Math_round numScore.

(** [Array.isArray(v) ? v : []] and [Array.isArray(v) ? v.slice(0, 3) : []] *)
Definition array_or_empty (v : JSValue) : JSValue :=
  match v with
  | VArray items => v
  | _ => VArray []
  end.

Definition first_three (v : JSValue) : JSValue :=
  match v with
  | VArray items => VArray (firstn 3 items)
  | _ => VArray []
  end.

(** The text handed to [JSON.parse]. *)
Definition strip_fences (text : string) : string :=
  let jsonText := String_trim A text in
  if startsWith json_fence jsonText
  then remove_fence fence None (remove_fence json_fence None jsonText)
  else if startsWith fence jsonText
       then remove_fence fence None jsonText
       else jsonText.

Definition invalid_response (text : string) : Error :=
  {| message := "Invalid JSON response from Gemini: " +:+ text |}.

(** The body of the [try] block of [parseGeminiResponse]: the first
    property read throws on [null]. *)
Definition parse_fields (text : string) : Error + Analysis :=
  match JSON_parse A (strip_fences text) with
  | inl e => inl e
  | inr parsed =>
      match property parsed "intendedDestination",
            property parsed "linkPurpose",
            property parsed "importance",
            property parsed "businessImpact",
            property parsed "suggestedFixes",
            property parsed "reasoning",
            property parsed "priorityScore" with
      | inr d, inr p, inr i, inr b, inr f, inr r, inr s =>
          inr {| intendedDestination := value_or d (VString "Unknown");
                 linkPurpose := value_or p (VString "Unknown");
                 importance := validateImportance i;
                 businessImpact := value_or b (VString "Unknown impact");
                 suggestedFixes := array_or_empty f;
                 reasoning := value_or r (VString "No reasoning provided");
                 priorityScore := VNumber (validatePriorityScore s) |}
      | _, _, _, _, _, _, _ => inl TypeError
      end
  end.

Definition parseGeminiResponse (text : string) : Error + Analysis :=
  match parse_fields text with
  | inr a => inr a
  | inl _ => inl (invalid_response text)
  end.

Definition validateAnalysis (analysis : Analysis) : Analysis :=
  {| intendedDestination :=
       value_or (intendedDestination analysis) (VString "Unknown destination");
     linkPurpose := value_or (linkPurpose analysis) (VString "Unknown purpose");
     importance := validateImportance (importance analysis);
     businessImpact :=
       value_or (businessImpact analysis) (VString "Impact unclear");
     suggestedFixes := first_three (suggestedFixes analysis);
     reasoning := value_or (reasoning analysis) (VString "No reasoning available");
     priorityScore := VNumber (validatePriorityScore (priorityScore analysis)) |}.

(** The [if]/[else if] chain of [getFallbackAnalysis]: the importance
    and the score. *)
Definition fallback_level (input : Input) : string * Z :=
  let linkTextLower :=
    toLowerCase (JSString.or_else (in_linkText (link input)) "") in
  let urlLower := toLowerCase (brokenUrl (link input)) in
  if JSString.includes "donate" linkTextLower
     || JSString.includes "donation" linkTextLower
     || JSString.includes "/donate" urlLower
  then ("critical", 95)
  else if JSString.includes "contact" linkTextLower
          || JSString.includes "apply" linkTextLower
          || JSString.includes "register" linkTextLower
  then ("critical", 90)
  else if JSString.includes "program" linkTextLower
          || JSString.includes "service" linkTextLower
          || JSString.includes "about" linkTextLower
  then ("high", 70)
  else if JSString.includes "archive" linkTextLower
          || JSString.includes "/archive/" urlLower
          || JSString.includes "/old/" urlLower
  then ("low", 25)
  else ("medium", 50).

Definition getFallbackAnalysis (input : Input) : Analysis :=
  let '(importance, priorityScore) := fallback_level input in
  {| intendedDestination :=
       VString ("Page or resource related to: "
                +:+ JSString.or_else (in_linkText (link input)) "unknown content");
     linkPurpose := VString "Unable to analyze - Gemini API unavailable";
     importance := VString importance;
     businessImpact :=
       VString (if String.eqb importance "critical"
                then "May prevent users from taking important actions"
                else "May reduce user experience quality");
     suggestedFixes :=
       VArray [ VString (remove_last_segment (foundOnUrl (link input)));
                VString (remove_trailing_slash (brokenUrl (link input))) ];
     reasoning :=
       VString "Fallback analysis due to API error. Based on link text and URL patterns.";
     priorityScore := VNumber (of_Z priorityScore) |}.

(** What the analyzer does to the outside: a request to the model with a
    prompt, a pause. *)
Inductive Call :=
| Generate (prompt : string)
| Pause (ms : Z).

(** The model's answer to a prompt, given the calls so far: the text of
    the response, or the error thrown by [generateContent], by
    [result.response] or by [response.text()]. *)
Definition Model : Type := list Call -> string -> Error + string.

Context (model : Model).

(** An [async] method of the analyzer: the calls so far go in, the calls
    and the outcome come out. *)
Definition analyzeContext (input : Input) (calls : list Call)
  : list Call * (Error + Analysis) :=
  let prompt := buildAnalysisPrompt input in
  let calls' := calls ++ [Generate prompt] in
  match model calls prompt with
  | inr text =>
      match parseGeminiResponse text with
      | inr analysis => (calls', inr (validateAnalysis analysis))
      | inl _ => (calls', inr (getFallbackAnalysis input))
      end
  | inl _ => (calls', inr (getFallbackAnalysis input))
  end.

(** The loop of [analyzeBatch]; [n] is [inputs.length], [results] the
    array filled so far. *)
Fixpoint analyzeBatch_loop (n : nat) (inputs : list Input)
    (results : list Analysis) (calls : list Call)
  : list Call * (Error + list Analysis) :=
  match inputs with
  | [] => (calls, inr results)
  | input :: rest =>
      match analyzeContext input calls with
      | (calls1, inr result) =>
          let results1 := results ++ [result] in
          let calls2 :=
            if (1 <? n)%nat then calls1 ++ [Pause 1000] else calls1 in
          analyzeBatch_loop n rest results1 calls2
      | (calls1, inl _) =>
          analyzeBatch_loop n rest (results ++ [getFallbackAnalysis input]) calls1
      end
  end.

Definition analyzeBatch (inputs : list Input) (calls : list Call)
  : list Call * (Error + list Analysis) :=
  analyzeBatch_loop (length inputs) inputs [] calls.

End Analyzer.

(** [new GeminiLinkAnalyzer(apiKey)] keeps the key and the name of the
    model; an empty key is refused. *)
Record Analyzer := {
  apiKey : string;
  model_name : string;
}.

Definition new_GeminiLinkAnalyzer (key : string) : Error + Analyzer :=
  if JSString.truthy key
  then inr {| apiKey := key; model_name := "gemini-2.0-flash" |}
  else inl {| message := "Gemini API key is required" |}.

(** [createGeminiAnalyzer()] *)
Definition createGeminiAnalyzer (E : ProcessEnv) : Error + Analyzer :=
  match JSString.or_null (getenv E "GEMINI_API_KEY") with
  | Some key => new_GeminiLinkAnalyzer key
  | None =>
      inl {| message := "GEMINI_API_KEY environment variable is required. Get your key from https://aistudio.google.com/app/apikey" |}
  end.



(** What a caller may rely on in an analysis: the importance is one of
    the four levels, the fixes are an array of at most three items, the
    score is a whole number from 0 to 100 (or -0), and no text field is
    falsy. *)
Definition is_level (v : JSValue) : Prop :=
  exists s, v = VString s /\ In s validLevels.

Definition at_most_three (v : JSValue) : Prop :=
  exists items, v = VArray items /\ (length items <= 3)%nat.

Definition score_in_range (x : number) : Prop :=
  x = S754_zero true \/ exists k, 0 <= k <= 100 /\ x = of_Z k.

Definition is_score (v : JSValue) : Prop :=
  exists x, v = VNumber x /\ score_in_range x.

Definition well_formed (a : Analysis) : Prop :=
  value_truthy (intendedDestination a) = true /\
  value_truthy (linkPurpose a) = true /\
  is_level (importance a) /\
  value_truthy (businessImpact a) = true /\
  at_most_three (suggestedFixes a) /\
  value_truthy (reasoning a) = true /\
  is_score (priorityScore a).

(** The platform's numbers are binary64 values: those [Number] returns
    and those found in what [JSON.parse] returns. *)
Definition binary64 (x : number) : Prop := valid_binary prec emax x = true.

Definition platform_numbers (A : AnalyzerPlatform) : Prop :=
  (forall v, binary64 (Number_of_other A v)) /\
  (forall s v k x,
     JSON_parse A s = inr v -> property v k = inr (VNumber x) -> binary64 x).

(** What [parseGeminiResponse] makes of JSON that is no object. *)
Definition default_analysis : Analysis :=
  {| intendedDestination := VString "Unknown";
     linkPurpose := VString "Unknown";
     importance := VString "medium";
     businessImpact := VString "Unknown impact";
     suggestedFixes := VArray [];
     reasoning := VString "No reasoning provided";
     priorityScore := VNumber (of_Z 50) |}.

(** The fields [parseGeminiResponse] reads. *)
Definition field_names : list string :=
  ["intendedDestination"; "linkPurpose"; "importance"; "businessImpact";
   "suggestedFixes"; "reasoning"; "priorityScore"].

Definition is_nullish (v : JSValue) : bool :=
  match v with VUndefined | VNull => true | _ => false end.

(** [analysis] with its fixes cut to the first three. *)
Definition truncated (analysis : Analysis) : Analysis :=
  {| intendedDestination := intendedDestination analysis;
     linkPurpose := linkPurpose analysis;
     importance := importance analysis;
     businessImpact := businessImpact analysis;
     suggestedFixes := first_three (suggestedFixes analysis);
     reasoning := reasoning analysis;
     priorityScore := priorityScore analysis |}.

(** A string without backtick. *)
Fixpoint no_backtick (s : string) : bool :=
  match s with
  | EmptyString => true
  | String c s' => negb (Ascii.eqb c "`") && no_backtick s'
  end.

(** A string without slash. *)
Fixpoint no_slash (s : string) : bool :=
  match s with
  | EmptyString => true
  | String c s' => negb (Ascii.eqb c "/") && no_slash s'
  end.

End Gemini.

(** A run of the analyzer: the model answers the first request with a
    fenced object that has four fixes and a score of 87.5, and refuses
    every later request. *)
Module GeminiScenario.

Local Open Scope string_scope.
Local Open Scope list_scope.

Definition quoted (s : string) : string :=
  JSString.dquote +:+ s +:+ JSString.dquote.

Definition body : string :=
  "{" +:+ quoted "importance" +:+ ":" +:+ quoted "high" +:+ ","
  +:+ quoted "priorityScore" +:+ ":87.5,"
  +:+ quoted "suggestedFixes" +:+ ":["
  +:+ quoted "/a" +:+ "," +:+ quoted "/b" +:+ "," +:+ quoted "/c" +:+ ","
  +:+ quoted "/d" +:+ "]}".

Definition answer : string :=
  Gemini.json_fence +:+ JSString.nl +:+ body +:+ JSString.nl +:+ Gemini.fence.

Definition parsed : Gemini.JSValue :=
  Gemini.VObject
    [ ("importance", Gemini.VString "high");
      ("priorityScore", Gemini.VNumber (div (of_Z 175) (of_Z 2)));
      ("suggestedFixes",
       Gemini.VArray [ Gemini.VString "/a"; Gemini.VString "/b";
                       Gemini.VString "/c"; Gemini.VString "/d" ]) ].

(** The built-ins as far as the run goes: [JSON.parse] knows [body]
    followed by a line feed, [Number] of another string is [NaN], and
    the answers have no white space around them. *)
Definition platform : Gemini.AnalyzerPlatform :=
  {| Gemini.JSON_parse := fun s =>
       if String.eqb s (body +:+ JSString.nl) then inr parsed
       else inl {| message := "Unexpected token" |};
     Gemini.Number_of_other := fun v =>
       match v with
       | Gemini.VString "" => of_Z 0
       | Gemini.VArray [] => of_Z 0
       | _ => S754_nan
       end;
     Gemini.String_trim := fun s => s |}.

Definition model : Gemini.Model := fun calls _ =>
  match calls with
  | [] => inr answer
  | _ :: _ => inl {| message := "429 Too Many Requests" |}
  end.

Definition donate : Gemini.Input :=
  {| Gemini.link :=
       {| brokenUrl := "https://example.org/Donate/";
          in_statusCode := Some 404;
          foundOnUrl := "https://example.org/about/team";
          in_linkText := Some "DONATE NOW";
          in_htmlContext := None;
          surroundingText := None |};
     Gemini.foundOnTitle := None |}.

Definition news : Gemini.Input :=
  {| Gemini.link :=
       {| brokenUrl := "https://example.org/news";
          in_statusCode := None;
          foundOnUrl := "https://example.org";
          in_linkText := None;
          in_htmlContext := None;
          surroundingText := None |};
     Gemini.foundOnTitle := Some "Home" |}.

(** Another run: the model answers every request with an empty array
    literal. *)
Definition list_platform : Gemini.AnalyzerPlatform :=
  {| Gemini.JSON_parse := fun s =>
       if String.eqb s "[]" then inr (Gemini.VArray [])
       else if String.eqb s "null" then inr Gemini.VNull
       else inl {| message := "Unexpected token" |};
     Gemini.Number_of_other := Gemini.Number_of_other platform;
     Gemini.String_trim := fun s => s |}.

Definition list_model : Gemini.Model := fun _ _ => inr "[]".

End GeminiScenario.

(** What a label is free of: the separators of words and of the path. *)
Definition not_separator (c : ascii) : Prop :=
  c <> "-"%char /\ c <> "_"%char /\ c <> "/"%char.

(* ===================================================================== *)
(** * Properties *)
(* ===================================================================== *)

Local Open Scope string_scope.
Local Open Scope list_scope.
Local Open Scope Z_scope.

(** ** Health score *)

(** The code computes the score the specification words. *)
Lemma calculateHealthScore_spec (totalLinks brokenLinks : number) :
  calculateHealthScore totalLinks brokenLinks
  = spec_healthScore totalLinks brokenLinks.
Proof.
  unfold calculateHealthScore, spec_healthScore, clamp.
  destruct (strict_eq totalLinks (of_Z 0)); reflexivity.
Qed.


(** Up to 39 links the binary64 score is the exactly rounded one. *)
Lemma healthScore_exact_below_40 : agree_upto 40 = true.
Proof. vm_compute. reflexivity. Qed.

(** With 40 links of which 17 are broken the exact ratio gives 57.5,
    which rounds to 58; in binary64 the product is just below 57.5 and
    the score is 57. *)
Lemma healthScore_40_17 :
  calculateHealthScore (of_Z 40) (of_Z 17) = of_Z 57 /\
  exact_healthScore 40 17 = 58.
Proof. split; vm_compute; reflexivity. Qed.

(** [Math.round] sends a half up, also below zero, and keeps the sign
    of a zero. *)
Example Math_round_samples :
  Math_round (div (of_Z 5) (of_Z 2)) = of_Z 3 /\
  Math_round (div (of_Z (-5)) (of_Z 2)) = of_Z (-2) /\
  Math_round (div (of_Z 7) (of_Z 4)) = of_Z 2 /\
  Math_round (div (of_Z 1) (of_Z 4)) = S754_zero false /\
  Math_round (div (of_Z (-1)) (of_Z 4)) = S754_zero true.
Proof. vm_compute. repeat split. Qed.

Lemma of_Z_0 : of_Z 0 = S754_zero false.
Proof. vm_compute. reflexivity. Qed.

Lemma of_Z_100 : of_Z 100 = S754_finite false 7036874417766400 (-46).
Proof. vm_compute. reflexivity. Qed.

(** [Math.max(0, Math.min(100, x))] of a number that is not NaN lies
    between 0 and 100. *)
Lemma clamp_range (x : number) :
  x <> S754_nan ->
  SFleb (of_Z 0) (clamp (of_Z 0) (of_Z 100) x) = true /\
  SFleb (clamp (of_Z 0) (of_Z 100) x) (of_Z 100) = true.
Proof.
  intros Hx. unfold clamp, Math_max, Math_min.
  rewrite of_Z_0, of_Z_100.
  destruct x as [[]|[]| |[] m e]; try congruence; try (cbn; tauto).
  assert (Hm' : Pos.compare_cont Eq m 7036874417766400
                = CompOpp (Pos.compare_cont Eq 7036874417766400 m))
    by (symmetry; apply (Pos.compare_cont_antisym 7036874417766400 m Eq)).
  assert (He' : (e ?= -46) = CompOpp (-46 ?= e)) by apply Z.compare_antisym.
  cbv [SFleb SFcompare is_neg_zero].
  destruct (-46 ?= e) eqn:He;
    destruct (Pos.compare_cont Eq 7036874417766400 m) eqn:Hm;
    cbv iota; rewrite ?He', ?Hm'; cbn; tauto.
Qed.

(** ** Context extractor *)

Lemma dash_to_space_stable (c d : ascii) :
  dash_to_space c = c ->
  c <> " "%char ->
  Ascii.eqb (dash_to_space d) c = Ascii.eqb d c.
Proof.
  unfold dash_to_space. intros Hc Hsp.
  destruct (Ascii.eqb d "-" || Ascii.eqb d "_") eqn:Hd; cbv iota.
  - destruct (Ascii.eqb_spec " " c) as [E|_]; [congruence|].
    destruct (Ascii.eqb_spec d c) as [E|_]; [|reflexivity].
    subst d. rewrite Hd in Hc. congruence.
  - reflexivity.
Qed.

(** A suffix made of characters that the separator replacement neither
    changes nor produces is recognised before and after it alike. *)
Lemma eqb_replace_separators (suf : string) :
  Forall (fun c => dash_to_space c = c /\ c <> " "%char)
         (list_ascii_of_string suf) ->
  forall s, String.eqb (replace_separators s) suf = String.eqb s suf.
Proof.
  induction suf as [|c suf IH]; intros Hs s; destruct s as [|d s];
    simpl; try reflexivity.
  inversion Hs as [|? ? [Hc Hsp] Hrest]; subst.
  rewrite (dash_to_space_stable c d Hc Hsp).
  destruct (Ascii.eqb d c); [apply IH; assumption | reflexivity].
Qed.

Lemma strip_suffix_replace_separators (suf : string) :
  Forall (fun c => dash_to_space c = c /\ c <> " "%char)
         (list_ascii_of_string suf) ->
  forall s,
    JSString.strip_suffix suf (replace_separators s)
    = option_map replace_separators (JSString.strip_suffix suf s).
Proof.
  intros Hs. induction s as [|d s IH].
  - simpl. destruct suf; reflexivity.
  - pose proof (eqb_replace_separators suf Hs (String d s)) as H.
    change (replace_separators (String d s))
      with (String (dash_to_space d) (replace_separators s)) in *.
    cbn [JSString.strip_suffix]. rewrite H.
    destruct (String.eqb (String d s) suf); [reflexivity|].
    rewrite IH. destruct (JSString.strip_suffix suf s); reflexivity.
Qed.

Ltac stable_suffix :=
  repeat constructor; first [reflexivity | discriminate].

(** Stripping the extension and replacing the separators commute. *)
Lemma replace_extension_separators (s : string) :
  replace_extension (replace_separators s)
  = replace_separators (replace_extension s).
Proof.
  unfold replace_extension.
  rewrite (strip_suffix_replace_separators ".html") by stable_suffix.
  rewrite (strip_suffix_replace_separators ".htm") by stable_suffix.
  rewrite (strip_suffix_replace_separators ".php") by stable_suffix.
  destruct (JSString.strip_suffix ".html" s); [reflexivity|].
  destruct (JSString.strip_suffix ".htm" s); [reflexivity|].
  destruct (JSString.strip_suffix ".php" s); reflexivity.
Qed.

(** The last of the kept segments is never the empty string, so the
    [|| 'Home'] default applies only when there is no segment. *)
Lemma last_filter_true {A} (f : A -> bool) (l : list A) (x : A) :
  last (List.filter f l) = Some x -> f x = true.
Proof.
  intros H. apply last_Some in H as [l' Hl].
  assert (Hin : In x (List.filter f l)).
  { rewrite Hl. apply in_or_app. right. left. reflexivity. }
  apply filter_In in Hin. tauto.
Qed.



Example extractLinkText_samples :
  List.map (extractLinkText Sample.platform)
    ["https://example.org/docs/getting-started.html";
     "https://example.org/"; "not a url";
     "https://example.org/a_b-c.php?x=1"; "http://x.org/FAQ-page.htm"]
  = ["Getting Started"; "Home"; "Link"; "A B C"; "FAQ Page"].
Proof. vm_compute. reflexivity. Qed.

(** ** Archive lookup *)

Lemma or_null_Some (x : option string) (u : string) :
  JSString.or_null x = Some u <-> x = Some u /\ u <> "".
Proof.
  unfold JSString.or_null, JSString.truthy. destruct x as [v|].
  - destruct (String.eqb_spec v "") as [->|Hv]; cbn.
    + split; [discriminate | intros [[= <-] H]; congruence].
    + split; [intros [= ->]; auto | intros [[= ->] _]; reflexivity].
  - split; [discriminate | intros [[=] _]].
Qed.

(** The lookup sends one request and touches nothing else. *)
Lemma checkWaybackMachine_effect (env : Env) (s : State) (target : string) :
  fst (checkWaybackMachine env target s)
  = {| tables := tables s; trace := trace s ++ [EvFetch target];
       findings := findings s |}.
Proof.
  unfold checkWaybackMachine, try_catch, bind, fetch_available, get_trace,
    emit, response_json, throw, ret.
  cbn. destruct (fetch env (trace s) target) as [e|[] body]; cbn;
    try reflexivity.
  destruct body as [e| |[[[c|]|]]]; cbn; try reflexivity.
  destruct (closest_available c) as [[]|]; reflexivity.
Qed.

(** C6 as worded fails: the empty address is a url field that is
    present, and the answer is "no result". *)
Lemma C6_counterexample : ~ archive_claim.
Proof.
  intros H.
  pose (env := Sample.scripted (fun _ => None) (inr Sample.two_links)
                 (fun i => inr (Sample.analysis_with 2 50 i))
                 (fun _ => Sample.snapshot "")).
  destruct (H env (initial empty_tables) "https://example.org/a.html" "")
    as [_ Hback].
  assert (Hs : snapshot_available
                 (fetch env (trace (initial empty_tables))
                    "https://example.org/a.html") "").
  { eexists _, _. repeat split; reflexivity. }
  specialize (Hback Hs). vm_compute in Hback. discriminate.
Qed.

(** The lookup never throws. *)
Lemma checkWaybackMachine_total (env : Env) (s : State) (target : string) :
  exists r, archive_returns env s target = inr r.
Proof.
  unfold archive_returns, checkWaybackMachine, try_catch, bind,
    fetch_available, get_trace, emit, response_json, throw, ret.
  cbn. destruct (fetch env (trace s) target) as [e|[] body]; cbn; eauto.
  destruct body as [e| |[[[c|]|]]]; cbn; eauto.
  destruct (closest_available c) as [[]|]; eauto.
Qed.

(** C6, amended. The lookup never throws; it returns an address exactly
    when the response is successful, the closest snapshot is marked
    available and its url field is present and not empty, and that
    address is the snapshot's; in every other case (a transport error, a
    response that is not ok, a body that does not parse, a missing field,
    an empty address) it returns no result. *)
Theorem C6_archive_lookup (env : Env) (s : State) (target : string) :
  (exists r, archive_returns env s target = inr r) /\
  (forall u,
     archive_returns env s target = inr (Some u)
     <-> snapshot_available (fetch env (trace s) target) u /\ u <> "").
Proof.
  unfold archive_returns, snapshot_available.
  unfold checkWaybackMachine, try_catch, bind, fetch_available, get_trace,
    emit, response_json, throw, ret.
  cbn. destruct (fetch env (trace s) target) as [e|ok body] eqn:Hf; cbn.
  - split; [eauto|].
    intros u. split; [discriminate|].
    intros [(d & c & [=] & _) _].
  - destruct ok; cbn.
    2:{ split; [eauto|].
        intros u. split; [discriminate|].
        intros [(d & c & [=] & _) _]. }
    destruct body as [e| |d]; cbn.
    + split; [eauto|].
      intros u. split; [discriminate|]. intros [(d & c & [=] & _) _].
    + split; [eauto|].
      intros u. split; [discriminate|]. intros [(d & c & [=] & _) _].
    + destruct d as [snap]. cbn.
      destruct snap as [[c|]|]; cbn.
      2,3: (split; [eauto|]; intros u;
            split; [discriminate|];
            intros [(d & c & [= <-] & Hsn & _) _]; cbn in Hsn; congruence).
      destruct (closest_available c) as [[]|] eqn:Hav; cbn.
      2,3: (split; [eauto|]; intros u;
            split; [discriminate|];
            intros [(d & c' & [= <-] & Hsn & Hav' & _) _]; cbn in Hsn;
            congruence).
      split; [eauto|].
      intros u. split.
      * intros [= Hu]. apply or_null_Some in Hu as [Hu Hne].
        split; [|assumption]. eexists _, c. repeat split; eauto.
      * intros [(d & c' & [= <-] & Hsn & _ & Hu) Hne]. cbn in Hsn.
        injection Hsn as ->. f_equal. apply or_null_Some. auto.
Qed.

(** ** The per-link loop *)

Lemma checkWaybackMachine_run (env : Env) (s : State) (target : string) :
  checkWaybackMachine env target s
  = ({| tables := tables s; trace := trace s ++ [EvFetch target];
        findings := findings s |}, inr (archive_result env s target)).
Proof.
  rewrite (surjective_pairing (checkWaybackMachine env target s)).
  rewrite checkWaybackMachine_effect. f_equal.
  unfold archive_result.
  destruct (checkWaybackMachine_total env s target) as [r Hr].
  unfold archive_returns in *. rewrite Hr. reflexivity.
Qed.

Lemma loop_frame_refl (s : State) : loop_frame s s.
Proof.
  repeat split. exists []. split; [symmetry; apply app_nil_r | constructor].
Qed.

Lemma loop_frame_trans (s1 s2 s3 : State) :
  loop_frame s1 s2 -> loop_frame s2 s3 -> loop_frame s1 s3.
Proof.
  intros (A1 & B1 & e1 & T1 & F1) (A2 & B2 & e2 & T2 & F2).
  repeat split; try congruence.
  exists (e1 ++ e2). split.
  - rewrite T2, T1, app_assoc. reflexivity.
  - apply Forall_app; split; assumption.
Qed.

Section LoopFacts.

Context (P : Platform) (env : Env) (self : LinXupChecker).
Context (scan_id : Z) (options : CheckOptions) (n : nat).

Ltac frame_events :=
  repeat split; cbn;
  try reflexivity;
  eexists; split;
  [ repeat rewrite <- app_assoc; cbn; reflexivity
  | repeat constructor ].

Ltac bound_events :=
  eexists; split;
  [ repeat rewrite <- app_assoc; cbn; reflexivity
  | repeat (apply List.Forall_cons;
            [ first [ exact I
                    | unfold fixes_within; cbn; rewrite ?length_map; lia ]
            | ]);
    apply List.Forall_nil ].

Ltac no_finding :=
  exists []; split; [symmetry; apply app_nil_r | constructor].

Ltac one_finding :=
  eexists [_]; split;
  [ reflexivity | apply List.Forall_cons; [cbn; lia | apply List.Forall_nil] ].

(** One pass through the [try] block: it either completes, having
    pushed one finding made from the link, or throws before pushing
    anything. *)
Lemma processLink_step (i : nat) (link : LinkResult) (s : State) :
  let s' := fst (processLink P env self scan_id options n i link s) in
  loop_frame s s' /\
  match snd (processLink P env self scan_id options n i link s) with
  | inl _ => findings s' = findings s
  | inr _ => exists f, findings s' = findings s ++ [f] /\
                       finding_of P options link f
  end.
Proof.
  unfold processLink, extractContext, analyze, createBrokenLink,
    updateBrokenLinkWithAI, db_query, push_finding, delay, emit, get_trace,
    bind, ret, throw.
  remember (S i <? n)%nat as more eqn:Hmore. cbn.
  destruct (analyzeContext env (trace s) _) as [e|a]; cbn.
  { split; [frame_events | reflexivity]. }
  destruct (includeWayback self); cbn.
  - rewrite checkWaybackMachine_run. cbn.
    destruct (JSString.or_null (archive_result env _ (link_url link)))
      as [w|]; cbn.
    + destruct (pool_rejects env _ _) as [e|]; cbn.
      { split; [frame_events | reflexivity]. }
      destruct (pool_rejects env _ _) as [e|]; cbn.
      { split; [frame_events | reflexivity]. }
      destruct more; cbn.
      * split; [frame_events|]. eexists; split; [reflexivity|].
        repeat split.
      * split; [frame_events|]. eexists; split; [reflexivity|].
        repeat split.
    + destruct (pool_rejects env _ _) as [e|]; cbn.
      { split; [frame_events | reflexivity]. }
      destruct (pool_rejects env _ _) as [e|]; cbn.
      { split; [frame_events | reflexivity]. }
      destruct more; cbn.
      * split; [frame_events|]. eexists; split; [reflexivity|].
        repeat split.
      * split; [frame_events|]. eexists; split; [reflexivity|].
        repeat split.
  - destruct (pool_rejects env _ _) as [e|]; cbn.
    { split; [frame_events | reflexivity]. }
    destruct (pool_rejects env _ _) as [e|]; cbn.
    { split; [frame_events | reflexivity]. }
    destruct more; cbn.
    * split; [frame_events|]. eexists; split; [reflexivity|].
      repeat split.
    * split; [frame_events|]. eexists; split; [reflexivity|].
      repeat split.
Qed.

(** A link is skipped or kept, and the loop goes on from the state
    the [try] block left. *)
Lemma analyzeLoop_cons (i : nat) (link : LinkResult)
    (rest : list LinkResult) (s : State) :
  analyzeLoop P env self scan_id options n i (link :: rest) s
  = analyzeLoop P env self scan_id options n (S i) rest
      (fst (processLink P env self scan_id options n i link s)).
Proof.
  cbn [analyzeLoop]. unfold bind, try_catch, ret.
  destruct (processLink P env self scan_id options n i link s)
    as [s1 [e|[]]]; reflexivity.
Qed.

(** The loop never throws; it keeps one finding per link whose [try]
    block completed, in the order of the links. *)
Lemma analyzeLoop_run (rest : list LinkResult) :
  forall (i : nat) (s : State),
    snd (analyzeLoop P env self scan_id options n i rest s) = inr tt /\
    loop_frame s (fst (analyzeLoop P env self scan_id options n i rest s)) /\
    exists fs,
      findings (fst (analyzeLoop P env self scan_id options n i rest s))
      = findings s ++ fs /\
      Forall2 (finding_of P options)
        (survivors P env self scan_id options n i rest s) fs.
Proof.
  induction rest as [|link rest IH]; intros i s.
  - cbn. split; [reflexivity|]. split; [apply loop_frame_refl|].
    exists []. split; [symmetry; apply app_nil_r | constructor].
  - rewrite analyzeLoop_cons. cbn [survivors].
    pose proof (processLink_step i link s) as [Hframe Hfind].
    destruct (processLink P env self scan_id options n i link s)
      as [s1 r]; cbn [fst snd] in *.
    destruct (IH (S i) s1) as (Hret & Hframe' & fs & Hfs & Hall).
    split; [exact Hret|].
    split; [eapply loop_frame_trans; eassumption|].
    destruct r as [e|u].
    + exists fs. split; [congruence | assumption].
    + destruct Hfind as (f & Hf & Hof).
      exists (f :: fs). split.
      * rewrite Hfs, Hf, <- app_assoc. reflexivity.
      * constructor; assumption.
Qed.

(** Under the analyzer's contract a finding carries at most
    [fix_bound] fixes, and so does every list written to the gateway. *)
Lemma processLink_bound (i : nat) (link : LinkResult) (s : State) :
  analyzer_contract env ->
  let s' := fst (processLink P env self scan_id options n i link s) in
  (exists evs, trace s' = trace s ++ evs /\
               Forall (fixes_within (fix_bound self)) evs) /\
  (exists fs, findings s' = findings s ++ fs /\
              Forall (fun f => (length (suggestedFixes (aiAnalysis f))
                                <= fix_bound self)%nat) fs).
Proof.
  intros Hc.
  unfold processLink, extractContext, analyze, createBrokenLink,
    updateBrokenLinkWithAI, db_query, push_finding, delay, emit, get_trace,
    bind, ret, throw, fix_bound.
  remember (S i <? n)%nat as more eqn:Hmore. cbn.
  destruct (analyzeContext env (trace s) _) as [e|a] eqn:Ha; cbn.
  { split; [bound_events | no_finding]. }
  apply Hc in Ha.
  destruct (includeWayback self); cbn.
  - rewrite checkWaybackMachine_run. cbn.
    destruct (JSString.or_null (archive_result env _ (link_url link)))
      as [w|]; cbn.
    + destruct (pool_rejects env _ _) as [e|]; cbn.
      { split; [bound_events | no_finding]. }
      destruct (pool_rejects env _ _) as [e|]; cbn.
      { split; [bound_events | no_finding]. }
      destruct more; cbn; (split; [bound_events | one_finding]).
    + destruct (pool_rejects env _ _) as [e|]; cbn.
      { split; [bound_events | no_finding]. }
      destruct (pool_rejects env _ _) as [e|]; cbn.
      { split; [bound_events | no_finding]. }
      destruct more; cbn; (split; [bound_events | one_finding]).
  - destruct (pool_rejects env _ _) as [e|]; cbn.
    { split; [bound_events | no_finding]. }
    destruct (pool_rejects env _ _) as [e|]; cbn.
    { split; [bound_events | no_finding]. }
    destruct more; cbn; (split; [bound_events | one_finding]).
Qed.

Lemma analyzeLoop_bound (rest : list LinkResult) :
  analyzer_contract env ->
  forall (i : nat) (s : State),
    (exists evs,
       trace (fst (analyzeLoop P env self scan_id options n i rest s))
       = trace s ++ evs /\
       Forall (fixes_within (fix_bound self)) evs) /\
    (exists fs,
       findings (fst (analyzeLoop P env self scan_id options n i rest s))
       = findings s ++ fs /\
       Forall (fun f => (length (suggestedFixes (aiAnalysis f))
                         <= fix_bound self)%nat) fs).
Proof.
  intros Hc. induction rest as [|link rest IH]; intros i s.
  - cbn. split; exists []; (split; [symmetry; apply app_nil_r | constructor]).
  - rewrite analyzeLoop_cons.
    pose proof (processLink_bound i link s Hc)
      as [(ev1 & Ht1 & He1) (f1 & Hf1 & Hb1)].
    destruct (processLink P env self scan_id options n i link s)
      as [s1 r]; cbn [fst snd] in *.
    destruct (IH (S i) s1) as [(ev2 & Ht2 & He2) (f2 & Hf2 & Hb2)].
    split.
    + exists (ev1 ++ ev2). split.
      * rewrite Ht2, Ht1, app_assoc. reflexivity.
      * apply Forall_app; split; assumption.
    + exists (f1 ++ f2). split.
      * rewrite Hf2, Hf1, app_assoc. reflexivity.
      * apply Forall_app; split; assumption.
Qed.

End LoopFacts.

(** ** The scan, stage by stage *)

Section ScanFacts.

Context (P : Platform) (env : Env) (self : LinXupChecker).
Context (t : Tables) (options : CheckOptions).

Lemma analyzeLoop_returns (scan_id : Z) (n i : nat)
    (rest : list LinkResult) (s : State) :
  analyzeLoop P env self scan_id options n i rest s
  = (fst (analyzeLoop P env self scan_id options n i rest s), inr tt).
Proof.
  rewrite (surjective_pairing (analyzeLoop _ _ _ _ _ _ _ _ _)) at 1.
  f_equal. apply analyzeLoop_run.
Qed.

(** [checkWithIntelligence] does what [scan_stages] says. *)
Lemma run_scan_stages :
  run_scan P env self t options = scan_stages P env self t options.
Proof.
  unfold run_scan, scan_stages, checkWithIntelligence, createScanResult,
    completeScanResult, check, db_query, fatal.
  unfold bind at 1 2 3. unfold get_trace at 1. cbn [initial trace tables findings].
  change (QInsertScan (websiteId self)
            (if truthy_Z (userId self) then manual else scheduled)
            (or_null_Z (userId self))) with (insert_scan_of self).
  destruct (pool_rejects env [] (insert_scan_of self)) as [e0|] eqn:Hins.
  { reflexivity. }
  cbn [run_query insert_scan_of].
  unfold ret at 1. cbn [first_scan].
  unfold try_catch, bind, get_trace, emit, set_findings, get_findings, throw, ret.
  cbn [trace tables findings sr_id].
  unfold after_create, loop_start, after_loop, result_of, after_create,
    complete_of, broken_of, new_scan_id, applied, rejected.
  cbn [trace tables findings app run_query insert_scan_of fst].
  destruct (linkinator_check env _ options) as [e|crawl] eqn:Hcrawl.
  - destruct (pool_rejects env _ (QFailScan _ _)) as [e2|]; reflexivity.
  - cbn [trace tables findings].
    assert (Hguard :
      forall s,
        (if (0 <? length (List.filter is_broken (links crawl)))%nat
         then analyzeLoop P env self (scan_results_id_seq t) options
                (length (List.filter is_broken (links crawl))) 0
                (List.filter is_broken (links crawl))
         else fun s : State => (s, inr tt)) s
        = analyzeLoop P env self (scan_results_id_seq t) options
            (length (List.filter is_broken (links crawl))) 0
            (List.filter is_broken (links crawl)) s).
    { intros s. destruct (List.filter is_broken (links crawl)); reflexivity. }
    rewrite Hguard, analyzeLoop_returns.
    destruct (pool_rejects env _ (QCompleteScan _ _ _ _)) as [e|].
    + destruct (pool_rejects env _ (QFailScan _ _)) as [e2|]; reflexivity.
    + reflexivity.
Qed.

End ScanFacts.

(** ** Per-link failure isolation *)

Section Isolation.

Context (P : Platform) (env : Env) (self : LinXupChecker).

(** The links kept are among the links visited, in their order. *)
Lemma survivors_sublist (scan_id : Z) (options : CheckOptions) (n : nat)
    (rest : list LinkResult) :
  forall i s,
    sublist (survivors P env self scan_id options n i rest s) rest.
Proof.
  induction rest as [|link rest IH]; intros i s; cbn [survivors].
  - constructor.
  - destruct (processLink P env self scan_id options n i link s)
      as [s1 [e|u]].
    + apply sublist_cons. apply IH.
    + apply sublist_skip. apply IH.
Qed.

(** In the scenario of one link that cannot be persisted, a [try]
    block throws exactly for that link. *)
Lemma processLink_refused (bad : string) (scan_id : Z)
    (options : CheckOptions) (n i : nat) (link : LinkResult) (s : State) :
  only_link_refused env bad ->
  match snd (processLink P env self scan_id options n i link s) with
  | inl _ => link_url link = bad
  | inr _ => link_url link <> bad
  end.
Proof.
  intros (Hana & Hins & Hupd).
  unfold processLink, extractContext, analyze, createBrokenLink,
    updateBrokenLinkWithAI, db_query, push_finding, delay, emit, get_trace,
    bind, ret, throw.
  remember (S i <? n)%nat as more eqn:Hmore. cbn.
  destruct (Hana (trace s)
              {| brokenUrl := link_url link;
                 in_statusCode := or_null_Z (link_status link);
                 foundOnUrl :=
                   JSString.or_else (link_parent link) (path options);
                 in_linkText := Some (extractLinkText P (link_url link));
                 in_htmlContext :=
                   Some ("<a href=" +:+ JSString.dquote +:+ link_url link
                         +:+ JSString.dquote +:+ ">Link</a>");
                 surroundingText := None |}) as [a Ha].
  rewrite Ha. cbn.
  destruct (includeWayback self); cbn.
  - rewrite checkWaybackMachine_run. cbn.
    destruct (JSString.or_null (archive_result env _ (link_url link)))
      as [w|]; cbn.
    + destruct (pool_rejects env _ (QInsertBrokenLink _ _ _ _ _ _))
        as [e|] eqn:Hq; cbn.
      { eapply (proj1 (Hins _ _ _ _ _ _ _)). rewrite Hq. discriminate. }
      rewrite Hupd. cbn.
      assert (Hne : link_url link <> bad).
      { intros Heq. eapply (proj2 (Hins _ _ _ _ _ _ _)) in Heq.
        apply Heq. exact Hq. }
      destruct more; exact Hne.
    + destruct (pool_rejects env _ (QInsertBrokenLink _ _ _ _ _ _))
        as [e|] eqn:Hq; cbn.
      { eapply (proj1 (Hins _ _ _ _ _ _ _)). rewrite Hq. discriminate. }
      rewrite Hupd. cbn.
      assert (Hne : link_url link <> bad).
      { intros Heq. eapply (proj2 (Hins _ _ _ _ _ _ _)) in Heq.
        apply Heq. exact Hq. }
      destruct more; exact Hne.
  - destruct (pool_rejects env _ (QInsertBrokenLink _ _ _ _ _ _))
      as [e|] eqn:Hq; cbn.
    { eapply (proj1 (Hins _ _ _ _ _ _ _)). rewrite Hq. discriminate. }
    rewrite Hupd. cbn.
    assert (Hne : link_url link <> bad).
    { intros Heq. eapply (proj2 (Hins _ _ _ _ _ _ _)) in Heq.
        apply Heq. exact Hq. }
    destruct more; exact Hne.
Qed.

Lemma survivors_refused (bad : string) (scan_id : Z)
    (options : CheckOptions) (n : nat) (rest : list LinkResult) :
  only_link_refused env bad ->
  forall i s,
    survivors P env self scan_id options n i rest s
    = List.filter (other_than bad) rest.
Proof.
  intros Hbad. induction rest as [|link rest IH]; intros i s;
    cbn [survivors List.filter]; [reflexivity|].
  pose proof (processLink_refused bad scan_id options n i link s Hbad) as H.
  unfold other_than at 1.
  destruct (processLink P env self scan_id options n i link s)
    as [s1 [e|u]]; cbn [snd] in H.
  - rewrite H, String.eqb_refl. cbn. apply IH.
  - apply String.eqb_neq in H. rewrite H. cbn. f_equal. apply IH.
Qed.

(** The scan record made by [createScanResult] is still [running] when
    the loop ends. *)
Lemma scan_record_after_loop (t : Tables) (options : CheckOptions)
    (crawl : CrawlResult) :
  scan_status (tables (after_loop P env self t options crawl))
    (new_scan_id t) = Some running.
Proof.
  unfold after_loop, scan_status.
  destruct (analyzeLoop_run P env self (new_scan_id t) options
              (length (broken_of crawl)) (broken_of crawl) 0
              (loop_start self t options)) as (_ & (Hsr & _) & _).
  rewrite Hsr. cbn. rewrite lookup_insert_eq. reflexivity.
Qed.

Lemma applied_complete_status (t : Tables) (crawl : CrawlResult) (s : State) :
  scan_status (tables s) (new_scan_id t) = Some running ->
  scan_status (tables (applied (complete_of t crawl) s)) (new_scan_id t)
  = Some completed.
Proof.
  unfold scan_status, applied, complete_of. cbn. intros H.
  rewrite lookup_alter_eq.
  destruct (scan_results (tables s) !! new_scan_id t); [reflexivity|].
  discriminate.
Qed.

Lemma applied_fail_status (sid : Z) (msg : string) (s : State) :
  scan_status (tables s) sid = Some running ->
  scan_status (tables (applied (QFailScan sid msg) s)) sid = Some failed /\
  scan_error (tables (applied (QFailScan sid msg) s)) sid = Some (Some msg).
Proof.
  unfold scan_status, scan_error, applied. cbn. intros H.
  rewrite lookup_alter_eq.
  destruct (scan_results (tables s) !! sid); [split; reflexivity|].
  discriminate.
Qed.

End Isolation.

(** C1. When the scan record was created, the crawl returned and the
    completion is accepted, the scan returns and is recorded COMPLETED
    whatever happened to single links: the result holds exactly one
    finding, made from its link, for each broken link whose processing
    did not throw, in the order of the links; if persisting the link with
    address [bad] is what throws, these are the findings of all the other
    links. *)
Theorem C1_per_link_failure_isolation (P : Platform) (env : Env)
    (self : LinXupChecker) (t : Tables) (options : CheckOptions)
    (crawl : CrawlResult) :
  pool_rejects env [] (insert_scan_of self) = None ->
  linkinator_check env (trace (after_create self t)) options = inr crawl ->
  pool_rejects env (trace (after_loop P env self t options crawl))
    (complete_of t crawl) = None ->
  exists s r,
    run_scan P env self t options = (s, Returned r) /\
    Forall2 (finding_of P options)
      (kept_links P env self t options crawl) (brokenLinksWithAI r) /\
    sublist (kept_links P env self t options crawl) (broken_of crawl) /\
    scan_status (tables s) (scanId r) = Some completed /\
    (forall bad,
       only_link_refused env bad ->
       kept_links P env self t options crawl
       = List.filter (other_than bad) (broken_of crawl)).
Proof.
  intros Hins Hcrawl Hdone.
  rewrite run_scan_stages. unfold scan_stages.
  rewrite Hins, Hcrawl. cbv zeta. rewrite Hdone.
  eexists _, _. split; [reflexivity|].
  cbn [brokenLinksWithAI result_of scanId].
  split; [|split; [|split]].
  - unfold kept_links, after_loop.
    destruct (analyzeLoop_run P env self (new_scan_id t) options
                (length (broken_of crawl)) (broken_of crawl) 0
                (loop_start self t options)) as (_ & _ & fs & Hfs & Hall).
    rewrite Hfs. exact Hall.
  - apply survivors_sublist.
  - apply applied_complete_status, scan_record_after_loop.
  - intros bad Hbad. apply survivors_refused. exact Hbad.
Qed.

(** ** Terminal states of the scan record *)

Lemma not_terminal_statement (sid : Z) (ev : Event) :
  is_terminal_statement ev = false ->
  is_completed_write sid ev = false /\
  is_failed_write sid ev = false /\
  is_failed_attempt sid ev = false.
Proof.
  destruct ev as [[] [e|]| | | |]; cbn; intros H;
    try discriminate; repeat split; reflexivity.
Qed.

Lemma no_terminal_events (sid : Z) (evs : list Event) :
  Forall (fun ev => is_terminal_statement ev = false) evs ->
  existsb (is_completed_write sid) evs = false /\
  existsb (is_failed_write sid) evs = false /\
  existsb (is_failed_attempt sid) evs = false /\
  count_events (is_terminal_write sid) evs = 0%nat.
Proof.
  unfold count_events, is_terminal_write.
  induction 1 as [|ev evs Hev _ (IH1 & IH2 & IH3 & IH4)]; cbn.
  - repeat split; reflexivity.
  - destruct (not_terminal_statement sid ev Hev) as (H1 & H2 & H3).
    rewrite H1, H2, H3, IH1, IH2, IH3. cbn. repeat split; try reflexivity.
    exact IH4.
Qed.

(** The events of a run up to the end of the loop: the creation, the
    crawl, and events that set no terminal state. *)
Lemma after_loop_trace (P : Platform) (env : Env) (self : LinXupChecker)
    (t : Tables) (options : CheckOptions) (crawl : CrawlResult) :
  exists evs,
    trace (after_loop P env self t options crawl)
    = [EvQuery (insert_scan_of self) None; EvCheck options] ++ evs /\
    Forall (fun ev => is_terminal_statement ev = false) evs.
Proof.
  unfold after_loop.
  destruct (analyzeLoop_run P env self (new_scan_id t) options
              (length (broken_of crawl)) (broken_of crawl) 0
              (loop_start self t options))
    as (_ & (_ & _ & evs & Htr & Hall) & _).
  exists evs. split; [exact Htr | exact Hall].
Qed.

(** C3. In a run at most one terminal mutation of a scan record is
    applied; no run has both an applied COMPLETED and a FAILED statement,
    applied or not, for the same record; and the state applied is the
    state the record is left in. *)
Theorem C3_terminal_states_exclusive (P : Platform) (env : Env)
    (self : LinXupChecker) (t : Tables) (options : CheckOptions) (sid : Z) :
  let s := fst (run_scan P env self t options) in
  (count_events (is_terminal_write sid) (trace s) <= 1)%nat /\
  existsb (is_completed_write sid) (trace s)
    && existsb (is_failed_attempt sid) (trace s) = false /\
  (if existsb (is_completed_write (new_scan_id t)) (trace s)
   then scan_status (tables s) (new_scan_id t) = Some completed
   else True) /\
  (if existsb (is_failed_write (new_scan_id t)) (trace s)
   then scan_status (tables s) (new_scan_id t) = Some failed
   else True).
Proof.
  rewrite run_scan_stages. unfold scan_stages, fatal.
  destruct (pool_rejects env [] (insert_scan_of self)) as [e0|].
  { cbn. repeat split; lia. }
  destruct (linkinator_check env _ options) as [e|crawl].
  - assert (Hrun : scan_status (tables (loop_start self t options))
                     (new_scan_id t) = Some running).
    { unfold scan_status. cbn. rewrite lookup_insert_eq. reflexivity. }
    destruct (pool_rejects env _ (QFailScan _ _)) as [e2|]; cbn [fst].
    + cbn. rewrite ?Z.eqb_refl. cbn. repeat split; lia.
    + pose proof (applied_fail_status (new_scan_id t) (message e) _ Hrun)
        as [Hst _].
      unfold applied in *. cbn [trace tables] in *. cbn -[scan_status run_query].
      rewrite ?Z.eqb_refl. cbn -[scan_status run_query].
      unfold count_events. cbn -[scan_status run_query].
      destruct (new_scan_id t =? sid); cbn -[scan_status run_query];
        repeat split; try lia; exact Hst.
  - cbv zeta.
    destruct (after_loop_trace P env self t options crawl)
      as (evs & Htr & Hall).
    pose proof (scan_record_after_loop P env self t options crawl) as Hrun.
    destruct (no_terminal_events sid evs Hall) as (A1 & A2 & A3 & A4).
    destruct (no_terminal_events (new_scan_id t) evs Hall)
      as (B1 & B2 & B3 & B4).
    set (s2 := after_loop P env self t options crawl) in *.
    destruct (pool_rejects env (trace s2) (complete_of t crawl)) as [e|].
    + destruct (pool_rejects env _ (QFailScan _ _)) as [e2|]; cbn [fst].
      * unfold rejected. cbn [trace tables]. rewrite Htr.
        unfold count_events.
        rewrite <- !app_assoc, !List.filter_app, !existsb_app, !length_app.
        fold (count_events (is_terminal_write sid) evs).
        rewrite A1, A3, A4, B1, B2. cbn. rewrite ?Z.eqb_refl.
        cbn. repeat split; lia.
      * pose proof (applied_fail_status (new_scan_id t) (message e)
                      (rejected (complete_of t crawl) e s2) Hrun)
          as [Hst _].
        unfold applied, rejected in *. cbn [trace tables] in *. rewrite Htr.
        unfold count_events.
        rewrite <- !app_assoc, !List.filter_app, !existsb_app, !length_app.
        fold (count_events (is_terminal_write sid) evs).
        rewrite A1, A3, A4, B1, B2. cbn -[scan_status run_query].
        rewrite ?Z.eqb_refl. cbn -[scan_status run_query].
        destruct (new_scan_id t =? sid); cbn -[scan_status run_query];
          repeat split; try lia; exact Hst.
    + cbn [fst].
      pose proof (applied_complete_status t crawl s2 Hrun) as Hst.
      unfold applied in *. cbn [trace tables] in *. rewrite Htr.
      unfold count_events.
      rewrite <- !app_assoc, !List.filter_app, !existsb_app, !length_app.
      fold (count_events (is_terminal_write sid) evs).
      rewrite A1, A3, A4, B1, B2.
      unfold is_terminal_write, is_completed_write, is_failed_write,
        is_failed_attempt, complete_of at 1 2 3 4 5 6, insert_scan_of.
      cbn -[scan_status run_query complete_of].
      rewrite ?Z.eqb_refl. cbn -[scan_status run_query complete_of].
      destruct (new_scan_id t =? sid); cbn -[scan_status run_query complete_of];
        repeat split; try lia; exact Hst.
Qed.

(** ** Fatal failures *)

(** C4 as worded fails: with the crawl failing and the pool then
    refusing the statement that marks the scan failed, the caller gets
    the pool's error and the record stays RUNNING. *)
Lemma C4_counterexample : ~ crawl_failure_claim.
Proof.
  intros H.
  destruct (H Sample.platform Scenario.crawl_throws_pool_down
              (Sample.checker true) empty_tables Sample.options
              Scenario.crawl_error eq_refl eq_refl) as (s & Hrun & _).
  vm_compute in Hrun. discriminate.
Qed.

(** C4, amended. A failure to create the scan record goes to the caller
    at once: no record is touched and no FAILED statement is sent. When
    the crawl throws after the record was created, the orchestrator
    sends one statement marking that record FAILED with the error's
    message; if the gateway applies it, the record is FAILED with that
    message and the same error is re-raised; if the gateway rejects it,
    the gateway's error is raised instead and the record stays RUNNING. *)
Theorem C4_fatal_crawl_failure (P : Platform) (env : Env)
    (self : LinXupChecker) (t : Tables) (options : CheckOptions) :
  (forall e0,
     pool_rejects env [] (insert_scan_of self) = Some e0 ->
     exists s,
       run_scan P env self t options = (s, Thrown e0) /\
       tables s = t /\
       trace s = [EvQuery (insert_scan_of self) (Some e0)]) /\
  (forall e,
     pool_rejects env [] (insert_scan_of self) = None ->
     linkinator_check env (trace (after_create self t)) options = inl e ->
     exists s out,
       run_scan P env self t options = (s, Thrown out) /\
       trace s = [EvQuery (insert_scan_of self) None; EvCheck options;
                  EvQuery (QFailScan (new_scan_id t) (message e))
                    (pool_rejects env (trace (loop_start self t options))
                       (QFailScan (new_scan_id t) (message e)))] /\
       match pool_rejects env (trace (loop_start self t options))
               (QFailScan (new_scan_id t) (message e)) with
       | None =>
           out = e /\
           scan_status (tables s) (new_scan_id t) = Some failed /\
           scan_error (tables s) (new_scan_id t) = Some (Some (message e))
       | Some e2 =>
           out = e2 /\
           scan_status (tables s) (new_scan_id t) = Some running
       end).
Proof.
  split.
  - intros e0 Hins. rewrite run_scan_stages. unfold scan_stages.
    rewrite Hins. eexists. split; [reflexivity|]. split; reflexivity.
  - intros e Hins Hcrawl. rewrite run_scan_stages. unfold scan_stages, fatal.
    rewrite Hins, Hcrawl.
    assert (Hrun : scan_status (tables (loop_start self t options))
                     (new_scan_id t) = Some running).
    { unfold scan_status. cbn. rewrite lookup_insert_eq. reflexivity. }
    destruct (pool_rejects env (trace (loop_start self t options))
                (QFailScan (new_scan_id t) (message e))) as [e2|].
    + eexists _, _. split; [reflexivity|]. split; [reflexivity|].
      split; [reflexivity | exact Hrun].
    + eexists _, _. split; [reflexivity|]. split; [reflexivity|].
      split; [reflexivity|].
      apply applied_fail_status. exact Hrun.
Qed.

Lemma C4_witness :
  (exists s,
     run_scan Sample.platform Scenario.no_database (Sample.checker true)
       empty_tables Sample.options
     = (s, Thrown {| message := "connection refused" |}) /\
     tables s = empty_tables /\
     trace s = [EvQuery (insert_scan_of (Sample.checker true))
                  (Some {| message := "connection refused" |})]) /\
  (exists s out,
     run_scan Sample.platform Scenario.crawl_throws (Sample.checker true)
       empty_tables Sample.options = (s, Thrown out) /\
     trace s = [EvQuery (insert_scan_of (Sample.checker true)) None;
                EvCheck Sample.options;
                EvQuery (QFailScan 1 "getaddrinfo ENOTFOUND example.org")
                  None] /\
     out = Scenario.crawl_error /\
     scan_status (tables s) 1 = Some failed /\
     scan_error (tables s) 1
     = Some (Some "getaddrinfo ENOTFOUND example.org")).
Proof.
  split.
  - exact (proj1 (C4_fatal_crawl_failure Sample.platform Scenario.no_database
                    (Sample.checker true) empty_tables Sample.options)
             _ eq_refl).
  - exact (proj2 (C4_fatal_crawl_failure Sample.platform Scenario.crawl_throws
                    (Sample.checker true) empty_tables Sample.options)
             _ eq_refl eq_refl).
Defined.

(** ** Suggested fixes *)

Lemma sample_contract (k : nat) (score : Z) (rejects : Query -> option Error)
    (crawl : Error + CrawlResult) (archive : string -> FetchOutcome) :
  (k <= 3)%nat ->
  analyzer_contract
    (Sample.scripted rejects crawl
       (fun i => inr (Sample.analysis_with k score i)) archive).
Proof.
  intros Hk tr input a [= <-]. cbn. rewrite repeat_length. exact Hk.
Qed.

(** C5 as worded fails: three fixes from the analyzer and a snapshot
    from the archive make four. *)
Lemma C5_counterexample : ~ fixes_claim.
Proof.
  intros H.
  destruct (H Sample.platform Scenario.all_well (Sample.checker true)
              empty_tables Sample.options _ _
              (sample_contract 3 50 _ _ _ (le_n 3))
              (run_scan_stages _ _ _ _ _)) as [Hfix _].
  vm_compute in Hfix. inversion Hfix as [|f fs Hlen _]. lia.
Qed.

(** C5, amended. When the analyzer keeps its at-most-3 contract, every
    analysis in the returned findings and every list of fixes written to
    the gateway has at most 3 entries if the archive lookup is disabled
    and at most 4 if it is enabled (the snapshot is put in front of what
    the analyzer returned, and nothing is dropped). *)
Theorem C5_suggested_fixes_bound (P : Platform) (env : Env)
    (self : LinXupChecker) (t : Tables) (options : CheckOptions)
    (s : State) (r : IntelligentScanResult (list BrokenLinkWithAI)) :
  analyzer_contract env ->
  run_scan P env self t options = (s, Returned r) ->
  Forall (fun f => (length (suggestedFixes (aiAnalysis f))
                    <= fix_bound self)%nat) (brokenLinksWithAI r) /\
  Forall (fixes_within (fix_bound self)) (trace s).
Proof.
  intros Hc. rewrite run_scan_stages. unfold scan_stages, fatal.
  destruct (pool_rejects env [] (insert_scan_of self)) as [e0|];
    [discriminate|].
  destruct (linkinator_check env _ options) as [e|crawl].
  { destruct (pool_rejects env _ (QFailScan _ _)); discriminate. }
  cbv zeta.
  destruct (pool_rejects env _ (complete_of t crawl)) as [e|].
  { destruct (pool_rejects env _ (QFailScan _ _)); discriminate. }
  intros [= <- <-]. cbn [brokenLinksWithAI result_of applied trace].
  unfold after_loop.
  destruct (analyzeLoop_bound P env self (new_scan_id t) options
              (length (broken_of crawl)) (broken_of crawl) Hc 0
              (loop_start self t options))
    as [(evs & Htr & Hev) (fs & Hfs & Hb)].
  rewrite Htr, Hfs. split.
  - exact Hb.
  - cbn. repeat (apply List.Forall_cons; [exact I|]).
    apply Forall_app. split; [exact Hev|].
    apply List.Forall_cons; [exact I | apply List.Forall_nil].
Qed.

Lemma C5_witness :
  analyzer_contract Scenario.all_well /\
  run_scan Sample.platform Scenario.all_well (Sample.checker true)
    empty_tables Sample.options
  = scan_stages Sample.platform Scenario.all_well (Sample.checker true)
      empty_tables Sample.options /\
  Forall (fun f => (length (suggestedFixes (aiAnalysis f)) <= 4)%nat)
    (brokenLinksWithAI
       (result_of Sample.platform Scenario.all_well (Sample.checker true)
          empty_tables Sample.options Sample.two_links)) /\
  Forall (fixes_within 4)
    (trace (fst (scan_stages Sample.platform Scenario.all_well
                   (Sample.checker true) empty_tables Sample.options))).
Proof.
  split; [exact (sample_contract 3 50 _ _ _ (le_n 3))|].
  split; [exact (run_scan_stages _ _ _ _ _)|].
  exact (C5_suggested_fixes_bound Sample.platform Scenario.all_well
           (Sample.checker true) empty_tables Sample.options _ _
           (sample_contract 3 50 _ _ _ (le_n 3))
           (run_scan_stages _ _ _ _ _)).
Defined.

(** ** Examples of failure isolation *)

Lemma second_refused_only :
  only_link_refused Scenario.second_refused "https://example.org/b.html".
Proof.
  split; [|split].
  - intros tr input. eexists. reflexivity.
  - intros tr sid u st fo lt hc.
    unfold Scenario.second_refused, Sample.scripted, Sample.refuse_link.
    cbn [pool_rejects].
    destruct (String.eqb_spec "https://example.org/b.html" u) as [E|Hne].
    + split; [intros _; symmetry; exact E | discriminate].
    + split; [intros H; congruence | intros E; congruence].
  - reflexivity.
Qed.

Lemma C1_witness :
  pool_rejects Scenario.second_refused []
    (insert_scan_of (Sample.checker true)) = None /\
  linkinator_check Scenario.second_refused
    (trace (after_create (Sample.checker true) empty_tables)) Sample.options
  = inr Sample.three_links /\
  pool_rejects Scenario.second_refused
    (trace (after_loop Sample.platform Scenario.second_refused
              (Sample.checker true) empty_tables Sample.options
              Sample.three_links))
    (complete_of empty_tables Sample.three_links) = None /\
  exists s r,
    run_scan Sample.platform Scenario.second_refused (Sample.checker true)
      empty_tables Sample.options = (s, Returned r) /\
    Forall2 (finding_of Sample.platform Sample.options)
      (kept_links Sample.platform Scenario.second_refused
         (Sample.checker true) empty_tables Sample.options Sample.three_links)
      (brokenLinksWithAI r) /\
    sublist
      (kept_links Sample.platform Scenario.second_refused
         (Sample.checker true) empty_tables Sample.options Sample.three_links)
      (broken_of Sample.three_links) /\
    scan_status (tables s) (scanId r) = Some completed /\
    (forall bad,
       only_link_refused Scenario.second_refused bad ->
       kept_links Sample.platform Scenario.second_refused
         (Sample.checker true) empty_tables Sample.options Sample.three_links
       = List.filter (other_than bad) (broken_of Sample.three_links)).
Proof.
  split; [reflexivity|]. split; [reflexivity|]. split; [reflexivity|].
  exact (C1_per_link_failure_isolation Sample.platform
           Scenario.second_refused (Sample.checker true) empty_tables
           Sample.options Sample.three_links eq_refl eq_refl eq_refl).
Defined.

(** Three broken links, the second of which cannot be persisted: two
    findings, for the first and the third, and the scan is COMPLETED. *)
Example three_links_second_refused :
  exists s r,
    run_scan Sample.platform Scenario.second_refused (Sample.checker true)
      empty_tables Sample.options = (s, Returned r) /\
    List.map url (brokenLinksWithAI r)
    = ["https://example.org/a.html"; "https://example.org/c.html"] /\
    scan_status (tables s) (scanId r) = Some completed /\
    brokenLinksCount r = 3.
Proof.
  eexists _, _. split; [rewrite run_scan_stages; reflexivity|].
  vm_compute. repeat split.
Qed.

(** ** The delay between links *)

Section Delay.

Context (P : Platform) (env : Env) (self : LinXupChecker).
Context (scan_id : Z) (options : CheckOptions) (n : nat).

(** One pass through the [try] block makes the delay exactly when it
    runs to its end and the link is not the last one; a pass that
    throws makes none. *)
Lemma processLink_delays (i : nat) (link : LinkResult) (s : State) :
  exists evs,
    trace (fst (processLink P env self scan_id options n i link s))
    = trace s ++ evs /\
    count_events is_delay evs
    = match snd (processLink P env self scan_id options n i link s) with
      | inr _ => if (S i <? n)%nat then 1%nat else 0%nat
      | inl _ => 0%nat
      end.
Proof.
  unfold processLink, extractContext, analyze, createBrokenLink,
    updateBrokenLinkWithAI, db_query, push_finding, delay, emit, get_trace,
    bind, ret, throw.
  remember (S i <? n)%nat as more eqn:Hmore. cbn.
  destruct (analyzeContext env (trace s) _) as [e|a]; cbn.
  { eexists. split; [reflexivity | reflexivity]. }
  destruct (includeWayback self); cbn.
  - rewrite checkWaybackMachine_run. cbn.
    destruct (JSString.or_null (archive_result env _ (link_url link)))
      as [w|]; cbn.
    + destruct (pool_rejects env _ _) as [e|]; cbn.
      { eexists. split; [rewrite <- !app_assoc; reflexivity | reflexivity]. }
      destruct (pool_rejects env _ _) as [e|]; cbn.
      { eexists. split; [rewrite <- !app_assoc; reflexivity | reflexivity]. }
      destruct more; cbn;
        (eexists; split; [rewrite <- !app_assoc; reflexivity | reflexivity]).
    + destruct (pool_rejects env _ _) as [e|]; cbn.
      { eexists. split; [rewrite <- !app_assoc; reflexivity | reflexivity]. }
      destruct (pool_rejects env _ _) as [e|]; cbn.
      { eexists. split; [rewrite <- !app_assoc; reflexivity | reflexivity]. }
      destruct more; cbn;
        (eexists; split; [rewrite <- !app_assoc; reflexivity | reflexivity]).
  - destruct (pool_rejects env _ _) as [e|]; cbn.
    { eexists. split; [rewrite <- !app_assoc; reflexivity | reflexivity]. }
    destruct (pool_rejects env _ _) as [e|]; cbn.
    { eexists. split; [rewrite <- !app_assoc; reflexivity | reflexivity]. }
    destruct more; cbn;
      (eexists; split; [rewrite <- !app_assoc; reflexivity | reflexivity]).
Qed.

End Delay.

(** C8 fails on the code: with two broken links of which the first
    cannot be persisted, the analyzer is called for both links and no
    delay is made in between. *)
Theorem C8_delay_skipped_after_failed_link :
  let s := fst (run_scan Sample.platform Scenario.first_refused
                  (Sample.checker true) empty_tables Sample.options) in
  length (broken_of Sample.two_links) = 2%nat /\
  count_events is_analyze (trace s) = 2%nat /\
  count_events is_delay (trace s) = 0%nat /\
  delayed_analyses true (trace s) = false.
Proof. vm_compute. repeat split. Qed.

(** When every link can be persisted the delay is there. *)
Example delay_between_two_links :
  let s := fst (run_scan Sample.platform Scenario.all_well
                  (Sample.checker true) empty_tables Sample.options) in
  count_events is_analyze (trace s) = 2%nat /\
  count_events is_delay (trace s) = 1%nat /\
  delayed_analyses true (trace s) = true.
Proof. vm_compute. repeat split. Qed.

(** ** Sorting *)

Section SortFacts.

Context {A : Type} (cmp : A -> A -> Z).

Lemma insert_sorted_perm (x : A) (l : list A) :
  insert_sorted cmp x l ≡ₚ x :: l.
Proof.
  induction l as [|y l IH]; cbn; [reflexivity|].
  destruct (0 <? cmp x y); [|reflexivity].
  rewrite IH. apply Permutation_swap.
Qed.

Lemma Array_sort_perm (l : list A) : Array_sort cmp l ≡ₚ l.
Proof.
  induction l as [|x l IH]; cbn; [reflexivity|].
  rewrite insert_sorted_perm, IH. reflexivity.
Qed.



End SortFacts.




(** ** The report *)

Lemma append_assoc (a b c : string) : (a +:+ b) +:+ c = a +:+ b +:+ c.
Proof.
  induction a as [|x a IH]; [reflexivity|].
  change (String x ((a +:+ b) +:+ c) = String x (a +:+ b +:+ c)).
  f_equal. exact IH.
Qed.

Lemma append_empty (a : string) : a +:+ "" = a.
Proof.
  induction a as [|x a IH]; [reflexivity|].
  change (String x (a +:+ "") = String x a). f_equal. exact IH.
Qed.

Section ReportFacts.

Context (P : Platform).

(** The loop appends the blocks one after the other. *)
Lemma report_links_blocks (ls : list BrokenLinkWithAI) :
  forall (i : nat) (report : string),
    report_links i ls report = report +:+ concat_blocks i ls.
Proof.
  induction ls as [|link ls IH]; intros i report; cbn.
  - symmetry. apply append_empty.
  - rewrite IH, append_assoc. reflexivity.
Qed.

(** The copy is a new array: the sort works on it alone. *)
Lemma spread_sort_read (h : Heap) (l : loc) :
  let h1 := fst (array_spread h l) in
  let copy := snd (array_spread h l) in
  let h2 := fst (array_sort by_priority_desc h1 copy) in
  array_read h2 (snd (array_sort by_priority_desc h1 copy))
  = Array_sort by_priority_desc (array_read h l) /\
  h !! copy = None /\
  forall l', l' <> copy -> h2 !! l' = h !! l'.
Proof.
  unfold array_spread, array_sort, array_read. cbn.
  assert (Hfresh : h !! fresh (dom h) = None).
  { apply not_elem_of_dom. apply is_fresh. }
  split; [|split].
  - rewrite lookup_alter_eq, lookup_insert_eq. reflexivity.
  - exact Hfresh.
  - intros l' Hne. rewrite lookup_alter_ne, lookup_insert_ne by congruence.
    reflexivity.
Qed.

Lemma generateReport_text (h : Heap) (result : IntelligentScanResult loc) :
  snd (generateReport P h result)
  = report_summary P result
      +:+ report_section result
            (Array_sort by_priority_desc
               (array_read h (brokenLinksWithAI result)))
      +:+ report_footer.
Proof.
  unfold generateReport, report_section.
  assert (Hlen : length (Array_sort by_priority_desc
                           (array_read h (brokenLinksWithAI result)))
                 = length (array_read h (brokenLinksWithAI result))).
  { apply Permutation_length, Array_sort_perm. }
  rewrite Hlen.
  destruct (0 <? length (array_read h (brokenLinksWithAI result)))%nat.
  - destruct (spread_sort_read h (brokenLinksWithAI result)) as (Hread & _).
    cbv zeta in Hread.
    destruct (array_spread h (brokenLinksWithAI result)) as [h1 copy].
    cbn [fst snd] in Hread.
    destruct (array_sort by_priority_desc h1 copy) as [h2 sortedLinks].
    cbn [fst snd] in *. rewrite Hread, report_links_blocks.
    unfold links_header. rewrite !append_assoc. reflexivity.
  - cbn [snd]. unfold report_no_links. rewrite !append_assoc. reflexivity.
Qed.

(** Every array that was there is left as it was. *)
Lemma generateReport_heap (h : Heap) (result : IntelligentScanResult loc)
    (l : loc) :
  is_Some (h !! l) ->
  fst (generateReport P h result) !! l = h !! l.
Proof.
  intros Hl. unfold generateReport.
  destruct (0 <? length (array_read h (brokenLinksWithAI result)))%nat;
    [|reflexivity].
  destruct (spread_sort_read h (brokenLinksWithAI result))
    as (_ & Hfresh & Hother).
  cbv zeta in Hother.
  destruct (array_spread h (brokenLinksWithAI result)) as [h1 copy].
  cbn [fst snd] in *.
  destruct (array_sort by_priority_desc h1 copy) as [h2 sortedLinks].
  cbn [fst snd] in *. apply Hother.
  intros ->. rewrite Hfresh in Hl. destruct Hl as [? Hl]. discriminate.
Qed.

End ReportFacts.


(** C10. After [generateReport] the array its argument refers to holds
    the same findings in the same order, as does every array that
    existed before the call; rendering again gives the same text. *)
Theorem C10_report_leaves_input (P : Platform) (h : Heap)
    (result : IntelligentScanResult loc) :
  array_read (fst (generateReport P h result)) (brokenLinksWithAI result)
  = array_read h (brokenLinksWithAI result) /\
  (forall l, is_Some (h !! l) ->
             fst (generateReport P h result) !! l = h !! l) /\
  snd (generateReport P (fst (generateReport P h result)) result)
  = snd (generateReport P h result).
Proof.
  assert (Hread :
    array_read (fst (generateReport P h result)) (brokenLinksWithAI result)
    = array_read h (brokenLinksWithAI result)).
  { destruct (h !! brokenLinksWithAI result) as [arr|] eqn:Hl.
    - unfold array_read.
      rewrite generateReport_heap by (rewrite Hl; eauto). reflexivity.
    - unfold generateReport, array_read. rewrite Hl. cbn.
      rewrite Hl. reflexivity. }
  split; [exact Hread|]. split.
  - intros l Hl. apply generateReport_heap. exact Hl.
  - rewrite !generateReport_text, Hread. reflexivity.
Qed.

(** The finding of priority 95 comes first; the two of priority 50 keep
    their order. *)
Example report_order :
  snd (generateReport Sample.platform ReportScenario.heap ReportScenario.result)
  = report_summary Sample.platform ReportScenario.result
      +:+ links_header
      +:+ concat_blocks 0
            [Sample.finding "https://example.org/b.html" 95;
             Sample.finding "https://example.org/a.html" 50;
             Sample.finding "https://example.org/c.html" 50]
      +:+ report_footer.
Proof. vm_compute. reflexivity. Qed.

Example report_keeps_input :
  array_read
    (fst (generateReport Sample.platform ReportScenario.heap
            ReportScenario.result)) 1%positive
  = ReportScenario.unsorted.
Proof. vm_compute. reflexivity. Qed.

(** Sorting the caller's array itself would have reordered it. *)
Example sort_in_place_reorders :
  array_read (sort_in_place ReportScenario.heap ReportScenario.result) 1%positive
  <> ReportScenario.unsorted.
Proof. vm_compute. discriminate. Qed.

(** ** The score of a scan *)

(** A scan that returns reports and records the score of its own counts:
    every link the crawl returned, and the broken ones among them. *)
Lemma scan_health_score (P : Platform) (env : Env) (self : LinXupChecker)
    (t : Tables) (options : CheckOptions) (s : State)
    (r : IntelligentScanResult (list BrokenLinkWithAI)) :
  run_scan P env self t options = (s, Returned r) ->
  healthScore r
  = spec_healthScore (of_Z (totalLinks r)) (of_Z (brokenLinksCount r)) /\
  totalLinks r = Z.of_nat (length (crawl_links r)) /\
  brokenLinksCount r
  = Z.of_nat (length (List.filter is_broken (crawl_links r))) /\
  (sr_health_score <$> scan_results (tables s) !! scanId r)
  = Some (Some (healthScore r)).
Proof.
  rewrite run_scan_stages. unfold scan_stages, fatal.
  destruct (pool_rejects env [] (insert_scan_of self)) as [e0|];
    [discriminate|].
  destruct (linkinator_check env _ options) as [e|crawl].
  { destruct (pool_rejects env _ (QFailScan _ _)); discriminate. }
  cbv zeta.
  destruct (pool_rejects env _ (complete_of t crawl)) as [e|].
  { destruct (pool_rejects env _ (QFailScan _ _)); discriminate. }
  intros [= <- <-].
  cbn [healthScore totalLinks brokenLinksCount crawl_links scanId result_of].
  split; [apply calculateHealthScore_spec|]. split; [reflexivity|].
  split; [reflexivity|].
  pose proof (scan_record_after_loop P env self t options crawl) as Hrun.
  unfold scan_status in Hrun. unfold applied, complete_of. cbn.
  rewrite lookup_alter_eq.
  destruct (scan_results (tables (after_loop P env self t options crawl))
              !! new_scan_id t); [reflexivity | discriminate].
Qed.

(** ** Examples of terminal states *)

(** A completion that the gateway refuses is a fatal failure: the record
    is marked FAILED with the error's message and the error goes to the
    caller; that is the one terminal mutation applied. *)
Example completion_refused_marks_failed :
  exists s,
    run_scan Sample.platform Scenario.completion_refused (Sample.checker false)
      empty_tables Sample.options
    = (s, Thrown {| message := "deadlock detected" |}) /\
    scan_status (tables s) 1 = Some failed /\
    scan_error (tables s) 1 = Some (Some "deadlock detected") /\
    count_events (is_terminal_write 1) (trace s) = 1%nat /\
    existsb (is_completed_write 1) (trace s) = false.
Proof.
  eexists. split; [rewrite run_scan_stages; reflexivity|].
  vm_compute. repeat split.
Qed.

(** A scan that completes sends no FAILED statement. *)
Example completed_scan_is_final :
  exists s r,
    run_scan Sample.platform Scenario.all_well (Sample.checker true)
      empty_tables Sample.options = (s, Returned r) /\
    scan_status (tables s) (scanId r) = Some completed /\
    existsb (is_failed_attempt (scanId r)) (trace s) = false /\
    healthScore r = of_Z 0.
Proof.
  eexists _, _. split; [rewrite run_scan_stages; reflexivity|].
  vm_compute. repeat split.
Qed.

(** ** One link, stage by stage *)

Lemma processLink_stages (P : Platform) (env : Env) (self : LinXupChecker)
    (scan_id : Z) (options : CheckOptions) (n i : nat) (link : LinkResult)
    (s : State) :
  processLink P env self scan_id options n i link s
  = link_stages P env self scan_id options n i link s.
Proof.
  unfold link_stages, with_archive, insert_link_of, update_link_of,
    finding_for, analysis_for_db, ai_input_of, emitted, pushed, applied,
    rejected.
  unfold processLink, extractContext, analyze, createBrokenLink,
    updateBrokenLinkWithAI, db_query, push_finding, delay, emit, get_trace,
    bind, ret, throw.
  remember (S i <? n)%nat as more eqn:Hmore. cbn.
  destruct (analyzeContext env (trace s) _) as [e|a]; cbn; [reflexivity|].
  destruct (includeWayback self); cbn.
  - rewrite checkWaybackMachine_run. cbn.
    destruct (JSString.or_null (archive_result env _ (link_url link)))
      as [w|]; cbn.
    + destruct (pool_rejects env _ _) as [e|]; cbn; [reflexivity|].
      destruct (pool_rejects env _ _) as [e|]; cbn; [reflexivity|].
      destruct more; reflexivity.
    + destruct (pool_rejects env _ _) as [e|]; cbn; [reflexivity|].
      destruct (pool_rejects env _ _) as [e|]; cbn; [reflexivity|].
      destruct more; reflexivity.
  - destruct (pool_rejects env _ _) as [e|]; cbn; [reflexivity|].
    destruct (pool_rejects env _ _) as [e|]; cbn; [reflexivity|].
    destruct more; reflexivity.
Qed.

(** ** What the loop sends, and in which order *)

Section LoopEvents.

Context (P : Platform) (env : Env) (self : LinXupChecker).
Context (scan_id : Z) (options : CheckOptions) (n : nat).

Ltac events_of_case :=
  eexists; split;
  [ cbn; rewrite <- ?app_assoc; reflexivity
  | cbn; repeat split; try reflexivity; try discriminate;
    repeat first [ apply sublist_skip | apply sublist_cons | apply sublist_nil ] ].

(** The events of one pass through the [try] block. *)
Lemma processLink_events (i : nat) (link : LinkResult) (s : State) :
  exists evs,
    trace (fst (processLink P env self scan_id options n i link s))
    = trace s ++ evs /\
    analyzed_urls evs = [link_url link] /\
    sublist (fetched_urls evs) [link_url link] /\
    (includeWayback self = false -> fetched_urls evs = []) /\
    sublist (inserted_urls evs) [link_url link] /\
    count_events is_other_delay evs = 0%nat /\
    count_events is_delay evs
    = match snd (processLink P env self scan_id options n i link s) with
      | inr _ => if (S i <? n)%nat then 1%nat else 0%nat
      | inl _ => 0%nat
      end /\
    match snd (processLink P env self scan_id options n i link s) with
    | inr _ => inserted_urls evs = [link_url link]
    | inl _ => True
    end.
Proof.
  rewrite processLink_stages. unfold link_stages, emitted, pushed, applied,
    rejected.
  remember (S i <? n)%nat as more eqn:Hmore.
  destruct (analyzeContext env (trace s) _) as [e|a]; [events_of_case|].
  cbv zeta.
  destruct (includeWayback self).
  - destruct (pool_rejects env _ (insert_link_of _ _ _ _)) as [e|];
      [events_of_case|].
    destruct (pool_rejects env _ (update_link_of _ _)) as [e|];
      [events_of_case|].
    destruct more; events_of_case.
  - destruct (pool_rejects env _ (insert_link_of _ _ _ _)) as [e|];
      [events_of_case|].
    destruct (pool_rejects env _ (update_link_of _ _)) as [e|];
      [events_of_case|].
    destruct more; events_of_case.
Qed.

Lemma count_events_app (p : Event -> bool) (a b : list Event) :
  count_events p (a ++ b) = (count_events p a + count_events p b)%nat.
Proof. unfold count_events. rewrite List.filter_app, length_app. reflexivity. Qed.

(** The events of the loop from index [i] on, [rest] being the links
    still to visit. *)
Lemma analyzeLoop_events (rest : list LinkResult) :
  forall (i : nat) (s : State),
    exists evs,
      trace (fst (analyzeLoop P env self scan_id options n i rest s))
      = trace s ++ evs /\
      analyzed_urls evs = List.map link_url rest /\
      sublist (fetched_urls evs) (List.map link_url rest) /\
      (includeWayback self = false -> fetched_urls evs = []) /\
      sublist (inserted_urls evs) (List.map link_url rest) /\
      sublist (List.map link_url
                 (survivors P env self scan_id options n i rest s))
              (inserted_urls evs) /\
      count_events is_other_delay evs = 0%nat /\
      ((i + length rest = n)%nat ->
       (count_events is_delay evs <= pred (length rest))%nat /\
       (count_events is_delay evs
        <= length (survivors P env self scan_id options n i rest s))%nat /\
       (length (survivors P env self scan_id options n i rest s)
        <= count_events is_delay evs + 1)%nat).
Proof.
  induction rest as [|link rest IH]; intros i s.
  - exists []. cbn. rewrite app_nil_r.
    repeat split; try reflexivity; try constructor; lia.
  - rewrite analyzeLoop_cons. cbn [survivors].
    destruct (processLink_events i link s)
      as (ev1 & Ht1 & Ha1 & Hf1 & Hn1 & Hi1 & Ho1 & Hd1 & Hk1).
    destruct (processLink P env self scan_id options n i link s)
      as [s1 r]; cbn [fst snd] in *.
    destruct (IH (S i) s1)
      as (ev2 & Ht2 & Ha2 & Hf2 & Hn2 & Hi2 & Hs2 & Ho2 & Hd2).
    exists (ev1 ++ ev2).
    unfold analyzed_urls, fetched_urls, inserted_urls in *.
    rewrite !omap_app, !count_events_app.
    split; [rewrite Ht2, Ht1, app_assoc; reflexivity|].
    split; [rewrite Ha1, Ha2; reflexivity|].
    split; [apply (sublist_app _ [_]); assumption|].
    split; [intros Hw; rewrite Hn1, Hn2 by exact Hw; reflexivity|].
    split; [apply (sublist_app _ [_]); assumption|].
    split.
    { destruct r as [e|u].
      - apply sublist_inserts_l. exact Hs2.
      - rewrite Hk1. cbn. apply sublist_skip. exact Hs2. }
    split; [rewrite Ho1, Ho2; reflexivity|].
    intros Hn. cbn [length] in *.
    destruct Hd2 as (B1 & B2 & B3); [lia|].
    rewrite Hd1.
    destruct r as [e|u].
    + cbn [length]. lia.
    + cbn [length].
      destruct (S i <? n)%nat eqn:Hlt.
      * apply Nat.ltb_lt in Hlt. lia.
      * apply Nat.ltb_ge in Hlt.
        assert (length rest = 0%nat) by lia.
        destruct rest; [|discriminate]. cbn in *. lia.
Qed.

End LoopEvents.

(** A statement on the scan record is neither an analysis, a lookup, a
    delay nor a record of a link. *)
Lemma terminal_statements_silent (tail : list Event) :
  Forall (fun ev => is_terminal_statement ev = true) tail ->
  analyzed_urls tail = [] /\ fetched_urls tail = [] /\
  inserted_urls tail = [] /\
  count_events is_delay tail = 0%nat /\
  count_events is_other_delay tail = 0%nat.
Proof.
  unfold analyzed_urls, fetched_urls, inserted_urls, count_events.
  induction 1 as [|ev tail Hev _ (A & B & C & D & E)]; cbn.
  - repeat split; reflexivity.
  - destruct ev as [[] [e|]| | | |]; cbn in *; try discriminate;
      repeat split; assumption.
Qed.

(** After the loop a run only sends statements on the scan record. *)
Lemma run_scan_tail (P : Platform) (env : Env) (self : LinXupChecker)
    (t : Tables) (options : CheckOptions) (crawl : CrawlResult) :
  pool_rejects env [] (insert_scan_of self) = None ->
  linkinator_check env (trace (after_create self t)) options = inr crawl ->
  exists tail,
    trace (fst (run_scan P env self t options))
    = trace (after_loop P env self t options crawl) ++ tail /\
    Forall (fun ev => is_terminal_statement ev = true) tail /\
    broken_links (tables (fst (run_scan P env self t options)))
    = broken_links (tables (after_loop P env self t options crawl)).
Proof.
  intros Hins Hcrawl. rewrite run_scan_stages. unfold scan_stages, fatal.
  rewrite Hins, Hcrawl. cbv zeta.
  destruct (pool_rejects env _ (complete_of t crawl)) as [e|].
  - destruct (pool_rejects env _ (QFailScan _ _)) as [e2|]; cbn;
      eexists; (split; [rewrite <- app_assoc; reflexivity|]);
      (split; [repeat constructor | reflexivity]).
  - cbn. eexists. split; [reflexivity|].
    split; [repeat constructor | reflexivity].
Qed.

(** ** What a scan asks of its collaborators *)

(** The events of a run whose scan record was created and whose crawl
    returned. *)
Lemma run_scan_events (P : Platform) (env : Env) (self : LinXupChecker)
    (t : Tables) (options : CheckOptions) (crawl : CrawlResult) :
  pool_rejects env [] (insert_scan_of self) = None ->
  linkinator_check env (trace (after_create self t)) options = inr crawl ->
  let tr := trace (fst (run_scan P env self t options)) in
  let kept := kept_links P env self t options crawl in
  analyzed_urls tr = List.map link_url (broken_of crawl) /\
  sublist (fetched_urls tr) (List.map link_url (broken_of crawl)) /\
  (includeWayback self = false -> fetched_urls tr = []) /\
  sublist (inserted_urls tr) (List.map link_url (broken_of crawl)) /\
  sublist (List.map link_url kept) (inserted_urls tr) /\
  count_events is_other_delay tr = 0%nat /\
  (count_events is_delay tr <= pred (length (broken_of crawl)))%nat /\
  (count_events is_delay tr <= length kept)%nat /\
  (length kept <= count_events is_delay tr + 1)%nat.
Proof.
  intros Hins Hcrawl.
  destruct (run_scan_tail P env self t options crawl Hins Hcrawl)
    as (tail & Htr & Htail & _).
  destruct (terminal_statements_silent tail Htail) as (T1 & T2 & T3 & T4 & T5).
  destruct (analyzeLoop_events P env self (new_scan_id t) options
              (length (broken_of crawl)) (broken_of crawl) 0
              (loop_start self t options))
    as (evs & He & A & F & N & I & K & O & D).
  destruct D as (D1 & D2 & D3); [reflexivity|].
  cbv zeta. rewrite Htr. unfold after_loop, kept_links. rewrite He.
  unfold analyzed_urls, fetched_urls, inserted_urls in *.
  rewrite !omap_app, !count_events_app, T1, T2, T3, T4, T5, !app_nil_r.
  cbn. repeat split; try assumption; lia.
Qed.

(** X1. Once the scan record exists and the crawl has returned, the
    analyzer is called once for every broken link, in the order of the
    crawl, and for nothing else, whatever fails afterwards. *)
Theorem X1_each_broken_link_analyzed_once (P : Platform) (env : Env)
    (self : LinXupChecker) (t : Tables) (options : CheckOptions)
    (crawl : CrawlResult) :
  pool_rejects env [] (insert_scan_of self) = None ->
  linkinator_check env (trace (after_create self t)) options = inr crawl ->
  analyzed_urls (trace (fst (run_scan P env self t options)))
  = List.map link_url (List.filter is_broken (links crawl)).
Proof.
  intros Hins Hcrawl.
  exact (proj1 (run_scan_events P env self t options crawl Hins Hcrawl)).
Qed.

Lemma X1_witness :
  pool_rejects Scenario.second_refused []
    (insert_scan_of (Sample.checker true)) = None /\
  linkinator_check Scenario.second_refused
    (trace (after_create (Sample.checker true) empty_tables)) Sample.options
  = inr Sample.three_links /\
  analyzed_urls
    (trace (fst (run_scan Sample.platform Scenario.second_refused
                   (Sample.checker true) empty_tables Sample.options)))
  = List.map link_url (List.filter is_broken (links Sample.three_links)).
Proof.
  split; [reflexivity|]. split; [reflexivity|].
  exact (X1_each_broken_link_analyzed_once Sample.platform
           Scenario.second_refused (Sample.checker true) empty_tables
           Sample.options Sample.three_links eq_refl eq_refl).
Defined.

(** X2. The archive service is asked only about broken links, at most
    once each and in the order of the crawl; with the lookup disabled
    it is never asked. *)
Theorem X2_archive_requests (P : Platform) (env : Env)
    (self : LinXupChecker) (t : Tables) (options : CheckOptions)
    (crawl : CrawlResult) :
  pool_rejects env [] (insert_scan_of self) = None ->
  linkinator_check env (trace (after_create self t)) options = inr crawl ->
  sublist (fetched_urls (trace (fst (run_scan P env self t options))))
    (List.map link_url (List.filter is_broken (links crawl))) /\
  (includeWayback self = false ->
   fetched_urls (trace (fst (run_scan P env self t options))) = []).
Proof.
  intros Hins Hcrawl.
  destruct (run_scan_events P env self t options crawl Hins Hcrawl)
    as (_ & F & N & _).
  split; assumption.
Qed.

Lemma X2_witness :
  pool_rejects Scenario.second_refused []
    (insert_scan_of (Sample.checker false)) = None /\
  linkinator_check Scenario.second_refused
    (trace (after_create (Sample.checker false) empty_tables)) Sample.options
  = inr Sample.three_links /\
  includeWayback (Sample.checker false) = false /\
  fetched_urls
    (trace (fst (run_scan Sample.platform Scenario.second_refused
                   (Sample.checker false) empty_tables Sample.options)))
  = [].
Proof.
  split; [reflexivity|]. split; [reflexivity|]. split; [reflexivity|].
  exact (proj2 (X2_archive_requests Sample.platform
                  Scenario.second_refused (Sample.checker false) empty_tables
                  Sample.options Sample.three_links eq_refl eq_refl)
           eq_refl).
Defined.

(** X3. Every delay of a scan lasts 1000 ms. With [n] broken links of
    which [k] were kept there are at most [n - 1] delays and at most [k],
    and at least [k - 1]: a run in which no link is skipped makes exactly
    [n - 1]. *)
Theorem X3_delay_count (P : Platform) (env : Env)
    (self : LinXupChecker) (t : Tables) (options : CheckOptions)
    (crawl : CrawlResult) :
  pool_rejects env [] (insert_scan_of self) = None ->
  linkinator_check env (trace (after_create self t)) options = inr crawl ->
  let tr := trace (fst (run_scan P env self t options)) in
  let n := length (List.filter is_broken (links crawl)) in
  let k := length (kept_links P env self t options crawl) in
  count_events is_other_delay tr = 0%nat /\
  (count_events is_delay tr <= pred n)%nat /\
  (count_events is_delay tr <= k)%nat /\
  (k <= count_events is_delay tr + 1)%nat /\
  (k = n -> count_events is_delay tr = pred n).
Proof.
  intros Hins Hcrawl.
  destruct (run_scan_events P env self t options crawl Hins Hcrawl)
    as (_ & _ & _ & _ & _ & O & D1 & D2 & D3).
  cbv zeta in *. fold (broken_of crawl).
  repeat split; try assumption. intros Hk. lia.
Qed.

Lemma X3_witness :
  pool_rejects Scenario.all_well []
    (insert_scan_of (Sample.checker true)) = None /\
  linkinator_check Scenario.all_well
    (trace (after_create (Sample.checker true) empty_tables)) Sample.options
  = inr Sample.two_links /\
  let tr := trace (fst (run_scan Sample.platform Scenario.all_well
                          (Sample.checker true) empty_tables Sample.options)) in
  let n := length (List.filter is_broken (links Sample.two_links)) in
  let k := length (kept_links Sample.platform Scenario.all_well
                     (Sample.checker true) empty_tables Sample.options
                     Sample.two_links) in
  count_events is_other_delay tr = 0%nat /\
  (count_events is_delay tr <= pred n)%nat /\
  (count_events is_delay tr <= k)%nat /\
  (k <= count_events is_delay tr + 1)%nat /\
  (k = n -> count_events is_delay tr = pred n).
Proof.
  split; [reflexivity|]. split; [reflexivity|].
  exact (X3_delay_count Sample.platform Scenario.all_well
           (Sample.checker true) empty_tables Sample.options
           Sample.two_links eq_refl eq_refl).
Defined.

(** ** Findings and their records *)

Section Persisted.

Context (P : Platform) (env : Env) (self : LinXupChecker).
Context (scan_id : Z) (options : CheckOptions) (n : nat).

Lemma persisted_frame (s s' : State) :
  findings s' = findings s ->
  broken_links_id_seq (tables s) <= broken_links_id_seq (tables s') ->
  (forall k, k < broken_links_id_seq (tables s) ->
             broken_links (tables s') !! k = broken_links (tables s) !! k) ->
  persisted scan_id s -> persisted scan_id s'.
Proof.
  intros Hf Hseq Hrows [Hall Hsorted]. unfold persisted. rewrite Hf.
  split; [|exact Hsorted].
  eapply Forall_impl; [exact Hall|]. cbn. intros f [Hlt Hrow].
  split; [lia|]. rewrite Hrows by exact Hlt. exact Hrow.
Qed.

Lemma sorted_snoc (l : list Z) (x : Z) :
  StronglySorted Z.lt l -> Forall (fun y => y < x) l ->
  StronglySorted Z.lt (l ++ [x]).
Proof.
  induction 1 as [|y l Hl IH Hy]; intros Hx; cbn.
  - repeat constructor.
  - inversion Hx as [|? ? Hyx Hlx]; subst. constructor.
    + apply IH. exact Hlx.
    + apply Forall_app. split; [exact Hy|]. repeat constructor. exact Hyx.
Qed.

(** One pass through the [try] block keeps the findings persisted. *)
Lemma processLink_persisted (i : nat) (link : LinkResult) (s : State) :
  persisted scan_id s ->
  persisted scan_id (fst (processLink P env self scan_id options n i link s)).
Proof.
  intros Hp. rewrite processLink_stages. unfold link_stages.
  destruct (analyzeContext env (trace s) _) as [e|a0].
  { eapply persisted_frame; [| | |exact Hp]; cbn; [reflexivity|lia|reflexivity]. }
  cbv zeta.
  set (s2 := if includeWayback self
             then emitted (EvFetch (link_url link))
                    (emitted (EvAnalyze (ai_input_of P options link)) s)
             else emitted (EvAnalyze (ai_input_of P options link)) s).
  assert (Ht2 : tables s2 = tables s /\ findings s2 = findings s).
  { unfold s2. destruct (includeWayback self); split; reflexivity. }
  destruct Ht2 as [Ht2 Hf2].
  set (a := with_archive env self _ link a0).
  destruct (pool_rejects env (trace s2) _) as [e|].
  { eapply persisted_frame; [| | |exact Hp]; cbn; rewrite ?Ht2, ?Hf2;
      [reflexivity|lia|reflexivity]. }
  destruct (pool_rejects env _ (update_link_of _ a)) as [e|].
  { eapply persisted_frame; [| | |exact Hp]; cbn; rewrite ?Ht2, ?Hf2;
      [reflexivity|lia|].
    intros k Hk. rewrite lookup_insert_ne by lia. reflexivity. }
  assert (Hgoal : persisted scan_id
            (pushed (finding_for P options link a
                       (broken_links_id_seq (tables s2)))
               (applied (update_link_of (broken_links_id_seq (tables s2)) a)
                  (applied (insert_link_of P scan_id options link) s2)))).
  { destruct Hp as [Hall Hsorted]. unfold persisted. cbn.
    rewrite Ht2, Hf2. split.
    - apply Forall_app. split.
      + eapply Forall_impl; [exact Hall|]. cbn. intros f [Hlt Hrow].
        split; [lia|].
        rewrite lookup_alter_ne, lookup_insert_ne by lia. exact Hrow.
      + apply List.Forall_cons; [|apply List.Forall_nil].
        cbn. split; [lia|].
        rewrite lookup_alter_eq, lookup_insert_eq. reflexivity.
    - rewrite map_app. cbn. apply sorted_snoc; [exact Hsorted|].
      apply Forall_fmap. eapply Forall_impl; [exact Hall|].
      cbn. intros f [Hlt _]. exact Hlt. }
  destruct (S i <? n)%nat; [|exact Hgoal].
  eapply persisted_frame; [| | |exact Hgoal]; cbn;
    [reflexivity|lia|reflexivity].
Qed.

Lemma analyzeLoop_persisted (rest : list LinkResult) :
  forall (i : nat) (s : State),
    persisted scan_id s ->
    persisted scan_id
      (fst (analyzeLoop P env self scan_id options n i rest s)).
Proof.
  induction rest as [|link rest IH]; intros i s Hp; [exact Hp|].
  rewrite analyzeLoop_cons. apply IH, processLink_persisted. exact Hp.
Qed.

End Persisted.

Lemma after_loop_persisted (P : Platform) (env : Env) (self : LinXupChecker)
    (t : Tables) (options : CheckOptions) (crawl : CrawlResult) :
  persisted (new_scan_id t) (after_loop P env self t options crawl).
Proof.
  unfold after_loop. apply analyzeLoop_persisted.
  split; cbn; constructor.
Qed.

(** X4. Each finding of a returned result is in the [broken_links]
    table under its [dbId], with the scan's id, the link's data, the
    analysis, the fixes, the priority score and the critical flag that
    the finding carries; no two findings share a [dbId]. *)
Theorem X4_findings_are_persisted (P : Platform) (env : Env)
    (self : LinXupChecker) (t : Tables) (options : CheckOptions)
    (s : State) (r : IntelligentScanResult (list BrokenLinkWithAI)) :
  run_scan P env self t options = (s, Returned r) ->
  Forall (fun f =>
            broken_links (tables s) !! dbId f = Some (row_of (scanId r) f))
    (brokenLinksWithAI r) /\
  NoDup (List.map dbId (brokenLinksWithAI r)).
Proof.
  rewrite run_scan_stages. unfold scan_stages, fatal.
  destruct (pool_rejects env [] (insert_scan_of self)) as [e0|];
    [discriminate|].
  destruct (linkinator_check env _ options) as [e|crawl].
  { destruct (pool_rejects env _ (QFailScan _ _)); discriminate. }
  cbv zeta.
  destruct (pool_rejects env _ (complete_of t crawl)) as [e|].
  { destruct (pool_rejects env _ (QFailScan _ _)); discriminate. }
  intros [= <- <-].
  destruct (after_loop_persisted P env self t options crawl) as [Hall Hsorted].
  cbn [brokenLinksWithAI scanId result_of]. split.
  - eapply Forall_impl; [exact Hall|]. cbn. intros f [_ Hrow]. exact Hrow.
  - clear Hall. induction Hsorted as [|x l _ IH Hx]; constructor.
    + intros Hin. rewrite List.Forall_forall in Hx.
      apply list_elem_of_In in Hin. specialize (Hx x Hin). lia.
    + exact IH.
Qed.

Lemma X4_witness :
  run_scan Sample.platform Scenario.second_refused (Sample.checker true)
    empty_tables Sample.options
  = scan_stages Sample.platform Scenario.second_refused (Sample.checker true)
      empty_tables Sample.options /\
  Forall (fun f =>
            broken_links
              (tables (fst (scan_stages Sample.platform
                              Scenario.second_refused (Sample.checker true)
                              empty_tables Sample.options)))
              !! dbId f
            = Some (row_of 1 f))
    (brokenLinksWithAI
       (result_of Sample.platform Scenario.second_refused
          (Sample.checker true) empty_tables Sample.options
          Sample.three_links)) /\
  NoDup (List.map dbId
           (brokenLinksWithAI
              (result_of Sample.platform Scenario.second_refused
                 (Sample.checker true) empty_tables Sample.options
                 Sample.three_links))).
Proof.
  split; [exact (run_scan_stages _ _ _ _ _)|].
  exact (X4_findings_are_persisted Sample.platform Scenario.second_refused
           (Sample.checker true) empty_tables Sample.options _ _
           (run_scan_stages _ _ _ _ _)).
Defined.

(** ** The life of a scan record *)

(** X5. Once the scan record exists a run leaves it in a terminal state
    unless the gateway refuses the statement that marks it failed: a run
    that returns leaves it COMPLETED with no error message; a run that
    throws leaves it FAILED with the message of the error thrown, or,
    when that last statement was refused, RUNNING, and then throws the
    gateway's error. *)
Theorem X5_scan_reaches_terminal_state (P : Platform) (env : Env)
    (self : LinXupChecker) (t : Tables) (options : CheckOptions) :
  pool_rejects env [] (insert_scan_of self) = None ->
  let s := fst (run_scan P env self t options) in
  match snd (run_scan P env self t options) with
  | Returned r =>
      scan_status (tables s) (new_scan_id t) = Some completed /\
      scan_error (tables s) (new_scan_id t) = Some None
  | Thrown e =>
      (scan_status (tables s) (new_scan_id t) = Some failed /\
       scan_error (tables s) (new_scan_id t) = Some (Some (message e))) \/
      (scan_status (tables s) (new_scan_id t) = Some running /\
       exists msg,
         last (trace s)
         = Some (EvQuery (QFailScan (new_scan_id t) msg) (Some e)))
  end.
Proof.
  intros Hins. rewrite run_scan_stages. unfold scan_stages, fatal.
  rewrite Hins.
  assert (Hstart : scan_status (tables (loop_start self t options))
                     (new_scan_id t) = Some running).
  { unfold scan_status. cbn. rewrite lookup_insert_eq. reflexivity. }
  destruct (linkinator_check env _ options) as [e|crawl].
  - destruct (pool_rejects env _ (QFailScan _ _)) as [e2|]; cbn [fst snd].
    + right. split; [exact Hstart|]. eexists. unfold rejected.
      cbn [trace]. apply last_snoc.
    + left. apply applied_fail_status. exact Hstart.
  - cbv zeta.
    pose proof (scan_record_after_loop P env self t options crawl) as Hrun.
    destruct (pool_rejects env _ (complete_of t crawl)) as [e|].
    + destruct (pool_rejects env _ (QFailScan _ _)) as [e2|]; cbn [fst snd].
      * right. split; [exact Hrun|]. eexists. unfold rejected.
        cbn [trace]. apply last_snoc.
      * left. apply applied_fail_status. exact Hrun.
    + cbn [fst snd]. split.
      * apply applied_complete_status. exact Hrun.
      * unfold scan_status, scan_error in *. unfold applied, complete_of.
        cbn. rewrite lookup_alter_eq.
        destruct (analyzeLoop_run P env self (new_scan_id t) options
                    (length (broken_of crawl)) (broken_of crawl) 0
                    (loop_start self t options)) as (_ & (Hsr & _) & _).
        fold (after_loop P env self t options crawl) in Hsr.
        rewrite Hsr. cbn. rewrite lookup_insert_eq. reflexivity.
Qed.

Lemma X5_witness :
  pool_rejects Scenario.completion_refused []
    (insert_scan_of (Sample.checker false)) = None /\
  let s := fst (run_scan Sample.platform Scenario.completion_refused
                  (Sample.checker false) empty_tables Sample.options) in
  match snd (run_scan Sample.platform Scenario.completion_refused
               (Sample.checker false) empty_tables Sample.options) with
  | Returned r =>
      scan_status (tables s) (new_scan_id empty_tables) = Some completed /\
      scan_error (tables s) (new_scan_id empty_tables) = Some None
  | Thrown e =>
      (scan_status (tables s) (new_scan_id empty_tables) = Some failed /\
       scan_error (tables s) (new_scan_id empty_tables)
       = Some (Some (message e))) \/
      (scan_status (tables s) (new_scan_id empty_tables) = Some running /\
       exists msg,
         last (trace s)
         = Some (EvQuery (QFailScan (new_scan_id empty_tables) msg) (Some e)))
  end.
Proof.
  split; [reflexivity|].
  exact (X5_scan_reaches_terminal_state Sample.platform
           Scenario.completion_refused (Sample.checker false) empty_tables
           Sample.options eq_refl).
Defined.

(** ** The counts of a result *)



(** ** A report after a scan that kept no finding *)

Lemma survivors_none (P : Platform) (env : Env) (self : LinXupChecker)
    (scan_id : Z) (options : CheckOptions) (n : nat)
    (rest : list LinkResult) :
  links_never_stored env ->
  forall i s, survivors P env self scan_id options n i rest s = [].
Proof.
  intros Hno. induction rest as [|link rest IH]; intros i s;
    cbn [survivors]; [reflexivity|].
  assert (Hthrows :
    exists e, snd (processLink P env self scan_id options n i link s) = inl e).
  { rewrite processLink_stages. unfold link_stages.
    destruct (analyzeContext env (trace s) _) as [e|a0]; [eauto|].
    cbv zeta.
    destruct (pool_rejects env _ (insert_link_of _ _ _ _)) as [e|] eqn:Hq;
      [eauto|].
    exfalso. unfold insert_link_of in Hq. exact (Hno _ _ _ _ _ _ _ Hq). }
  destruct Hthrows as [e He].
  destruct (processLink P env self scan_id options n i link s) as [s1 r].
  cbn in He. subst r. apply IH.
Qed.

(** X7. The report words its findings section after the findings, not
    after the broken-link count: when the gateway stored no record of a
    broken link, a scan that returns has no finding, and its report says
    that no broken links were found and that all links work, while the
    result and the summary block count every broken link. *)
Theorem X7_report_without_findings (P : Platform) (env : Env)
    (self : LinXupChecker) (t : Tables) (options : CheckOptions)
    (s : State) (r : IntelligentScanResult (list BrokenLinkWithAI))
    (l : loc) :
  links_never_stored env ->
  run_scan P env self t options = (s, Returned r) ->
  brokenLinksWithAI r = [] /\
  brokenLinksCount r
  = Z.of_nat (length (List.filter is_broken (crawl_links r))) /\
  snd (generateReport P (fst (held_at l r)) (snd (held_at l r)))
  = report_summary P r +:+ report_no_links r +:+ report_footer.
Proof.
  intros Hno. rewrite run_scan_stages. unfold scan_stages, fatal.
  destruct (pool_rejects env [] (insert_scan_of self)) as [e0|];
    [discriminate|].
  destruct (linkinator_check env _ options) as [e|crawl].
  { destruct (pool_rejects env _ (QFailScan _ _)); discriminate. }
  cbv zeta.
  destruct (pool_rejects env _ (complete_of t crawl)) as [e|].
  { destruct (pool_rejects env _ (QFailScan _ _)); discriminate. }
  intros [= <- <-].
  assert (Hempty : brokenLinksWithAI (result_of P env self t options crawl) = []).
  { cbn [brokenLinksWithAI result_of]. unfold after_loop.
    destruct (analyzeLoop_run P env self (new_scan_id t) options
                (length (broken_of crawl)) (broken_of crawl) 0
                (loop_start self t options)) as (_ & _ & fs & Hfs & Hall).
    rewrite survivors_none in Hall by exact Hno.
    inversion Hall; subst. rewrite Hfs. reflexivity. }
  split; [exact Hempty|]. split; [reflexivity|].
  rewrite generateReport_text. unfold held_at. cbn [fst snd brokenLinksWithAI].
  unfold array_read. rewrite lookup_singleton_eq. cbn [default].
  rewrite Hempty. reflexivity.
Qed.

Lemma refuse_links_never_stores : links_never_stored no_link_stored.
Proof. intros tr sid u st fo lt hc. discriminate. Qed.

Lemma X7_witness :
  links_never_stored no_link_stored /\
  run_scan Sample.platform no_link_stored (Sample.checker true)
    empty_tables Sample.options
  = scan_stages Sample.platform no_link_stored (Sample.checker true)
      empty_tables Sample.options /\
  let r := result_of Sample.platform no_link_stored (Sample.checker true)
             empty_tables Sample.options Sample.two_links in
  brokenLinksWithAI r = [] /\
  brokenLinksCount r
  = Z.of_nat (length (List.filter is_broken (crawl_links r))) /\
  snd (generateReport Sample.platform (fst (held_at 1%positive r))
         (snd (held_at 1%positive r)))
  = report_summary Sample.platform r +:+ report_no_links r +:+ report_footer.
Proof.
  split; [exact refuse_links_never_stores|].
  split; [exact (run_scan_stages _ _ _ _ _)|].
  exact (X7_report_without_findings Sample.platform no_link_stored
           (Sample.checker true) empty_tables Sample.options _ _ 1%positive
           refuse_links_never_stores (run_scan_stages _ _ _ _ _)).
Defined.

Example report_after_refused_links :
  brokenLinksCount
    (result_of Sample.platform no_link_stored (Sample.checker true)
       empty_tables Sample.options Sample.two_links) = 2.
Proof. reflexivity. Qed.

(** ** The range of the health score *)

(** X8. Whatever two numbers it is given, [calculateHealthScore] returns
    NaN or a number between 0 and 100: the clamp lets nothing else
    through. *)
Theorem X8_health_score_range (totalLinks brokenLinks : number) :
  calculateHealthScore totalLinks brokenLinks = S754_nan \/
  (SFleb (of_Z 0) (calculateHealthScore totalLinks brokenLinks) = true /\
   SFleb (calculateHealthScore totalLinks brokenLinks) (of_Z 100) = true).
Proof.
  unfold calculateHealthScore.
  destruct (strict_eq totalLinks (of_Z 0)).
  - right. split; vm_compute; reflexivity.
  - cbv zeta.
    set (x := Math_round
                (mul (sub (of_Z 1) (div brokenLinks totalLinks)) (of_Z 100))).
    destruct x as [s|s| |s m e] eqn:Hx.
    + right. apply (clamp_range (S754_zero s)). discriminate.
    + right. apply (clamp_range (S754_infinity s)). discriminate.
    + left. reflexivity.
    + right. apply (clamp_range (S754_finite s m e)). discriminate.
Qed.

(** ** The gateway *)

Lemma alter_absent {V} (f : V -> V) (k : Z) (m : gmap Z V) :
  m !! k = None -> alter f k m = m.
Proof.
  intros H. apply map_eq. intros j. rewrite lookup_alter.
  case_decide; [subst; rewrite H; reflexivity | reflexivity].
Qed.

(** X9. An update for an id that has no record is not an error: when
    the pool accepts the statement, [updateBrokenLinkWithAI] returns no
    record and leaves the tables as they were, and so does
    [completeScanResult] for a scan that does not exist. *)
Theorem X9_update_of_missing_record (env : Env) (s : State) :
  (forall lid a fixes score crit,
     broken_links (tables s) !! lid = None ->
     pool_rejects env (trace s) (QUpdateBrokenLinkAI lid a fixes score crit)
     = None ->
     snd (updateBrokenLinkWithAI env lid a fixes score crit s) = inr None /\
     tables (fst (updateBrokenLinkWithAI env lid a fixes score crit s))
     = tables s) /\
  (forall sid total broken score,
     scan_results (tables s) !! sid = None ->
     pool_rejects env (trace s) (QCompleteScan sid total broken score) = None ->
     snd (completeScanResult env sid total broken score s) = inr None /\
     tables (fst (completeScanResult env sid total broken score s))
     = tables s).
Proof.
  split.
  - intros lid a fixes score crit Hmiss Hok.
    unfold updateBrokenLinkWithAI, db_query, bind, ret. rewrite Hok. cbn.
    rewrite Hmiss, alter_absent by exact Hmiss. cbn.
    split; [reflexivity|]. destruct (tables s); reflexivity.
  - intros sid total broken score Hmiss Hok.
    unfold completeScanResult, db_query, bind, ret. rewrite Hok. cbn.
    rewrite Hmiss, alter_absent by exact Hmiss. cbn.
    split; [reflexivity|]. destruct (tables s); reflexivity.
Qed.

Lemma X9_witness :
  snd (updateBrokenLinkWithAI Scenario.all_well 7
         (analysis_for_db (Sample.analysis_with 2 50 (ai_input_of Sample.platform Sample.options (Sample.broken "https://example.org/a.html"))))
         [] 50 false (initial empty_tables)) = inr None /\
  tables (fst (updateBrokenLinkWithAI Scenario.all_well 7
         (analysis_for_db (Sample.analysis_with 2 50 (ai_input_of Sample.platform Sample.options (Sample.broken "https://example.org/a.html"))))
         [] 50 false (initial empty_tables))) = tables (initial empty_tables).
Proof.
  exact (proj1 (X9_update_of_missing_record Scenario.all_well
                  (initial empty_tables))
           7 _ [] 50 false eq_refl eq_refl).
Defined.

(** ** The gateway's instance *)

(** X10. The gateway is created once: whatever configurations two calls
    of [createDatabase] are given, the second returns the instance the
    first one made and its configuration is ignored; neither call
    throws. [getInstance] without a configuration throws while there is
    no instance, and creates none. *)
Theorem X10_database_created_once (E : ProcessEnv)
    (c1 c2 : option DatabaseConfig) (instance : option Database) :
  (exists d,
     snd (createDatabase E c1 instance) = inr d /\
     fst (createDatabase E c1 instance) = Some d /\
     createDatabase E c2 (fst (createDatabase E c1 instance))
     = (Some d, inr d) /\
     getInstance None (fst (createDatabase E c1 instance)) = (Some d, inr d)) /\
  getInstance None None = (None, inl configuration_required).
Proof.
  split; [|reflexivity].
  unfold createDatabase, getInstance.
  destruct instance as [d|]; eexists; repeat split; reflexivity.
Qed.

(** The second configuration is not the one in use. *)
Example createDatabase_keeps_first_configuration :
  snd (createDatabase bare_env (Some other_config)
         (fst (createDatabase bare_env None None)))
  = inr (new_Database (env_config bare_env)) /\
  pool_port (pool (new_Database (env_config bare_env))) = of_Z 5432 /\
  new_Database (env_config bare_env) <> new_Database other_config.
Proof. split; [reflexivity|]. split; [reflexivity|]. vm_compute. discriminate. Qed.

(** A pool is never given 0, NaN or nothing as its size or timeouts. *)
Lemma new_Database_defaults (config : DatabaseConfig) :
  (forall x, cfg_max config = Some x -> number_truthy x = true ->
             pool_max (pool (new_Database config)) = x) /\
  (cfg_max config = None \/ cfg_max config = Some (of_Z 0) ->
   pool_max (pool (new_Database config)) = of_Z 20).
Proof.
  unfold new_Database, number_or. cbn. split.
  - intros x -> ->. reflexivity.
  - intros [->| ->]; reflexivity.
Qed.

(** ** The analyzer *)

Lemma digits2_pos_bound (m : positive) :
  Z.pos m < 2 ^ Z.pos (digits2_pos m).
Proof.
  induction m as [m IH|m IH|]; cbn [digits2_pos].
  - rewrite Pos2Z.inj_succ, Z.pow_succ_r by lia. lia.
  - rewrite Pos2Z.inj_succ, Z.pow_succ_r by lia. lia.
  - reflexivity.
Qed.

Lemma valid_mantissa_bound (m : positive) (e : Z) :
  valid_binary prec emax (S754_finite false m e) = true ->
  Z.pos m < 2 ^ 53.
Proof.
  unfold valid_binary, bounded, canonical_mantissa, fexp, emin, prec, emax.
  intros H. apply andb_true_iff in H as [H _]. apply Z.eqb_eq in H.
  pose proof (digits2_pos_bound m) as Hm.
  assert (Z.pos (digits2_pos m) <= 53) by lia.
  eapply Z.lt_le_trans; [exact Hm|].
  apply Z.pow_le_mono_r; lia.
Qed.

Lemma round_small (m : positive) (e : Z) :
  e < 0 ->
  Z.pos m < 2 ^ 53 ->
  (e < -46 \/ (e = -46 /\ Z.pos m <= 7036874417766400)) ->
  0 <= (2 * Z.pos m + 2 ^ (- e)) / (2 * 2 ^ (- e)) <= 100.
Proof.
  intros He Hm Hb.
  assert (Hd : 0 < 2 ^ (- e)) by (apply Z.pow_pos_nonneg; lia).
  assert (Hd' : e < -46 -> 2 ^ 47 <= 2 ^ (- e))
    by (intros; apply Z.pow_le_mono_r; lia).
  assert (Hd'' : e = -46 -> 2 ^ (- e) = 70368744177664)
    by (intros ->; reflexivity).
  change (2 ^ 47) with 140737488355328 in Hd'.
  change (2 ^ 53) with 9007199254740992 in Hm.
  generalize dependent (2 ^ (- e)). intros d Hd Hd' Hd''.
  split.
  - apply Z.div_pos; lia.
  - apply Z.lt_succ_r. apply Z.div_lt_upper_bound; [lia|].
    destruct Hb as [Hlt|[Heq Hle]].
    + specialize (Hd' Hlt). lia.
    + specialize (Hd'' Heq). lia.
Qed.

Lemma Math_round_small (m : positive) (e : Z) :
  e < 0 ->
  Z.pos m < 2 ^ 53 ->
  (e < -46 \/ (e = -46 /\ Z.pos m <= 7036874417766400)) ->
  exists k, 0 <= k <= 100 /\ Math_round (S754_finite false m e) = of_Z k.
Proof.
  intros He Hm Hb.
  pose proof (round_small m e He Hm Hb) as Hr.
  unfold Math_round.
  destruct (Z.leb_spec 0 e) as [?|_]; [lia|].
  exists ((2 * Z.pos m + 2 ^ (- e)) / (2 * 2 ^ (- e))).
  split; [exact Hr|].
  destruct (Z.eqb_spec ((2 * Z.pos m + 2 ^ (- e)) / (2 * 2 ^ (- e))) 0) as [->|_];
    reflexivity.
Qed.

Lemma validatePriorityScore_range (A : Gemini.AnalyzerPlatform) (score : Gemini.JSValue) :
  Gemini.binary64 (Gemini.Number_of A score) ->
  Gemini.score_in_range (Gemini.validatePriorityScore A score).
Proof.
  unfold Gemini.binary64, Gemini.validatePriorityScore, Gemini.score_in_range.
  generalize (Gemini.Number_of A score). intros x Hx.
  assert (H0 : exists k, 0 <= k <= 100 /\ S754_zero false = of_Z k)
    by (exists 0; split; [lia|symmetry; exact of_Z_0]).
  assert (H100 : exists k, 0 <= k <= 100 /\
                   S754_finite false 7036874417766400 (-46) = of_Z k)
    by (exists 100; split; [lia|symmetry; exact of_Z_100]).
  assert (H50 : exists k, 0 <= k <= 100 /\ of_Z 50 = of_Z k)
    by (exists 50; split; [lia|reflexivity]).
  unfold Gemini.lt, Gemini.gt. rewrite of_Z_0, of_Z_100.
  destruct x as [s|s| |s m e].
  - destruct s; cbn [Gemini.Number_isNaN SFltb SFcompare Math_round].
    + left. reflexivity.
    + right. exact H0.
  - destruct s; cbn [Gemini.Number_isNaN SFltb SFcompare Math_round].
    + right. exact H0.
    + right. exact H100.
  - right. exact H50.
  - destruct s; cbn [Gemini.Number_isNaN SFltb SFcompare].
    + right. exact H0.
    + right.
      pose proof (valid_mantissa_bound m e Hx) as Hm.
      change (Pos.compare_cont Eq 7036874417766400 m)
        with (Pos.compare 7036874417766400 m).
      destruct (Z.compare_spec (-46) e) as [He|He|He]; cbv beta iota.
      * destruct (Pos.compare_spec 7036874417766400 m) as [Hc|Hc|Hc];
          cbv beta iota.
        -- apply Math_round_small; [lia|exact Hm|right; split; [lia|]].
           subst m. apply Z.le_refl.
        -- exact H100.
        -- apply Math_round_small;
             [clear Hc; lia|exact Hm|right; split; [clear Hc; lia|]].
           apply Z.lt_le_incl. exact Hc.
      * exact H100.
      * apply Math_round_small; [lia|exact Hm|left; lia].
Qed.
Section AnalyzerFacts.

Context (A : Gemini.AnalyzerPlatform).

Lemma validateImportance_level (v : Gemini.JSValue) :
  Gemini.is_level (Gemini.validateImportance v).
Proof.
  unfold Gemini.is_level, Gemini.validateImportance.
  destruct v as [| | | |s| |];
    try (exists "medium"; split; [reflexivity|cbn; tauto]).
  destruct (existsb (String.eqb s) Gemini.validLevels) eqn:E.
  - exists s. split; [reflexivity|].
    apply existsb_exists in E as (l & Hl & Heq).
    apply String.eqb_eq in Heq. subst l. exact Hl.
  - exists "medium". split; [reflexivity|cbn; tauto].
Qed.

Lemma validateImportance_fixed (v : Gemini.JSValue) :
  Gemini.is_level v -> Gemini.validateImportance v = v.
Proof.
  intros (s & -> & Hs). unfold Gemini.validateImportance.
  assert (E : existsb (String.eqb s) Gemini.validLevels = true).
  { apply existsb_exists. exists s. split; [exact Hs|apply String.eqb_refl]. }
  rewrite E. reflexivity.
Qed.

Lemma value_or_truthy (v d : Gemini.JSValue) :
  Gemini.value_truthy d = true ->
  Gemini.value_truthy (Gemini.value_or v d) = true.
Proof.
  intros Hd. unfold Gemini.value_or.
  destruct (Gemini.value_truthy v) eqn:E; assumption.
Qed.

Lemma value_or_fixed (v d : Gemini.JSValue) :
  Gemini.value_truthy v = true -> Gemini.value_or v d = v.
Proof. intros H. unfold Gemini.value_or. rewrite H. reflexivity. Qed.

Lemma scores_fixed_upto (n : nat) :
  (n <= 100)%nat ->
  Gemini.validatePriorityScore A (Gemini.VNumber (of_Z (Z.of_nat n)))
  = of_Z (Z.of_nat n).
Proof.
  intros Hn.
  do 101 (destruct n as [|n]; [vm_compute; reflexivity|]).
  lia.
Qed.

Lemma validatePriorityScore_fixed (x : number) :
  Gemini.score_in_range x ->
  Gemini.validatePriorityScore A (Gemini.VNumber x) = x.
Proof.
  intros [->|(k & Hk & ->)]; [reflexivity|].
  rewrite <- (Z2Nat.id k) by lia. apply scores_fixed_upto. lia.
Qed.

Lemma binary64_of_property (s : string) (parsed v : Gemini.JSValue) (k : string) :
  Gemini.platform_numbers A ->
  Gemini.JSON_parse A s = inr parsed ->
  Gemini.property parsed k = inr v ->
  Gemini.binary64 (Gemini.Number_of A v).
Proof.
  intros [Hother Hparsed] Hp Hk.
  destruct v as [| |b|x|t|items|fields]; cbn [Gemini.Number_of];
    try apply Hother.
  - reflexivity.
  - vm_compute. reflexivity.
  - destruct b; vm_compute; reflexivity.
  - exact (Hparsed s parsed k x Hp Hk).
Qed.

End AnalyzerFacts.
Section AnalyzerResults.

Context (A : Gemini.AnalyzerPlatform).

Lemma parseGeminiResponse_fields (text : string) (a : Gemini.Analysis) :
  Gemini.parseGeminiResponse A text = inr a ->
  exists parsed d p i b f r s,
    Gemini.JSON_parse A (Gemini.strip_fences A text) = inr parsed /\
    Gemini.property parsed "priorityScore" = inr s /\
    a = {| Gemini.intendedDestination :=
             Gemini.value_or d (Gemini.VString "Unknown");
           Gemini.linkPurpose := Gemini.value_or p (Gemini.VString "Unknown");
           Gemini.importance := Gemini.validateImportance i;
           Gemini.businessImpact :=
             Gemini.value_or b (Gemini.VString "Unknown impact");
           Gemini.suggestedFixes := Gemini.array_or_empty f;
           Gemini.reasoning :=
             Gemini.value_or r (Gemini.VString "No reasoning provided");
           Gemini.priorityScore :=
             Gemini.VNumber (Gemini.validatePriorityScore A s) |}.
Proof.
  unfold Gemini.parseGeminiResponse, Gemini.parse_fields.
  destruct (Gemini.JSON_parse A (Gemini.strip_fences A text)) as [e|parsed];
    [discriminate|].
  destruct (Gemini.property parsed "intendedDestination") as [?|d];
    [discriminate|].
  destruct (Gemini.property parsed "linkPurpose") as [?|p]; [discriminate|].
  destruct (Gemini.property parsed "importance") as [?|i]; [discriminate|].
  destruct (Gemini.property parsed "businessImpact") as [?|b]; [discriminate|].
  destruct (Gemini.property parsed "suggestedFixes") as [?|f]; [discriminate|].
  destruct (Gemini.property parsed "reasoning") as [?|r]; [discriminate|].
  destruct (Gemini.property parsed "priorityScore") as [?|s] eqn:Hs;
    [discriminate|].
  intros [= <-]. exists parsed, d, p, i, b, f, r, s.
  split; [reflexivity|]. split; [exact Hs|]. reflexivity.
Qed.

Lemma array_or_empty_array (f : Gemini.JSValue) :
  exists items, Gemini.array_or_empty f = Gemini.VArray items.
Proof. destruct f; cbn; eauto. Qed.

(** What [parseGeminiResponse] returns has no falsy text, a level, an
    array of fixes and a score in range. *)
Lemma parseGeminiResponse_sound (text : string) (a : Gemini.Analysis) :
  Gemini.platform_numbers A ->
  Gemini.parseGeminiResponse A text = inr a ->
  Gemini.value_truthy (Gemini.intendedDestination a) = true /\
  Gemini.value_truthy (Gemini.linkPurpose a) = true /\
  Gemini.is_level (Gemini.importance a) /\
  Gemini.value_truthy (Gemini.businessImpact a) = true /\
  (exists items, Gemini.suggestedFixes a = Gemini.VArray items) /\
  Gemini.value_truthy (Gemini.reasoning a) = true /\
  Gemini.is_score (Gemini.priorityScore a).
Proof.
  intros HA Hp.
  destruct (parseGeminiResponse_fields text a Hp)
    as (parsed & d & p & i & b & f & r & s & Hparse & Hs & ->).
  cbn [Gemini.intendedDestination Gemini.linkPurpose Gemini.importance
       Gemini.businessImpact Gemini.suggestedFixes Gemini.reasoning
       Gemini.priorityScore].
  split; [apply value_or_truthy; reflexivity|].
  split; [apply value_or_truthy; reflexivity|].
  split; [apply validateImportance_level|].
  split; [apply value_or_truthy; reflexivity|].
  split; [apply array_or_empty_array|].
  split; [apply value_or_truthy; reflexivity|].
  eexists. split; [reflexivity|].
  apply validatePriorityScore_range.
  exact (binary64_of_property A _ parsed s "priorityScore" HA Hparse Hs).
Qed.

Lemma first_three_bound (v : Gemini.JSValue) :
  Gemini.at_most_three (Gemini.first_three v).
Proof.
  unfold Gemini.at_most_three.
  destruct v as [| | | | |items|]; cbn [Gemini.first_three];
    try (exists []; split; [reflexivity|cbn; lia]).
  exists (firstn 3 items). split; [reflexivity|].
  rewrite length_firstn. lia.
Qed.

Lemma validateAnalysis_after_parse (text : string) (a : Gemini.Analysis) :
  Gemini.platform_numbers A ->
  Gemini.parseGeminiResponse A text = inr a ->
  Gemini.validateAnalysis A a = Gemini.truncated a.
Proof.
  intros HA Hp.
  destruct (parseGeminiResponse_sound text a HA Hp)
    as (Hd & Hl & Hi & Hb & _ & Hr & (x & Hx & Hrange)).
  unfold Gemini.validateAnalysis, Gemini.truncated.
  rewrite !value_or_fixed by assumption.
  rewrite validateImportance_fixed by assumption.
  rewrite Hx, validatePriorityScore_fixed by assumption.
  reflexivity.
Qed.

Lemma fallback_level_cases (input : Gemini.Input) :
  In (Gemini.fallback_level input)
     [("critical", 95); ("critical", 90); ("high", 70); ("low", 25);
      ("medium", 50)].
Proof.
  unfold Gemini.fallback_level.
  repeat match goal with
         | |- context [if ?c then _ else _] => destruct c
         end; cbn; tauto.
Qed.

Lemma getFallbackAnalysis_well_formed (input : Gemini.Input) :
  Gemini.well_formed (Gemini.getFallbackAnalysis input).
Proof.
  unfold Gemini.getFallbackAnalysis.
  pose proof (fallback_level_cases input) as Hc.
  destruct (Gemini.fallback_level input) as [level score].
  unfold Gemini.well_formed.
  cbn [Gemini.intendedDestination Gemini.linkPurpose Gemini.importance
       Gemini.businessImpact Gemini.suggestedFixes Gemini.reasoning
       Gemini.priorityScore].
  split; [reflexivity|]. split; [reflexivity|].
  split.
  { exists level. split; [reflexivity|].
    cbn in Hc. unfold Gemini.validLevels. cbn.
    intuition congruence. }
  split.
  { destruct (String.eqb level "critical"); reflexivity. }
  split.
  { eexists. split; [reflexivity|]. cbn. lia. }
  split; [reflexivity|].
  exists (of_Z score). split; [reflexivity|]. right. exists score.
  split; [|reflexivity].
  cbn in Hc. intuition (try congruence);
    match goal with H : _ = (_, _) |- _ => injection H as _ <-; lia end.
Qed.

End AnalyzerResults.
Section AnalyzerRuns.

Context (A : Gemini.AnalyzerPlatform) (model : Gemini.Model).

Lemma truncated_well_formed (text : string) (a : Gemini.Analysis) :
  Gemini.platform_numbers A ->
  Gemini.parseGeminiResponse A text = inr a ->
  Gemini.well_formed (Gemini.truncated a).
Proof.
  intros HA Hp.
  destruct (parseGeminiResponse_sound _ text a HA Hp)
    as (Hd & Hl & Hi & Hb & _ & Hr & Hs).
  unfold Gemini.well_formed, Gemini.truncated.
  cbn [Gemini.intendedDestination Gemini.linkPurpose Gemini.importance
       Gemini.businessImpact Gemini.suggestedFixes Gemini.reasoning
       Gemini.priorityScore].
  repeat (split; [assumption|]).
  split; [apply first_three_bound|].
  split; assumption.
Qed.

Lemma analyzeContext_returns (input : Gemini.Input) (calls : list Gemini.Call) :
  Gemini.platform_numbers A ->
  exists a,
    Gemini.analyzeContext A model input calls
    = (calls ++ [Gemini.Generate (Gemini.buildAnalysisPrompt input)], inr a)
    /\ Gemini.well_formed a.
Proof.
  intros HA. unfold Gemini.analyzeContext.
  destruct (model calls (Gemini.buildAnalysisPrompt input)) as [e|text].
  - eexists. split; [reflexivity|]. apply getFallbackAnalysis_well_formed.
  - destruct (Gemini.parseGeminiResponse A text) as [e|a] eqn:Hp.
    + eexists. split; [reflexivity|]. apply getFallbackAnalysis_well_formed.
    + eexists. split; [reflexivity|].
      rewrite (validateAnalysis_after_parse A text a HA Hp).
      exact (truncated_well_formed text a HA Hp).
Qed.




End AnalyzerRuns.
Lemma prefix_backtick (f s : string) (c : ascii) :
  Ascii.eqb c "`" = false ->
  String.prefix (String "`" f) (String c s) = false.
Proof.
  intros Hc. cbn [String.prefix].
  destruct (ascii_dec "`" c) as [E|E]; [|reflexivity].
  subst c. discriminate.
Qed.

Lemma remove_fence_copy (f body rest : string) :
  Gemini.no_backtick body = true ->
  Gemini.remove_fence (String "`" f) None (body +:+ rest)
  = body +:+ Gemini.remove_fence (String "`" f) None rest.
Proof.
  induction body as [|c body IH]; intros Hb; [reflexivity|].
  cbn [Gemini.no_backtick] in Hb. apply andb_true_iff in Hb as [Hc Hb].
  apply negb_true_iff in Hc.
  change (String c body +:+ rest) with (String c (body +:+ rest)).
  cbn [Gemini.remove_fence].
  rewrite (prefix_backtick f (body +:+ rest) c Hc).
  rewrite (IH Hb). reflexivity.
Qed.

Lemma strip_fences_fenced (A : Gemini.AnalyzerPlatform) (text tag body : string) :
  Gemini.String_trim A text
  = Gemini.fence +:+ tag +:+ JSString.nl +:+ body +:+ JSString.nl +:+ Gemini.fence ->
  tag = "" \/ tag = "json" ->
  Gemini.no_backtick body = true ->
  Gemini.strip_fences A text = body +:+ JSString.nl.
Proof.
  intros Ht Htag Hb. unfold Gemini.strip_fences. rewrite Ht.
  destruct Htag as [->| ->].
  - change (Gemini.startsWith Gemini.json_fence
              (Gemini.fence +:+ "" +:+ JSString.nl +:+ body +:+ JSString.nl +:+ Gemini.fence))
      with false.
    change (Gemini.startsWith Gemini.fence
              (Gemini.fence +:+ "" +:+ JSString.nl +:+ body +:+ JSString.nl +:+ Gemini.fence))
      with true.
    cbv beta iota.
    change (Gemini.remove_fence Gemini.fence None
              (Gemini.fence +:+ "" +:+ JSString.nl +:+ body +:+ JSString.nl +:+ Gemini.fence))
      with (Gemini.remove_fence Gemini.fence None
              (body +:+ JSString.nl +:+ Gemini.fence)).
    unfold Gemini.fence at 1.
    rewrite remove_fence_copy by exact Hb. reflexivity.
  - change (Gemini.startsWith Gemini.json_fence
              (Gemini.fence +:+ "json" +:+ JSString.nl +:+ body +:+ JSString.nl +:+ Gemini.fence))
      with true.
    cbv beta iota.
    change (Gemini.remove_fence Gemini.json_fence None
              (Gemini.fence +:+ "json" +:+ JSString.nl +:+ body +:+ JSString.nl +:+ Gemini.fence))
      with (Gemini.remove_fence Gemini.json_fence None
              (body +:+ JSString.nl +:+ Gemini.fence)).
    unfold Gemini.json_fence at 1.
    rewrite remove_fence_copy by exact Hb.
    change (Gemini.remove_fence "```json" None (JSString.nl +:+ Gemini.fence))
      with (JSString.nl +:+ Gemini.fence).
    unfold Gemini.fence at 1.
    rewrite remove_fence_copy by exact Hb. reflexivity.
Qed.

Lemma before_last_slash_none (s : string) :
  Gemini.no_slash s = true -> Gemini.before_last_slash s = None.
Proof.
  induction s as [|c s IH]; [reflexivity|].
  cbn [Gemini.no_slash Gemini.before_last_slash]. intros H.
  apply andb_true_iff in H as [Hc Hs]. apply negb_true_iff in Hc.
  rewrite (IH Hs), Hc. reflexivity.
Qed.

Lemma before_last_slash_cut (p t : string) :
  Gemini.no_slash t = true ->
  Gemini.before_last_slash (p +:+ "/" +:+ t) = Some p.
Proof.
  intros Ht. induction p as [|c p IH].
  - change ("" +:+ "/" +:+ t) with (String "/" t).
    cbn [Gemini.before_last_slash].
    rewrite (before_last_slash_none t Ht). reflexivity.
  - change (String c p +:+ "/" +:+ t) with (String c (p +:+ "/" +:+ t)).
    cbn [Gemini.before_last_slash]. rewrite IH. reflexivity.
Qed.

Lemma strip_suffix_slash (p : string) :
  JSString.strip_suffix "/" (p +:+ "/") = Some p.
Proof.
  induction p as [|c p IH]; [reflexivity|].
  change (String c p +:+ "/") with (String c (p +:+ "/")).
  cbn [JSString.strip_suffix].
  replace (String.eqb (String c (p +:+ "/")) "/") with false.
  - rewrite IH. reflexivity.
  - symmetry. apply String.eqb_neq. intros E. injection E as _ E.
    destruct p; discriminate.
Qed.

Lemma strip_suffix_slash_inv (s p : string) :
  JSString.strip_suffix "/" s = Some p -> s = p +:+ "/".
Proof.
  revert p. induction s as [|c s IH]; intros p.
  - cbn. discriminate.
  - cbn [JSString.strip_suffix].
    destruct (String.eqb_spec (String c s) "/") as [E|_].
    + intros [= <-]. exact E.
    + destruct (JSString.strip_suffix "/" s) as [q|]; [|discriminate].
      intros [= <-]. rewrite (IH q eq_refl). reflexivity.
Qed.
Lemma scenario_platform_numbers :
  Gemini.platform_numbers GeminiScenario.platform.
Proof.
  split.
  - intros v. unfold Gemini.binary64.
    destruct v as [| | | |[|c s]|[|i items]|]; reflexivity.
  - intros s v k x Hv Hk.
    cbn [Gemini.JSON_parse GeminiScenario.platform] in Hv.
    destruct (String.eqb s _); [|discriminate].
    injection Hv as <-.
    unfold GeminiScenario.parsed in Hk.
    cbn [Gemini.property Gemini.field] in Hk.
    destruct (String.eqb "importance" k); [discriminate|].
    destruct (String.eqb "priorityScore" k).
    + injection Hk as <-. vm_compute. reflexivity.
    + destruct (String.eqb "suggestedFixes" k); discriminate.
Qed.

Lemma createGeminiAnalyzer_requires_key (E : ProcessEnv) :
  (exists a, Gemini.createGeminiAnalyzer E = inr a) <->
  (exists key, getenv E "GEMINI_API_KEY" = Some key /\ key <> "").
Proof.
  unfold Gemini.createGeminiAnalyzer, Gemini.new_GeminiLinkAnalyzer,
    JSString.or_null, JSString.truthy.
  destruct (getenv E "GEMINI_API_KEY") as [key|].
  - destruct (String.eqb_spec key "") as [->|Hne]; cbn.
    + split; [intros [a Ha]; discriminate|].
      intros (k & [= <-] & Hk). congruence.
    + apply String.eqb_neq in Hne as Hb. rewrite Hb. cbn.
      split; [intros _; exists key; split; [reflexivity|assumption]|].
      intros _. eexists. reflexivity.
  - split; [intros [a Ha]; discriminate|intros (k & Hk & _); discriminate].
Qed.



(** The score of 87.5 becomes 88; a score below zero becomes 0, one
    above 100 becomes 100, what is no number becomes 50, and -0 stays
    -0. *)
Example validatePriorityScore_samples :
  Gemini.validatePriorityScore GeminiScenario.platform
    (Gemini.VNumber (div (of_Z 175) (of_Z 2))) = of_Z 88 /\
  Gemini.validatePriorityScore GeminiScenario.platform
    (Gemini.VNumber (of_Z (-3))) = of_Z 0 /\
  Gemini.validatePriorityScore GeminiScenario.platform
    (Gemini.VNumber (S754_infinity false)) = of_Z 100 /\
  Gemini.validatePriorityScore GeminiScenario.platform
    (Gemini.VString "urgent") = of_Z 50 /\
  Gemini.validatePriorityScore GeminiScenario.platform Gemini.VUndefined
  = of_Z 50 /\
  Gemini.validatePriorityScore GeminiScenario.platform Gemini.VNull = of_Z 0 /\
  Gemini.validatePriorityScore GeminiScenario.platform
    (Gemini.VNumber (div (of_Z (-1)) (of_Z 4))) = of_Z 0 /\
  Gemini.validatePriorityScore GeminiScenario.platform
    (Gemini.VNumber (S754_zero true)) = S754_zero true.
Proof. vm_compute. repeat split. Qed.

(** X12. [analyzeContext] never throws. It asks the model once, with the
    prompt built from its input, and whatever the model does (an answer,
    an answer that is no JSON, an error) the analysis it returns has an
    importance that is one of the four levels, an array of at most three
    suggested fixes, a whole score from 0 to 100 and no empty text
    field. *)
Theorem X12_analysis_is_well_formed (A : Gemini.AnalyzerPlatform)
    (model : Gemini.Model) (input : Gemini.Input) (calls : list Gemini.Call) :
  Gemini.platform_numbers A ->
  exists a,
    Gemini.analyzeContext A model input calls
    = (calls ++ [Gemini.Generate (Gemini.buildAnalysisPrompt input)], inr a) /\
    Gemini.well_formed a.
Proof. intros HA. apply analyzeContext_returns. exact HA. Qed.

Lemma X12_witness :
  exists a,
    Gemini.analyzeContext GeminiScenario.platform GeminiScenario.model
      GeminiScenario.donate []
    = ([Gemini.Generate (Gemini.buildAnalysisPrompt GeminiScenario.donate)],
       inr a) /\
    Gemini.well_formed a.
Proof.
  exact (X12_analysis_is_well_formed GeminiScenario.platform
           GeminiScenario.model GeminiScenario.donate []
           scenario_platform_numbers).
Defined.

(** X13. When the model's answer parses, [validateAnalysis] changes
    nothing in what [parseGeminiResponse] made of it but the suggested
    fixes, which it cuts to the first three: the texts, the importance
    and the score are returned as parsed, and the defaults of
    [validateAnalysis] are never used. *)
Theorem X13_validation_only_truncates (A : Gemini.AnalyzerPlatform)
    (model : Gemini.Model) (input : Gemini.Input) (calls : list Gemini.Call)
    (text : string) (parsed : Gemini.Analysis) :
  Gemini.platform_numbers A ->
  model calls (Gemini.buildAnalysisPrompt input) = inr text ->
  Gemini.parseGeminiResponse A text = inr parsed ->
  snd (Gemini.analyzeContext A model input calls)
  = inr (Gemini.truncated parsed).
Proof.
  intros HA Hm Hp. unfold Gemini.analyzeContext. rewrite Hm, Hp.
  cbn [snd]. rewrite (validateAnalysis_after_parse A text parsed HA Hp).
  reflexivity.
Qed.

Lemma X13_witness :
  exists parsed,
    Gemini.parseGeminiResponse GeminiScenario.platform GeminiScenario.answer
    = inr parsed /\
    snd (Gemini.analyzeContext GeminiScenario.platform GeminiScenario.model
           GeminiScenario.donate [])
    = inr (Gemini.truncated parsed).
Proof.
  eexists. split; [vm_compute; reflexivity|].
  apply (X13_validation_only_truncates GeminiScenario.platform
           GeminiScenario.model GeminiScenario.donate [] GeminiScenario.answer).
  - exact scenario_platform_numbers.
  - reflexivity.
  - vm_compute. reflexivity.
Defined.

(** Of the four fixes of the answer three are kept, the score of 87.5
    is 88, and the fields the answer lacks have the defaults of
    [parseGeminiResponse]. *)
Example analysis_of_the_answer :
  snd (Gemini.analyzeContext GeminiScenario.platform GeminiScenario.model
         GeminiScenario.donate [])
  = inr {| Gemini.intendedDestination := Gemini.VString "Unknown";
           Gemini.linkPurpose := Gemini.VString "Unknown";
           Gemini.importance := Gemini.VString "high";
           Gemini.businessImpact := Gemini.VString "Unknown impact";
           Gemini.suggestedFixes :=
             Gemini.VArray [ Gemini.VString "/a"; Gemini.VString "/b";
                             Gemini.VString "/c" ];
           Gemini.reasoning := Gemini.VString "No reasoning provided";
           Gemini.priorityScore := Gemini.VNumber (of_Z 88) |}.
Proof. vm_compute. reflexivity. Qed.

(** X14. An answer wrapped in a code fence, with or without the [json]
    tag, is parsed as what stands between the fences: for a body without
    backtick the text handed to [JSON.parse] is the body and its line
    feed. *)
Theorem X14_fenced_answer (A : Gemini.AnalyzerPlatform)
    (text tag body : string) :
  Gemini.String_trim A text
  = Gemini.fence +:+ tag +:+ JSString.nl +:+ body +:+ JSString.nl
    +:+ Gemini.fence ->
  tag = "" \/ tag = "json" ->
  Gemini.no_backtick body = true ->
  Gemini.strip_fences A text = body +:+ JSString.nl.
Proof. apply strip_fences_fenced. Qed.

Lemma X14_witness :
  Gemini.strip_fences GeminiScenario.platform GeminiScenario.answer
  = GeminiScenario.body +:+ JSString.nl.
Proof.
  apply (X14_fenced_answer GeminiScenario.platform GeminiScenario.answer
           "json" GeminiScenario.body).
  - reflexivity.
  - right. reflexivity.
  - vm_compute. reflexivity.
Defined.

(** X15. An answer that is JSON but has none of the seven fields (a
    number, a string, an array, an empty object) is no error: the
    analysis is the one of defaults, with importance medium and score
    50, and the fallback heuristics are not used. An answer of [null] is
    an error, and gives the fallback. *)
Theorem X15_answer_without_fields (A : Gemini.AnalyzerPlatform)
    (model : Gemini.Model) (input : Gemini.Input) (calls : list Gemini.Call)
    (text : string) (v : Gemini.JSValue) :
  model calls (Gemini.buildAnalysisPrompt input) = inr text ->
  Gemini.JSON_parse A (Gemini.strip_fences A text) = inr v ->
  ((forall k, In k Gemini.field_names ->
              Gemini.property v k = inr Gemini.VUndefined) ->
   snd (Gemini.analyzeContext A model input calls)
   = inr Gemini.default_analysis) /\
  (Gemini.is_nullish v = true ->
   snd (Gemini.analyzeContext A model input calls)
   = inr (Gemini.getFallbackAnalysis input)).
Proof.
  intros Hm Hv. unfold Gemini.analyzeContext, Gemini.parseGeminiResponse,
    Gemini.parse_fields. rewrite Hm, Hv. split.
  - intros Hk.
    rewrite !Hk by (cbn; tauto). reflexivity.
  - intros Hn. destruct v; try discriminate; reflexivity.
Qed.

Lemma X15_witness :
  snd (Gemini.analyzeContext GeminiScenario.list_platform
         GeminiScenario.list_model GeminiScenario.news [])
  = inr Gemini.default_analysis.
Proof.
  apply (X15_answer_without_fields GeminiScenario.list_platform
           GeminiScenario.list_model GeminiScenario.news [] "[]"
           (Gemini.VArray [])).
  - reflexivity.
  - reflexivity.
  - intros k _. reflexivity.
Defined.



(** X17. The fallback suggests two fixes: the address of the page cut
    before its last slash (the whole address when it has no slash), and
    the broken address without one slash at its end (the whole address
    when it does not end in a slash). *)
Theorem X17_fallback_fixes (input : Gemini.Input) :
  exists a b,
    Gemini.suggestedFixes (Gemini.getFallbackAnalysis input)
    = Gemini.VArray [Gemini.VString a; Gemini.VString b] /\
    (forall p t, foundOnUrl (Gemini.link input) = p +:+ "/" +:+ t ->
                 Gemini.no_slash t = true -> a = p) /\
    (Gemini.no_slash (foundOnUrl (Gemini.link input)) = true ->
     a = foundOnUrl (Gemini.link input)) /\
    (forall p, brokenUrl (Gemini.link input) = p +:+ "/" -> b = p) /\
    ((forall p, brokenUrl (Gemini.link input) <> p +:+ "/") ->
     b = brokenUrl (Gemini.link input)).
Proof.
  exists (Gemini.remove_last_segment (foundOnUrl (Gemini.link input))),
    (Gemini.remove_trailing_slash (brokenUrl (Gemini.link input))).
  split.
  { unfold Gemini.getFallbackAnalysis.
    destruct (Gemini.fallback_level input). reflexivity. }
  unfold Gemini.remove_last_segment, Gemini.remove_trailing_slash.
  split; [|split; [|split]].
  - intros p t -> Ht. rewrite (before_last_slash_cut p t Ht). reflexivity.
  - intros Hs. rewrite (before_last_slash_none _ Hs). reflexivity.
  - intros p ->. rewrite strip_suffix_slash. reflexivity.
  - intros Hno.
    destruct (JSString.strip_suffix "/" (brokenUrl (Gemini.link input)))
      as [q|] eqn:E; [|reflexivity].
    apply strip_suffix_slash_inv in E. exfalso. exact (Hno q E).
Qed.

(** A page at the root of its site has the slashes of the scheme as its
    last ones: the suggestion is no address. *)
Example fallback_fix_of_a_root_page :
  Gemini.suggestedFixes (Gemini.getFallbackAnalysis GeminiScenario.news)
  = Gemini.VArray [Gemini.VString "https:/";
                   Gemini.VString "https://example.org/news"] /\
  Gemini.suggestedFixes (Gemini.getFallbackAnalysis GeminiScenario.donate)
  = Gemini.VArray [Gemini.VString "https://example.org/about";
                   Gemini.VString "https://example.org/Donate"].
Proof. vm_compute. split; reflexivity. Qed.

(** The second request of the batch is refused and its analysis is the
    fallback; the first, whose link text is in capitals, would have been
    critical by the fallback too. *)
Example batch_of_two :
  snd (Gemini.analyzeBatch GeminiScenario.platform GeminiScenario.model
         [GeminiScenario.donate; GeminiScenario.news] [])
  = inr [ Gemini.truncated
            {| Gemini.intendedDestination := Gemini.VString "Unknown";
               Gemini.linkPurpose := Gemini.VString "Unknown";
               Gemini.importance := Gemini.VString "high";
               Gemini.businessImpact := Gemini.VString "Unknown impact";
               Gemini.suggestedFixes :=
                 Gemini.VArray [ Gemini.VString "/a"; Gemini.VString "/b";
                                 Gemini.VString "/c"; Gemini.VString "/d" ];
               Gemini.reasoning := Gemini.VString "No reasoning provided";
               Gemini.priorityScore := Gemini.VNumber (of_Z 88) |};
          Gemini.getFallbackAnalysis GeminiScenario.news ] /\
  Gemini.fallback_level GeminiScenario.donate = ("critical", 95) /\
  Gemini.fallback_level GeminiScenario.news = ("medium", 50).
Proof. vm_compute. repeat split. Qed.

(** ** The label of a link *)

Lemma split_not_nil (sep : ascii) (s : string) : JSString.split sep s <> [].
Proof.
  destruct s as [|c s]; cbn [JSString.split]; [discriminate|].
  destruct (Ascii.eqb c sep); [discriminate|].
  destruct (JSString.split sep s); discriminate.
Qed.

Lemma join_cons_char (sep : string) (c : ascii) (w : string) (ws : list string) :
  JSString.join sep (String c w :: ws) = String c (JSString.join sep (w :: ws)).
Proof. cbn [JSString.join]. destruct ws; reflexivity. Qed.

Lemma join_empty_word (w : string) (ws : list string) :
  JSString.join " " ("" :: w :: ws) = String " " (JSString.join " " (w :: ws)).
Proof. reflexivity. Qed.

Lemma split_chars (sep : ascii) (p : ascii -> Prop) (s : string) :
  Forall p (list_ascii_of_string s) ->
  Forall (fun w => Forall p (list_ascii_of_string w)) (JSString.split sep s).
Proof.
  induction s as [|c s IH]; intros H.
  - repeat constructor.
  - cbn [list_ascii_of_string] in H. apply Forall_cons in H as [Hc Hs].
    specialize (IH Hs). cbn [JSString.split].
    destruct (Ascii.eqb c sep).
    + apply List.Forall_cons; [constructor|exact IH].
    + destruct (JSString.split sep s) as [|w ws].
      * apply List.Forall_cons; [|constructor].
        cbn. repeat constructor. exact Hc.
      * apply Forall_cons in IH as [Hw Hws].
        apply List.Forall_cons; [|exact Hws].
        cbn. apply List.Forall_cons; assumption.
Qed.

(** A piece of a string cut at [sep] has no [sep] in it. *)
Lemma split_pieces (sep : ascii) (s : string) :
  Forall (fun w => Forall (fun c => c <> sep) (list_ascii_of_string w))
    (JSString.split sep s).
Proof.
  induction s as [|c s IH].
  - repeat constructor.
  - cbn [JSString.split].
    destruct (Ascii.eqb_spec c sep) as [E|E].
    + apply List.Forall_cons; [constructor|exact IH].
    + destruct (JSString.split sep s) as [|w ws].
      * apply List.Forall_cons; [|constructor].
        cbn. repeat constructor. exact E.
      * apply Forall_cons in IH as [Hw Hws].
        apply List.Forall_cons; [|exact Hws].
        cbn. apply List.Forall_cons; assumption.
Qed.

(** Capitalising the words of [s] keeps a property of its characters
    that the space has and that [toUpperCase] keeps. *)
Lemma title_case_chars (p : ascii -> Prop) :
  p " "%char ->
  (forall c, p c -> p (JSString.toUpperCase_char c)) ->
  forall s,
    Forall p (list_ascii_of_string s) ->
    Forall p (list_ascii_of_string (spec_title_case s)) /\
    (forall w ws, JSString.split " " s = w :: ws ->
       Forall p (list_ascii_of_string
                   (JSString.join " " (w :: List.map capitalize ws)))).
Proof.
  intros Hsp Hup. unfold spec_title_case.
  induction s as [|c s IH]; intros H.
  - split; [constructor|]. cbn. intros w ws [= <- <-]. constructor.
  - cbn [list_ascii_of_string] in H. apply Forall_cons in H as [Hc Hs].
    destruct (IH Hs) as [IH1 IH2]. clear IH.
    cbn [JSString.split].
    destruct (Ascii.eqb_spec c " ") as [->|Hne].
    + destruct (JSString.split " " s) as [|w ws] eqn:E;
        [exfalso; exact (split_not_nil _ _ E)|].
      split.
      * change (List.map capitalize ("" :: w :: ws))
          with ("" :: capitalize w :: List.map capitalize ws).
        rewrite join_empty_word. cbn [list_ascii_of_string].
        apply List.Forall_cons; [exact Hsp|exact IH1].
      * intros w' ws' [= <- <-].
        change (List.map capitalize (w :: ws))
          with (capitalize w :: List.map capitalize ws).
        rewrite join_empty_word. cbn [list_ascii_of_string].
        apply List.Forall_cons; [exact Hsp|exact IH1].
    + destruct (JSString.split " " s) as [|w ws] eqn:E;
        [exfalso; exact (split_not_nil _ _ E)|].
      specialize (IH2 w ws eq_refl).
      split.
      * change (List.map capitalize (String c w :: ws))
          with (String (JSString.toUpperCase_char c) w
                  :: List.map capitalize ws).
        rewrite join_cons_char. cbn [list_ascii_of_string].
        apply List.Forall_cons; [apply Hup; exact Hc|exact IH2].
      * intros w' ws' [= <- <-].
        rewrite join_cons_char. cbn [list_ascii_of_string].
        apply List.Forall_cons; [exact Hc|exact IH2].
Qed.

Lemma title_case_empty (s : string) : spec_title_case s = "" <-> s = "".
Proof.
  split; [|intros ->; reflexivity].
  unfold spec_title_case. destruct s as [|c s]; [reflexivity|].
  cbn [JSString.split].
  destruct (Ascii.eqb c " ").
  - destruct (JSString.split " " s) as [|w ws] eqn:E;
      [exfalso; exact (split_not_nil _ _ E)|].
    change (List.map capitalize ("" :: w :: ws))
      with ("" :: capitalize w :: List.map capitalize ws).
    rewrite join_empty_word. discriminate.
  - destruct (JSString.split " " s) as [|w ws] eqn:E;
      [exfalso; exact (split_not_nil _ _ E)|].
    change (List.map capitalize (String c w :: ws))
      with (String (JSString.toUpperCase_char c) w :: List.map capitalize ws).
    rewrite join_cons_char. discriminate.
Qed.

Lemma strip_suffix_chars (p : ascii -> Prop) (suf s q : string) :
  JSString.strip_suffix suf s = Some q ->
  Forall p (list_ascii_of_string s) -> Forall p (list_ascii_of_string q).
Proof.
  revert q. induction s as [|c s IH]; intros q.
  - cbn [JSString.strip_suffix]. destruct (String.eqb "" suf); [|discriminate].
    intros [= <-] _. constructor.
  - cbn [JSString.strip_suffix].
    destruct (String.eqb (String c s) suf).
    + intros [= <-] _. constructor.
    + destruct (JSString.strip_suffix suf s) as [q'|]; [|discriminate].
      intros [= <-] H. cbn [list_ascii_of_string] in H |- *.
      apply Forall_cons in H as [Hc Hs].
      apply List.Forall_cons; [exact Hc|exact (IH q' eq_refl Hs)].
Qed.

Lemma strip_suffix_app (suf s q : string) :
  JSString.strip_suffix suf s = Some q -> s = q +:+ suf.
Proof.
  revert q. induction s as [|c s IH]; intros q.
  - cbn [JSString.strip_suffix].
    destruct (String.eqb_spec "" suf) as [E|_]; [|discriminate].
    intros [= <-]. exact E.
  - cbn [JSString.strip_suffix].
    destruct (String.eqb_spec (String c s) suf) as [E|_].
    + intros [= <-]. exact E.
    + destruct (JSString.strip_suffix suf s) as [q'|]; [|discriminate].
      intros [= <-]. rewrite (IH q' eq_refl). reflexivity.
Qed.

Lemma replace_extension_chars (p : ascii -> Prop) (s : string) :
  Forall p (list_ascii_of_string s) ->
  Forall p (list_ascii_of_string (replace_extension s)).
Proof.
  intros H. unfold replace_extension.
  destruct (JSString.strip_suffix ".html" s) eqn:E1;
    [exact (strip_suffix_chars p _ _ _ E1 H)|].
  destruct (JSString.strip_suffix ".htm" s) eqn:E2;
    [exact (strip_suffix_chars p _ _ _ E2 H)|].
  destruct (JSString.strip_suffix ".php" s) eqn:E3;
    [exact (strip_suffix_chars p _ _ _ E3 H)|].
  exact H.
Qed.

Lemma replace_extension_empty (s : string) :
  s <> "" ->
  replace_extension s = "" <-> s = ".html" \/ s = ".htm" \/ s = ".php".
Proof.
  intros Hs. split.
  - unfold replace_extension.
    destruct (JSString.strip_suffix ".html" s) eqn:E1.
    { intros ->. left. exact (strip_suffix_app _ _ _ E1). }
    destruct (JSString.strip_suffix ".htm" s) eqn:E2.
    { intros ->. right. left. exact (strip_suffix_app _ _ _ E2). }
    destruct (JSString.strip_suffix ".php" s) eqn:E3.
    { intros ->. right. right. exact (strip_suffix_app _ _ _ E3). }
    intros E. contradiction.
  - intros [->|[->| ->]]; reflexivity.
Qed.
Lemma toUpperCase_char_not_separator (c : ascii) :
  not_separator c -> not_separator (JSString.toUpperCase_char c).
Proof.
  unfold not_separator.
  destruct c as [[] [] [] [] [] [] [] []]; vm_compute;
    intros (H1 & H2 & H3); repeat split; congruence.
Qed.

Lemma replace_separators_chars (s : string) :
  Forall (fun c => c <> "/"%char) (list_ascii_of_string s) ->
  Forall not_separator (list_ascii_of_string (replace_separators s)).
Proof.
  induction s as [|c s IH]; intros H; [constructor|].
  cbn [list_ascii_of_string] in H. apply Forall_cons in H as [Hc Hs].
  change (replace_separators (String c s))
    with (String (dash_to_space c) (replace_separators s)).
  cbn [list_ascii_of_string].
  apply List.Forall_cons; [|exact (IH Hs)].
  unfold dash_to_space, not_separator.
  destruct (Ascii.eqb_spec c "-") as [->|H1]; [repeat split; discriminate|].
  destruct (Ascii.eqb_spec c "_") as [->|H2]; [repeat split; discriminate|].
  cbn. repeat split; assumption.
Qed.

Lemma replace_separators_empty (s : string) :
  replace_separators s = "" <-> s = "".
Proof. destruct s; split; try reflexivity; discriminate. Qed.

(** X18. The label [extractLinkText] makes of an address never has a
    hyphen, an underscore or a slash in it. It can be empty: for an
    address that parses it is empty exactly when the last segment of
    the path is nothing but one of the extensions [.html], [.htm] and
    [.php]. *)
Theorem X18_label_characters (P : Platform) (u : string) :
  Forall not_separator (list_ascii_of_string (extractLinkText P u)) /\
  (forall pathname seg,
     URL_pathname P u = Some pathname ->
     last (List.filter JSString.truthy (JSString.split "/" pathname))
     = Some seg ->
     (extractLinkText P u = ""
      <-> seg = ".html" \/ seg = ".htm" \/ seg = ".php")).
Proof.
  unfold extractLinkText. split.
  - destruct (URL_pathname P u) as [pathname|];
      [|repeat constructor; discriminate].
    cbv zeta.
    apply (title_case_chars not_separator).
    + repeat split; discriminate.
    + exact toUpperCase_char_not_separator.
    + apply replace_extension_chars, replace_separators_chars.
      unfold JSString.or_else.
      destruct (last _) as [seg|] eqn:Hl;
        [|repeat constructor; discriminate].
      rewrite (last_filter_true _ _ _ Hl).
      apply last_Some in Hl as [l' Hl].
      assert (Hin : In seg (JSString.split "/" pathname)).
      { eapply (proj1 (filter_In JSString.truthy seg _)).
        rewrite Hl. apply in_or_app. right. left. reflexivity. }
      pose proof (split_pieces "/" pathname) as Hp.
      rewrite List.Forall_forall in Hp. exact (Hp seg Hin).
  - intros pathname seg -> Hl. cbv zeta. rewrite Hl.
    pose proof (last_filter_true _ _ _ Hl) as Ht.
    unfold JSString.or_else. rewrite Ht.
    change (JSString.join " "
              (List.map capitalize
                 (JSString.split " "
                    (replace_extension (replace_separators seg)))))
      with (spec_title_case (replace_extension (replace_separators seg))).
    rewrite title_case_empty, replace_extension_separators,
      replace_separators_empty.
    apply replace_extension_empty.
    intros ->. discriminate Ht.
Qed.

(** An address whose last segment is an extension has an empty label,
    which the gateway stores as no label at all. *)
Example extractLinkText_of_a_bare_extension :
  extractLinkText Sample.platform "https://example.org/docs/.html" = "" /\
  JSString.or_null (Some (extractLinkText Sample.platform
                            "https://example.org/docs/.html")) = None.
Proof. vm_compute. split; reflexivity. Qed.
